(** * Blocking, cancellable TLS I/O in org_conscrypt_NativeCrypto.cpp

    A shallow embedding of the I/O coordinator of the native glue:
    [sslNotify], [sslSelect], [sslRead], [sslWrite], the JNI entry points
    [NativeCrypto_SSL_read], [NativeCrypto_SSL_write],
    [NativeCrypto_SSL_do_handshake] and [NativeCrypto_SSL_interrupt], and
    the [AppData] record they share.

    The code talks to three collaborators that live outside the file: the
    TLS engine (SSL_read, SSL_write, SSL_get_error, ...), the kernel
    (poll, read and write on the emergency pipe) and the JVM (pending
    exceptions).  Their answers are taken from explicit scripts, one entry
    per call, so that every function below is a total, executable function
    of the program state and of what the collaborators answer.

    The later parts embed helpers of the same file that stand on their
    own: [NativeCrypto_SSL_shutdown], the conversions between Java byte
    arrays and BIGNUM, [evpUpdate] on a Java array,
    [NativeCrypto_ASN1_TIME_to_Calendar] and [setBlocking]. *)

From Stdlib Require Import ZArith List Bool Lia.
Import ListNotations.
Local Open Scope Z_scope.

(** ** Constants of the external headers *)

(** openssl/ssl.h *)
Definition SSL_ERROR_NONE : Z := 0.
Definition SSL_ERROR_SSL : Z := 1.
Definition SSL_ERROR_WANT_READ : Z := 2.
Definition SSL_ERROR_WANT_WRITE : Z := 3.
Definition SSL_ERROR_SYSCALL : Z := 5.
Definition SSL_ERROR_ZERO_RETURN : Z := 6.

(** errno.h (Linux numbering) *)
Definition EINTR : Z := 4.
Definition EAGAIN : Z := 11.

(** poll.h *)
Definition POLLIN : Z := 1.
Definition POLLPRI : Z := 2.
Definition POLLOUT : Z := 4.

(** The three negative return codes of the file itself (lines 1667-1669). *)
Definition THROW_SSLEXCEPTION : Z := -2.
Definition THROW_SOCKETTIMEOUTEXCEPTION : Z := -3.
Definition THROWN_EXCEPTION : Z := -4.

(** ** Program state *)

(** Java exceptions the modelled code can leave pending in the JNIEnv. *)
Inductive jthrowable :=
| NullPointerException
| SSLException
| SSLProtocolException
| SocketTimeoutException
| SSLHandshakeException
| SocketException        (* thrown by NetFd.isClosed *)
| CallbackException.     (* thrown by a Java callback run by the engine *)

(** System and engine calls, logged in the order they are made (the head
    of the list is the most recent call). *)
Inductive event :=
| EvSSL_read (len result : Z)
| EvSSL_write (buf len result : Z)
| EvSSL_do_handshake (result : Z)
| EvSSL_set_fd (result : Z)
| EvSetBlocking (ok : bool)
| EvSSL_clear
| EvPoll (events0 events1 timeout : Z)
| EvPipeWrite             (* write(fdsEmergency[1], &token, 1) *)
| EvPipeRead.             (* read(fdsEmergency[0], &token, 1) *)

(** [class AppData]: the liveness flag, the waiter count and the emergency
    pipe, here the number of tokens written to fdsEmergency[1] and not yet
    read from fdsEmergency[0].  [callbackState] is true while [env] and
    [sslHandshakeCallbacks] are set.  The C [int] fields are integers;
    signed overflow is undefined in C++, and the model is exact wherever
    the program's behaviour is defined. *)
Record AppData := mkAppData {
  aliveAndKicking : Z;
  waitingThreads : Z;
  fdsEmergency : nat;
  callbackState : bool
}.

(** The state one thread works on: the shared [AppData], its own [errno]
    and pending JNI exception, the [OpenSslError] object its entry point
    passes by reference, and the log of calls. *)
Record State := mkState {
  appData : AppData;
  errno : Z;
  pending : option jthrowable;
  sslError : Z;
  trace : list event
}.

(** An SSL handle; [app_data] tells whether SSL_get_app_data yields the
    connection's [AppData] (true) or nullptr (false). *)
Record SSL := mkSSL { app_data : bool }.

Definition set_appData (a : AppData) (st : State) : State :=
  mkState a (errno st) (pending st) (sslError st) (trace st).
Definition set_errno (e : Z) (st : State) : State :=
  mkState (appData st) e (pending st) (sslError st) (trace st).
Definition set_pending (p : option jthrowable) (st : State) : State :=
  mkState (appData st) (errno st) p (sslError st) (trace st).
Definition set_sslError (c : Z) (st : State) : State :=
  mkState (appData st) (errno st) (pending st) c (trace st).
Definition log (ev : event) (st : State) : State :=
  mkState (appData st) (errno st) (pending st) (sslError st) (ev :: trace st).

Definition set_alive (v : Z) (st : State) : State :=
  let a := appData st in
  set_appData (mkAppData v (waitingThreads a) (fdsEmergency a) (callbackState a)) st.
Definition set_waiting (v : Z) (st : State) : State :=
  let a := appData st in
  set_appData (mkAppData (aliveAndKicking a) v (fdsEmergency a) (callbackState a)) st.
Definition set_pipe (n : nat) (st : State) : State :=
  let a := appData st in
  set_appData (mkAppData (aliveAndKicking a) (waitingThreads a) n (callbackState a)) st.
Definition set_callbackState (b : bool) (st : State) : State :=
  let a := appData st in
  set_appData (mkAppData (aliveAndKicking a) (waitingThreads a) (fdsEmergency a) b) st.

(** jniThrowException: a pending exception is cleared and replaced. *)
Definition jniThrowException (e : jthrowable) (st : State) : State :=
  set_pending (Some e) st.

(** ** sslNotify (lines 6521-6532) *)

(** What the kernel answers to one write on the pipe. *)
Inductive write_outcome :=
| WriteOk
| WriteFail (e : Z).

(** write(appData->fdsEmergency[1], &token, 1), for a write that returns;
    [sys_write_blocking] below says when it does. *)
Definition sys_write (o : write_outcome) (st : State) : State :=
  let st := log EvPipeWrite st in
  match o with
  | WriteOk => set_pipe (S (fdsEmergency (appData st))) st
  | WriteFail e => set_errno e st
  end.

(** The do-while loop of sslNotify.  [ws] lists the answers to the
    successive writes; once it is used up the write succeeds. *)
Fixpoint sslNotify_loop (ws : list write_outcome) (st : State) : State :=
  match ws with
  | [] => sys_write WriteOk (set_errno 0 st)
  | o :: ws' =>
      let st' := sys_write o (set_errno 0 st) in
      if errno st' =? EINTR then sslNotify_loop ws' st' else st'
  end.

Definition sslNotify (ws : list write_outcome) (st : State) : State :=
  let errnoBackup := errno st in
  let st := sslNotify_loop ws st in
  set_errno errnoBackup st.

(** The pipe as the kernel keeps it.  AppData::create makes only the read
    end non-blocking (setBlocking(fdsEmergency[0], false)), so the write
    end is a blocking descriptor; and a pipe holds a bounded number of
    bytes, [capacity].  A write that would succeed but finds the pipe full
    does not return before a reader has taken a byte; a write that fails,
    as one interrupted by a signal does, returns.  [None] stands for a
    write, and so for a call, that does not return as long as nobody reads
    from the pipe. *)
Definition sys_write_blocking (capacity : nat) (o : write_outcome) (st : State)
  : option State :=
  match o with
  | WriteOk =>
      if (fdsEmergency (appData st) <? capacity)%nat then Some (sys_write o st) else None
  | WriteFail _ => Some (sys_write o st)
  end.

Fixpoint sslNotify_loop_blocking (capacity : nat) (ws : list write_outcome) (st : State)
  : option State :=
  match ws with
  | [] => sys_write_blocking capacity WriteOk (set_errno 0 st)
  | o :: ws' =>
      match sys_write_blocking capacity o (set_errno 0 st) with
      | None => None
      | Some st' =>
          if errno st' =? EINTR then sslNotify_loop_blocking capacity ws' st' else Some st'
      end
  end.

Definition sslNotify_blocking (capacity : nat) (ws : list write_outcome) (st : State)
  : option State :=
  let errnoBackup := errno st in
  match sslNotify_loop_blocking capacity ws st with
  | None => None
  | Some st => Some (set_errno errnoBackup st)
  end.

(** ** NativeCrypto_SSL_interrupt (lines 8585-8604) *)

(** to_SSL: a null address yields nullptr, with a NullPointerException
    when [throwIfNull]. *)
Definition to_SSL (ssl_address : option SSL) (throwIfNull : bool) (st : State)
  : option SSL * State :=
  match ssl_address with
  | None => (None, if throwIfNull then jniThrowException NullPointerException st else st)
  | Some ssl => (Some ssl, st)
  end.

Definition NativeCrypto_SSL_interrupt (ws1 ws2 : list write_outcome)
    (ssl_address : option SSL) (st : State) : State :=
  match to_SSL ssl_address false st with
  | (None, st) => st
  | (Some ssl, st) =>
      if app_data ssl then
        let st := set_alive 0 st in
        let st := sslNotify ws1 st in
        sslNotify ws2 st
      else st
  end.

(** The same call on the pipe as the kernel keeps it: [None] when one of
    its writes does not return. *)
Definition NativeCrypto_SSL_interrupt_blocking (capacity : nat)
    (ws1 ws2 : list write_outcome) (ssl_address : option SSL) (st : State)
  : option State :=
  match to_SSL ssl_address false st with
  | (None, st) => Some st
  | (Some ssl, st) =>
      if app_data ssl then
        let st := set_alive 0 st in
        match sslNotify_blocking capacity ws1 st with
        | None => None
        | Some st => sslNotify_blocking capacity ws2 st
        end
      else Some st
  end.

(** A call made by another thread: it works on the shared [AppData] and
    on the pipe, with an [errno], a pending exception and an
    [OpenSslError] of its own. *)
Definition other_thread (f : State -> State) (st : State) : State :=
  let st' := f st in
  mkState (appData st') (errno st) (pending st) (sslError st) (trace st').

(** Another thread runs NativeCrypto_SSL_interrupt on this connection
    while the current thread is inside a call. *)
Definition concurrent_interrupt (b : bool) (st : State) : State :=
  if b then other_thread (NativeCrypto_SSL_interrupt [] [] (Some (mkSSL true))) st
  else st.

(** ** sslSelect (lines 6438-6512) *)

(** Modelled from the spec: the class NetFd, declared outside the file, is
    the descriptor source "supplying the underlying socket descriptor and
    an is-this-descriptor-already-closed predicate"; as the call sites
    note, isClosed() leaves a SocketException pending when it answers
    true.  [closed] is what the Java FileDescriptor says at that moment. *)
Definition NetFd_isClosed (closed : bool) (st : State) : bool * State :=
  if closed then (true, jniThrowException SocketException st) else (false, st).

(** What the kernel answers to one poll: failure with an errno, or the
    revents of the socket and of the pipe's read end. *)
Inductive poll_outcome :=
| PollFail (e : Z)
| Polled (revents0 revents1 : Z).

(** One turn of the do-while loop as the environment sees it: the two
    closed-checks, the poll, and whether another thread interrupts the
    connection while this one is parked in poll. *)
Record poll_attempt := mkPoll {
  pa_closed_before : bool;
  pa_outcome : poll_outcome;
  pa_closed_after : bool;
  pa_interrupt : bool
}.

(** The value poll returns: -1, or the number of descriptors with
    non-zero revents. *)
Definition poll_result (o : poll_outcome) : Z :=
  match o with
  | PollFail _ => -1
  | Polled r0 r1 => (if r0 =? 0 then 0 else 1) + (if r1 =? 0 then 0 else 1)
  end.

Definition poll_revents1 (o : poll_outcome) : Z :=
  match o with
  | PollFail _ => 0
  | Polled _ r1 => r1
  end.

(** poll(fds, 2, timeout_millis) *)
Definition poll (events0 timeout_millis : Z) (a : poll_attempt) (st : State) : State :=
  let st := log (EvPoll events0 (Z.lor POLLIN POLLPRI) timeout_millis) st in
  let st := concurrent_interrupt (pa_interrupt a) st in
  match pa_outcome a with
  | PollFail e => set_errno e st
  | Polled _ _ => st
  end.

(** The do-while loop around poll.  It yields the result, fds[1].revents
    and the state, or [None] when the script ends with the thread still
    polling. *)
Fixpoint sslSelect_poll (attempts : list poll_attempt) (type timeout_millis : Z)
    (st : State) : option (Z * Z * State) :=
  match attempts with
  | [] => None
  | a :: rest =>
      let (closed, st) := NetFd_isClosed (pa_closed_before a) st in
      if closed then Some (THROWN_EXCEPTION, 0, st)
      else
        let events0 :=
          if type =? SSL_ERROR_WANT_READ then Z.lor POLLIN POLLPRI
          else Z.lor POLLOUT POLLPRI in
        (* Converting from Java semantics to Posix semantics. *)
        let timeout_millis := if timeout_millis <=? 0 then -1 else timeout_millis in
        let st := poll events0 timeout_millis a st in
        let result := poll_result (pa_outcome a) in
        let revents1 := poll_revents1 (pa_outcome a) in
        if result =? -1 then
          let (closed, st) := NetFd_isClosed (pa_closed_after a) st in
          if closed then Some (THROWN_EXCEPTION, revents1, st)
          else if negb (errno st =? EINTR) then Some (result, revents1, st)
          else sslSelect_poll rest type timeout_millis st
        else Some (result, revents1, st)
  end.

(** What the kernel answers to one read on the pipe. *)
Inductive read_outcome :=
| ReadOk
| ReadFail (e : Z).

(** read(appData->fdsEmergency[0], &token, 1) *)
Definition sys_read (o : read_outcome) (st : State) : State :=
  let st := log EvPipeRead st in
  match o with
  | ReadOk => set_pipe (Nat.pred (fdsEmergency (appData st))) st
  | ReadFail e => set_errno e st
  end.

(** The reads made once the script of answers is used up: the read end is
    non-blocking, so a read takes a token while there is one and fails
    with EAGAIN on the empty pipe.  [n] is the number of tokens left. *)
Fixpoint drain_pipe (n : nat) (st : State) : State :=
  match n with
  | O => sys_read (ReadFail EAGAIN) st
  | S n' =>
      let st' := sys_read ReadOk st in
      if errno st' =? EINTR then drain_pipe n' st' else st'
  end.

(** do { read(...) } while (errno == EINTR); errno is not reset. *)
Fixpoint sslSelect_drain (rs : list read_outcome) (st : State) : State :=
  match rs with
  | [] => drain_pipe (fdsEmergency (appData st)) st
  | o :: rs' =>
      let st' := sys_read o st in
      if errno st' =? EINTR then sslSelect_drain rs' st' else st'
  end.

Definition sslSelect (attempts : list poll_attempt) (rs : list read_outcome)
    (type timeout_millis : Z) (st : State) : option (Z * State) :=
  match sslSelect_poll attempts type timeout_millis st with
  | None => None
  | Some (result, revents1, st) =>
      (* UniqueMutex appDataLock(&appData->mutex); *)
      let st :=
        if (result >? 0) && negb (Z.land revents1 POLLIN =? 0)
        then sslSelect_drain rs st else st in
      let st := set_waiting (waitingThreads (appData st) - 1) st in
      Some (result, st)
  end.

(** ** The engine step shared by sslRead and sslWrite *)

(** What the engine answers to one SSL_read or SSL_write. *)
Record engine_step := mkStep {
  step_result : Z;       (* the value SSL_read / SSL_write returns *)
  step_error : Z;        (* SSL_get_error(ssl, result), asked when result <= 0 *)
  step_errno : Z;        (* errno when the call returns *)
  step_moved : bool;     (* BIO_number_read(rbio) + BIO_number_written(wbio) changed *)
  step_throws : bool;    (* a Java callback raised an exception during the call *)
  step_interrupt : bool  (* another thread interrupted the connection meanwhile *)
}.

(** One turn of the while loop of sslRead or sslWrite as the environment
    sees it: the three handshake predicates, the closed-check of
    setCallbackState, the engine step, and the answers to the calls of
    sslNotify and sslSelect should the turn make them. *)
Record iteration := mkIter {
  it_init_finished : bool;
  it_false_start : bool;
  it_renegotiate_pending : bool;
  it_fd_closed : bool;
  it_step : engine_step;
  it_notify : list write_outcome;
  it_polls : list poll_attempt;
  it_drain : list read_outcome
}.

(** How one turn of a loop ends: with the next turn, with a return from
    the function, or parked in poll for good. *)
Inductive flow (A : Type) :=
| Continue (a : A)
| Return (r : Z) (st : State)
| Blocked.
Arguments Continue {A} a.
Arguments Return {A} r st.
Arguments Blocked {A}.

(** How a while loop ends: its condition fails, the body returns, or the
    script ends with the loop still running. *)
Inductive loop_result (A : Type) :=
| Exited (a : A)
| Returned (r : Z) (st : State)
| Pending.
Arguments Exited {A} a.
Arguments Returned {A} r st.
Arguments Pending {A}.

(** AppData::setCallbackState with a non-null fd. *)
Definition setCallbackState (closed : bool) (st : State) : bool * State :=
  let (c, st) := NetFd_isClosed closed st in
  if c then (false, st) else (true, set_callbackState true st).

Definition clearCallbackState (st : State) : State :=
  set_callbackState false st.

(** env->ExceptionCheck() *)
Definition ExceptionCheck (st : State) : bool :=
  match pending st with Some _ => true | None => false end.

Definition safeSslClear (st : State) : State := log EvSSL_clear st.

(** The effects of the engine call itself: errno, a callback's exception,
    an interrupt from another thread. *)
Definition engine_call (step : engine_step) (st : State) : State :=
  let st := set_errno (step_errno step) st in
  let st := if step_throws step then jniThrowException CallbackException st else st in
  concurrent_interrupt (step_interrupt step) st.

Definition SSL_read (step : engine_step) (len : Z) (st : State) : State :=
  engine_call step (log (EvSSL_read len (step_result step)) st).

Definition SSL_write (step : engine_step) (buf len : Z) (st : State) : State :=
  engine_call step (log (EvSSL_write buf len (step_result step)) st).

(** OpenSslError::reset *)
Definition OpenSslError_reset (step : engine_step) (returnCode : Z) (st : State) : State :=
  if returnCode <=? 0 then set_sslError (step_error step) st
  else set_sslError SSL_ERROR_NONE st.

Definition init_not_finished (it : iteration) : bool :=
  negb (it_init_finished it) && negb (it_false_start it)
  && negb (it_renegotiate_pending it).

(** The part of the loop body between the engine call and the switch:
    wake the other thread when data moved, and count this thread as a
    waiter when the engine wants the socket. *)
Definition after_step (it : iteration) (st : State) : State :=
  let st :=
    if step_moved (it_step it) && (waitingThreads (appData st) >? 0)
    then sslNotify (it_notify it) st else st in
  if (sslError st =? SSL_ERROR_WANT_READ) || (sslError st =? SSL_ERROR_WANT_WRITE)
  then set_waiting (waitingThreads (appData st) + 1) st
  else st.

(** The WANT_READ / WANT_WRITE case of the switch. *)
Definition wait_case {A : Type} (it : iteration) (timeout_millis : Z) (k : State -> A)
    (st : State) : flow A :=
  match sslSelect (it_polls it) (it_drain it) (sslError st) timeout_millis st with
  | None => Blocked
  | Some (selectResult, st) =>
      if selectResult =? THROWN_EXCEPTION then Return THROWN_EXCEPTION st
      else if selectResult =? -1 then Return THROW_SSLEXCEPTION st
      else if selectResult =? 0 then Return THROW_SOCKETTIMEOUTEXCEPTION st
      else Continue (k st)
  end.

(** The SSL_ERROR_SYSCALL case, falling through to the default. *)
Definition syscall_case {A : Type} (result : Z) (k : State -> A) (st : State) : flow A :=
  if result =? 0 then Return (-1) st
  else if errno st =? EINTR then Continue (k st)
  else Return THROW_SSLEXCEPTION st.

(** ** sslRead (lines 8203-8330) *)

Definition sslRead_body (it : iteration) (len read_timeout_millis : Z) (st : State)
  : flow State :=
  let st := set_errno 0 st in
  (* UniqueMutex appDataLock(&appData->mutex); *)
  if init_not_finished it then Return THROW_SSLEXCEPTION st
  else
    let (ok, st) := setCallbackState (it_fd_closed it) st in
    if negb ok then Return THROWN_EXCEPTION st
    else
      let result := step_result (it_step it) in
      let st := SSL_read (it_step it) len st in
      let st := clearCallbackState st in
      if ExceptionCheck st then Return THROWN_EXCEPTION (safeSslClear st)
      else
        let st := OpenSslError_reset (it_step it) result st in
        let st := after_step it st in
        (* appDataLock.unlock(); *)
        let code := sslError st in
        if code =? SSL_ERROR_NONE then Return result st
        else if code =? SSL_ERROR_ZERO_RETURN then Return (-1) st
        else if (code =? SSL_ERROR_WANT_READ) || (code =? SSL_ERROR_WANT_WRITE)
        then wait_case it read_timeout_millis (fun s => s) st
        else if code =? SSL_ERROR_SYSCALL then syscall_case result (fun s => s) st
        else Return THROW_SSLEXCEPTION st.

Fixpoint sslRead_loop (script : list iteration) (len read_timeout_millis : Z)
    (st : State) : loop_result State :=
  if negb (aliveAndKicking (appData st) =? 0) then
    match script with
    | [] => Pending
    | it :: rest =>
        match sslRead_body it len read_timeout_millis st with
        | Continue st' => sslRead_loop rest len read_timeout_millis st'
        | Return r st' => Returned r st'
        | Blocked => Pending
        end
    end
  else Exited st.

(** [None] when the script ends before the function returns. *)
Definition sslRead (script : list iteration) (ssl : SSL) (len read_timeout_millis : Z)
    (st : State) : option (Z * State) :=
  if len =? 0 then Some (0, st)
  else if negb (app_data ssl) then Some (THROW_SSLEXCEPTION, st)
  else
    match sslRead_loop script len read_timeout_millis st with
    | Exited st => Some (-1, st)
    | Returned r st => Some (r, st)
    | Pending => None
    end.

(** ** sslWrite (lines 8392-8530) *)

(** [buf] is the offset of the pointer from the start of the caller's
    buffer. *)
Definition sslWrite_body (it : iteration) (buf len write_timeout_millis : Z) (st : State)
  : flow (Z * Z * State) :=
  let st := set_errno 0 st in
  (* UniqueMutex appDataLock(&appData->mutex); *)
  if init_not_finished it then Return THROW_SSLEXCEPTION st
  else
    let (ok, st) := setCallbackState (it_fd_closed it) st in
    if negb ok then Return THROWN_EXCEPTION st
    else
      let result := step_result (it_step it) in
      let st := SSL_write (it_step it) buf len st in
      let st := clearCallbackState st in
      if ExceptionCheck st then Return THROWN_EXCEPTION (safeSslClear st)
      else
        let st := OpenSslError_reset (it_step it) result st in
        let st := after_step it st in
        (* appDataLock.unlock(); *)
        let code := sslError st in
        if code =? SSL_ERROR_NONE then Continue (buf + result, len - result, st)
        else if code =? SSL_ERROR_ZERO_RETURN then Return (-1) st
        else if (code =? SSL_ERROR_WANT_READ) || (code =? SSL_ERROR_WANT_WRITE)
        then wait_case it write_timeout_millis (fun s => (buf, len, s)) st
        else if code =? SSL_ERROR_SYSCALL
        then syscall_case result (fun s => (buf, len, s)) st
        else Return THROW_SSLEXCEPTION st.

Fixpoint sslWrite_loop (script : list iteration) (buf len write_timeout_millis : Z)
    (st : State) : loop_result (Z * Z * State) :=
  if negb (aliveAndKicking (appData st) =? 0) && (len >? 0) then
    match script with
    | [] => Pending
    | it :: rest =>
        match sslWrite_body it buf len write_timeout_millis st with
        | Continue (buf', len', st') => sslWrite_loop rest buf' len' write_timeout_millis st'
        | Return r st' => Returned r st'
        | Blocked => Pending
        end
    end
  else Exited (buf, len, st).

Definition sslWrite (script : list iteration) (ssl : SSL) (len write_timeout_millis : Z)
    (st : State) : option (Z * State) :=
  if len =? 0 then Some (0, st)
  else if negb (app_data ssl) then Some (THROW_SSLEXCEPTION, st)
  else
    let count := len in
    match sslWrite_loop script 0 len write_timeout_millis st with
    | Exited (_, _, st) => Some (count, st)
    | Returned r st => Some (r, st)
    | Pending => None
    end.

(** ** The JNI entry points *)

Definition throwSSLExceptionStr (st : State) : State :=
  jniThrowException SSLException st.
Definition throwSSLHandshakeExceptionStr (st : State) : State :=
  jniThrowException SSLHandshakeException st.
Definition throwSSLProtocolExceptionStr (st : State) : State :=
  jniThrowException SSLProtocolException st.

(** throwSSLExceptionWithSslErrors (lines 513-621): an
    SSLProtocolException for SSL_ERROR_SSL, [actualThrow] otherwise and
    when the message cannot be allocated ([asprintf_fails]). *)
Definition throwSSLExceptionWithSslErrors (asprintf_fails : bool) (sslErrorCode : Z)
    (actualThrow : State -> State) (st : State) : State :=
  if asprintf_fails then actualThrow st
  else if sslErrorCode =? SSL_ERROR_SSL then throwSSLProtocolExceptionStr st
  else actualThrow st.

Definition throwSocketTimeoutException (st : State) : State :=
  jniThrowException SocketTimeoutException st.

(** The null checks the entry points of read and write share; the
    booleans tell whether the reference is non-null.  A null byte array
    makes ScopedByteArrayRW / ScopedByteArrayRO throw. *)
Definition check_arguments (ssl_address : option SSL) (fdObject shc b : bool) (st : State)
  : option SSL * State :=
  match to_SSL ssl_address true st with
  | (None, st) => (None, st)
  | (Some ssl, st) =>
      if negb fdObject then (None, jniThrowException NullPointerException st)
      else if negb shc then (None, jniThrowException NullPointerException st)
      else if negb b then (None, jniThrowException NullPointerException st)
      else (Some ssl, st)
  end.

(** NativeCrypto_SSL_read (lines 8336-8390): the value returned to Java
    and the final state, whose [pending] is the exception Java sees. *)
Definition NativeCrypto_SSL_read (script : list iteration) (asprintf_fails : bool)
    (ssl_address : option SSL) (fdObject shc b : bool) (len read_timeout_millis : Z)
    (st : State) : option (Z * State) :=
  match check_arguments ssl_address fdObject shc b st with
  | (None, st) => Some (0, st)
  | (Some ssl, st) =>
      let st := set_sslError SSL_ERROR_NONE st in
      match sslRead script ssl len read_timeout_millis st with
      | None => None
      | Some (ret, st) =>
          if ret =? THROW_SSLEXCEPTION
          then Some (-1, throwSSLExceptionWithSslErrors asprintf_fails (sslError st)
                       throwSSLExceptionStr st)
          else if ret =? THROW_SOCKETTIMEOUTEXCEPTION
          then Some (-1, throwSocketTimeoutException st)
          else if ret =? THROWN_EXCEPTION then Some (-1, st)
          else Some (ret, st)
      end
  end.

(** NativeCrypto_SSL_write (lines 8535-8580), a void method: the final
    state only. *)
Definition NativeCrypto_SSL_write (script : list iteration) (asprintf_fails : bool)
    (ssl_address : option SSL) (fdObject shc b : bool) (len write_timeout_millis : Z)
    (st : State) : option State :=
  match check_arguments ssl_address fdObject shc b st with
  | (None, st) => Some st
  | (Some ssl, st) =>
      let st := set_sslError SSL_ERROR_NONE st in
      match sslWrite script ssl len write_timeout_millis st with
      | None => None
      | Some (ret, st) =>
          if ret =? THROW_SSLEXCEPTION
          then Some (throwSSLExceptionWithSslErrors asprintf_fails (sslError st)
                       throwSSLExceptionStr st)
          else if ret =? THROW_SOCKETTIMEOUTEXCEPTION
          then Some (throwSocketTimeoutException st)
          else if ret =? THROWN_EXCEPTION then Some st
          else Some st
      end
  end.

(** ** NativeCrypto_SSL_do_handshake (lines 7889-8051) *)

(** What the environment answers before the loop: the closed-check of the
    descriptor, SSL_set_fd and setBlocking. *)
Record handshake_setup := mkSetup {
  hs_fd_closed : bool;
  hs_set_fd : Z;
  hs_setBlocking : bool
}.

(** How one turn of the handshake loop ends: with the next turn, with a
    break out of the loop, with a return of 0, or parked in poll. *)
Inductive hs_flow :=
| HsContinue (ret : Z) (st : State)
| HsBreak (ret : Z) (st : State)
| HsReturn (st : State)
| HsBlocked.

(** How the handshake loop ends. *)
Inductive hs_result :=
| HsLeft (ret : Z) (st : State)      (* by break or by the flag *)
| HsReturned (st : State)            (* return 0 from inside *)
| HsPending.

Definition SSL_do_handshake (step : engine_step) (st : State) : State :=
  engine_call step (log (EvSSL_do_handshake (step_result step)) st).

Definition handshake_body (it : iteration) (af : bool) (timeout_millis : Z) (st : State)
  : hs_flow :=
  let st := set_errno 0 st in
  let (ok, st) := setCallbackState (it_fd_closed it) st in
  if negb ok then HsReturn (safeSslClear st)
  else
    let ret := step_result (it_step it) in
    let st := SSL_do_handshake (it_step it) st in
    let st := clearCallbackState st in
    if ExceptionCheck st then HsReturn (safeSslClear st)
    else if ret =? 1 then HsBreak ret st
    else if errno st =? EINTR then HsContinue ret st
    else
      let st := OpenSslError_reset (it_step it) ret st in
      if (sslError st =? SSL_ERROR_WANT_READ) || (sslError st =? SSL_ERROR_WANT_WRITE) then
        let st := set_waiting (waitingThreads (appData st) + 1) st in
        match sslSelect (it_polls it) (it_drain it) (sslError st) timeout_millis st with
        | None => HsBlocked
        | Some (selectResult, st) =>
            if selectResult =? THROWN_EXCEPTION then HsReturn (safeSslClear st)
            else if selectResult =? -1 then
              HsReturn (safeSslClear
                (throwSSLExceptionWithSslErrors af SSL_ERROR_SYSCALL
                   throwSSLHandshakeExceptionStr st))
            else if selectResult =? 0 then
              HsReturn (safeSslClear (throwSocketTimeoutException st))
            else HsContinue ret st
        end
      else HsBreak ret st.

Fixpoint handshake_loop (script : list iteration) (af : bool) (timeout_millis ret : Z)
    (st : State) : hs_result :=
  if negb (aliveAndKicking (appData st) =? 0) then
    match script with
    | [] => HsPending
    | it :: rest =>
        match handshake_body it af timeout_millis st with
        | HsContinue ret' st' => handshake_loop rest af timeout_millis ret' st'
        | HsBreak ret' st' => HsLeft ret' st'
        | HsReturn st' => HsReturned st'
        | HsBlocked => HsPending
        end
    end
  else HsLeft ret st.

Definition NativeCrypto_SSL_do_handshake (setup : handshake_setup) (script : list iteration)
    (af : bool) (ssl_address : option SSL) (fdObject shc : bool) (timeout_millis : Z)
    (st : State) : option (Z * State) :=
  match to_SSL ssl_address true st with
  | (None, st) => Some (0, st)
  | (Some ssl, st) =>
      if negb fdObject then Some (0, jniThrowException NullPointerException st)
      else if negb shc then Some (0, jniThrowException NullPointerException st)
      else
        let (closed, st) := NetFd_isClosed (hs_fd_closed setup) st in
        if closed then Some (0, safeSslClear st)
        else
          let st := log (EvSSL_set_fd (hs_set_fd setup)) st in
          if negb (hs_set_fd setup =? 1) then
            Some (0, safeSslClear
                       (throwSSLExceptionWithSslErrors af SSL_ERROR_NONE
                          throwSSLExceptionStr st))
          else
            let st := log (EvSetBlocking (hs_setBlocking setup)) st in
            if negb (hs_setBlocking setup) then
              Some (0, safeSslClear (throwSSLExceptionStr st))
            else if negb (app_data ssl) then
              Some (0, safeSslClear (throwSSLExceptionStr st))
            else
              let st := set_sslError SSL_ERROR_NONE st in
              match handshake_loop script af timeout_millis 0 st with
              | HsPending => None
              | HsReturned st => Some (0, st)
              | HsLeft ret st =>
                  if ret =? 0 then
                    let st :=
                      if (sslError st =? SSL_ERROR_NONE)
                         || ((sslError st =? SSL_ERROR_SYSCALL) && (errno st =? 0))
                         || (sslError st =? SSL_ERROR_ZERO_RETURN)
                      then throwSSLHandshakeExceptionStr st
                      else throwSSLExceptionWithSslErrors af (sslError st)
                             throwSSLHandshakeExceptionStr st in
                    Some (0, safeSslClear st)
                  else if ret <? 0 then
                    Some (0, safeSslClear
                               (throwSSLExceptionWithSslErrors af (sslError st)
                                  throwSSLHandshakeExceptionStr st))
                  else Some (ret, st)
              end
  end.

(** * Vocabulary of the properties *)

(** The number of leading writes of a script that fail with EINTR. *)
Fixpoint eintr_prefix (ws : list write_outcome) : nat :=
  match ws with
  | WriteFail e :: ws' => if e =? EINTR then S (eintr_prefix ws') else O
  | _ => O
  end.

(** The first answer of a script that is not an EINTR failure. *)
Definition settled (ws : list write_outcome) : write_outcome :=
  nth (eintr_prefix ws) ws WriteOk.

Definition tokens_of (o : write_outcome) : nat :=
  match o with WriteOk => 1%nat | WriteFail _ => 0%nat end.

(** The fields of the state a call leaves alone apart from the pipe, the
    log and errno. *)
Definition same_flags (st st' : State) : Prop :=
  aliveAndKicking (appData st') = aliveAndKicking (appData st)
  /\ waitingThreads (appData st') = waitingThreads (appData st)
  /\ callbackState (appData st') = callbackState (appData st)
  /\ pending st' = pending st
  /\ sslError st' = sslError st.


(** The timeout handed to poll for a Java timeout [t]. *)
Definition posix_timeout (t : Z) : Z := if t <=? 0 then -1 else t.

(** An attempt after which sslSelect polls again: poll failed with EINTR
    and the descriptor was open before and after. *)
Definition poll_retries (a : poll_attempt) : bool :=
  negb (pa_closed_before a)
  && match pa_outcome a with
     | PollFail e => negb (pa_closed_after a) && (e =? EINTR)
     | Polled _ _ => false
     end.

(** The number of polls sslSelect makes on a script. *)
Fixpoint polls_made (attempts : list poll_attempt) : nat :=
  match attempts with
  | [] => O
  | a :: rest =>
      if pa_closed_before a then O
      else if poll_retries a then S (polls_made rest) else 1%nat
  end.

(** The timeouts of the polls of a log, most recent first. *)
Fixpoint poll_timeouts (tr : list event) : list Z :=
  match tr with
  | [] => []
  | EvPoll _ _ t :: tr' => t :: poll_timeouts tr'
  | _ :: tr' => poll_timeouts tr'
  end.

(** The script lets sslSelect return: some attempt is not a retry. *)
Definition select_returns (attempts : list poll_attempt) : bool :=
  existsb (fun a => negb (poll_retries a)) attempts.

(** What the drain of the pipe leaves alone. *)
Definition drain_frame (st st' : State) : Prop :=
  waitingThreads (appData st') = waitingThreads (appData st)
  /\ poll_timeouts (trace st') = poll_timeouts (trace st)
  /\ aliveAndKicking (appData st') = aliveAndKicking (appData st)
  /\ pending st' = pending st
  /\ sslError st' = sslError st
  /\ callbackState (appData st') = callbackState (appData st).

(** The engine wants the socket: the step ends in a readiness wait. *)
Definition wants_io (code : Z) : bool :=
  (code =? SSL_ERROR_WANT_READ) || (code =? SSL_ERROR_WANT_WRITE).

(** The state of a thread's outcome, whatever the outcome is. *)
Definition flow_waiting {A : Type} (w : A -> Z) (f : flow A) (before : Z) : Prop :=
  match f with
  | Continue a => w a = before
  | Return _ st => waitingThreads (appData st) = before
  | Blocked => True
  end.

Definition loop_waiting {A : Type} (w : A -> Z) (l : loop_result A) (before : Z) : Prop :=
  match l with
  | Exited a => w a = before
  | Returned _ st => waitingThreads (appData st) = before
  | Pending => True
  end.

Definition waiting_of (st : State) : Z := waitingThreads (appData st).
Definition waiting_of3 (x : Z * Z * State) : Z := waitingThreads (appData (snd x)).

(** A turn that gets as far as the engine's answer: the handshake state
    lets it pass, the descriptor is open and no callback throws. *)
Definition reaches_engine (it : iteration) : bool :=
  negb (init_not_finished it) && negb (it_fd_closed it)
  && negb (step_throws (it_step it)).

(** The error code the engine reports for a step, as OpenSslError holds
    it after reset. *)
Definition reported (step : engine_step) : Z :=
  if step_result step <=? 0 then step_error step else SSL_ERROR_NONE.

(** Clean end of stream: zero-return, or a syscall error with result 0. *)
Definition clean_eof (step : engine_step) : bool :=
  (reported step =? SSL_ERROR_ZERO_RETURN)
  || ((reported step =? SSL_ERROR_SYSCALL) && (step_result step =? 0)).

(** A fatal report: an error that is neither end of stream, nor a wish
    for the socket, nor an interrupted system call. *)
Definition fatal (step : engine_step) : bool :=
  negb (reported step =? SSL_ERROR_NONE)
  && negb (reported step =? SSL_ERROR_ZERO_RETURN)
  && negb (wants_io (reported step))
  && (negb (reported step =? SSL_ERROR_SYSCALL)
      || (negb (step_result step =? 0) && negb (step_errno step =? EINTR))).

(** The state at the switch of a turn that reaches the engine's answer;
    [ev] is the engine call. *)
Definition stepped (it : iteration) (ev : event) (st : State) : State :=
  after_step it
    (OpenSslError_reset (it_step it) (step_result (it_step it))
       (clearCallbackState
          (engine_call (it_step it)
             (log ev (set_callbackState true (set_errno 0 st)))))).

(** The state after the turns of [script], when each of them finds the
    connection alive and ends by going round the loop again. *)
Fixpoint sslRead_turns (script : list iteration) (len t : Z) (st : State) : option State :=
  match script with
  | [] => Some st
  | it :: rest =>
      if aliveAndKicking (appData st) =? 0 then None
      else match sslRead_body it len t st with
           | Continue st' => sslRead_turns rest len t st'
           | _ => None
           end
  end.

(** The same for the write loop: the pointer, the length left and the
    state after the turns of [script]. *)
Fixpoint sslWrite_turns (script : list iteration) (buf len t : Z) (st : State)
  : option (Z * Z * State) :=
  match script with
  | [] => Some (buf, len, st)
  | it :: rest =>
      if negb (aliveAndKicking (appData st) =? 0) && (len >? 0) then
        match sslWrite_body it buf len t st with
        | Continue (buf', len', st') => sslWrite_turns rest buf' len' t st'
        | _ => None
        end
      else None
  end.

(** The value a call returns and the exception it leaves pending. *)
Definition returned (o : option (Z * State)) : option Z := option_map fst o.
Definition raised (o : option (Z * State)) : option (option jthrowable) :=
  option_map (fun p => pending (snd p)) o.
Definition raised_by (o : option State) : option (option jthrowable) :=
  option_map pending o.

(** ** Concrete connections and scripts *)

(** The connection as AppData::create leaves it, on a thread with nothing
    pending. *)
Definition fresh : State :=
  mkState (mkAppData 1 0 0 false) 0 None SSL_ERROR_NONE [].

Definition attached : option SSL := Some (mkSSL true).

(** A turn with the handshake finished and the descriptor open. *)
Definition turn (step : engine_step) (polls : list poll_attempt) : iteration :=
  mkIter true false false false step [] polls [].

(** The engine moves [n] bytes. *)
Definition moves (n : Z) : engine_step := mkStep n SSL_ERROR_NONE 0 true false false.

(** The engine cannot go on before the socket is ready for [code]. *)
Definition would_block (code : Z) : engine_step := mkStep (-1) code EAGAIN false false false.

(** The engine reports [code] with return value [result]. *)
Definition reports (result code e : Z) : engine_step := mkStep result code e false false false.

(** The socket becomes ready. *)
Definition socket_ready : poll_attempt := mkPoll false (Polled POLLIN 0) false false.

(** Another thread interrupts the connection while this one is parked in
    poll, which returns with the pipe readable. *)
Definition woken_by_interrupt : poll_attempt := mkPoll false (Polled 0 POLLIN) false true.

(** A read that blocks and is interrupted by another thread. *)
Definition interrupted_read : list iteration :=
  [turn (would_block SSL_ERROR_WANT_READ) [woken_by_interrupt]].

(** A write of ten bytes: four are accepted, then the engine blocks and
    another thread interrupts. *)
Definition interrupted_write : list iteration :=
  [turn (moves 4) []; turn (would_block SSL_ERROR_WANT_WRITE) [woken_by_interrupt]].

(** The peer has closed the connection cleanly. *)
Definition peer_closed : list iteration :=
  [turn (reports 0 SSL_ERROR_ZERO_RETURN 0) []].

(** The handshake has not been done. *)
Definition unfinished : iteration := mkIter false false false false (moves 1) [] [] [].
Definition before_handshake : list iteration := [unfinished].

(** The state in which the interrupted read leaves its loop. *)
Definition interrupted_read_end : State :=
  Eval vm_compute in
    match sslRead_loop interrupted_read 16 0 fresh with
    | Exited st1 => st1
    | _ => fresh
    end.

(** A read that waits for the socket once, and the state in which it
    comes to its second turn. *)
Definition waited_once : list iteration :=
  [turn (would_block SSL_ERROR_WANT_READ) [socket_ready]].

Definition after_wait : State :=
  Eval vm_compute in
    match sslRead_turns waited_once 16 0 (set_sslError SSL_ERROR_NONE fresh) with
    | Some st1 => st1
    | None => fresh
    end.

Definition eof_turn : iteration := turn (reports 0 SSL_ERROR_ZERO_RETURN 0) [].
Definition fatal_turn : iteration := turn (reports (-1) SSL_ERROR_SSL 0) [].

(** Successive calls of NativeCrypto_SSL_interrupt, each with the answers
    to the writes of its two sslNotify. *)
Fixpoint interrupt_calls (calls : list (list write_outcome * list write_outcome))
    (ssl_address : option SSL) (st : State) : State :=
  match calls with
  | [] => st
  | (ws1, ws2) :: rest =>
      interrupt_calls rest ssl_address (NativeCrypto_SSL_interrupt ws1 ws2 ssl_address st)
  end.

(** The tokens the calls put in the pipe and the writes they make. *)
Fixpoint tokens_written (calls : list (list write_outcome * list write_outcome)) : nat :=
  match calls with
  | [] => O
  | (ws1, ws2) :: rest =>
      (tokens_of (settled ws1) + tokens_of (settled ws2) + tokens_written rest)%nat
  end.

Fixpoint writes_made (calls : list (list write_outcome * list write_outcome)) : nat :=
  match calls with
  | [] => O
  | (ws1, ws2) :: rest =>
      (writes_made rest + (S (eintr_prefix ws2) + S (eintr_prefix ws1)))%nat
  end.

(** The same calls on the pipe as the kernel keeps it: [None] as soon as
    one of them does not return. *)
Fixpoint interrupt_calls_blocking (capacity : nat)
    (calls : list (list write_outcome * list write_outcome))
    (ssl_address : option SSL) (st : State) : option State :=
  match calls with
  | [] => Some st
  | (ws1, ws2) :: rest =>
      match NativeCrypto_SSL_interrupt_blocking capacity ws1 ws2 ssl_address st with
      | None => None
      | Some st' => interrupt_calls_blocking capacity rest ssl_address st'
      end
  end.

(** The pipe has room for [tokens] more bytes. *)
Definition has_room (capacity : nat) (st : State) (tokens : nat) : bool :=
  (fdsEmergency (appData st) + tokens <=? capacity)%nat.

(** The capacity of a pipe on Linux unless it is changed: sixteen pages
    of 4096 bytes. *)
Definition DEFAULT_PIPE_CAPACITY : nat := Z.to_nat 65536.

(** A connection on which NativeCrypto_SSL_interrupt has been called
    32768 times while no thread was waiting. *)
Definition interrupted_32768_times : option State :=
  interrupt_calls_blocking DEFAULT_PIPE_CAPACITY (repeat ([], []) (Z.to_nat 32768))
    attached fresh.

(** The waiter count at the end of a turn of the handshake and at the end
    of its loop. *)
Definition hs_flow_waiting (f : hs_flow) (before : Z) : Prop :=
  match f with
  | HsContinue _ st | HsBreak _ st | HsReturn st => waitingThreads (appData st) = before
  | HsBlocked => True
  end.

Definition hs_result_waiting (r : hs_result) (before : Z) : Prop :=
  match r with
  | HsLeft _ st | HsReturned st => waitingThreads (appData st) = before
  | HsPending => True
  end.

(** A wait in which poll is interrupted by a signal once and then times
    out, entered by a thread that has counted itself as a waiter. *)
Definition eintr_then_timeout : list poll_attempt :=
  [mkPoll false (PollFail EINTR) false false; mkPoll false (Polled 0 0) false false].

Definition one_waiter : State := set_waiting 1 fresh.

(** The waiter count a call of sslSelect leaves. *)
Definition waiting_after (o : option (Z * State)) : option Z :=
  option_map (fun p => waitingThreads (appData (snd p))) o.

(** The timeouts of the polls a call of sslSelect has made. *)
Definition timeouts_after (o : option (Z * State)) : option (list Z) :=
  option_map (fun p => poll_timeouts (trace (snd p))) o.

(** ** Vocabulary of partial writes *)







(** SSL_get_error answers SSL_ERROR_NONE only for a positive result. *)
Definition honest (it : iteration) : bool :=
  (0 <? step_result (it_step it))
  || negb (step_error (it_step it) =? SSL_ERROR_NONE).








(** * Further vocabulary *)

(** What the helpers of the read and write loops do to the two fields a
    caller must be able to rely on: they leave the callback state alone,
    and they leave the liveness flag alone or clear it. *)
Definition quiet (st st' : State) : Prop :=
  callbackState (appData st') = callbackState (appData st)
  /\ (aliveAndKicking (appData st') = aliveAndKicking (appData st)
      \/ aliveAndKicking (appData st') = 0).

(** What a whole operation does to them: a callback state that was clear
    is clear again, and the flag is as it was or cleared. *)
Definition tidy (st st' : State) : Prop :=
  (callbackState (appData st) = false -> callbackState (appData st') = false)
  /\ (aliveAndKicking (appData st') = aliveAndKicking (appData st)
      \/ aliveAndKicking (appData st') = 0).

Definition flow_tidy {A : Type} (s : A -> State) (f : flow A) (st : State) : Prop :=
  match f with
  | Continue a => tidy st (s a)
  | Return _ st' => tidy st st'
  | Blocked => True
  end.

Definition loop_tidy {A : Type} (s : A -> State) (l : loop_result A) (st : State) : Prop :=
  match l with
  | Exited a => tidy st (s a)
  | Returned _ st' => tidy st st'
  | Pending => True
  end.

Definition state_of3 (x : Z * Z * State) : State := snd x.

(** The descriptor is found closed by the second check of a wait. *)
Definition closed_during_poll : list poll_attempt :=
  [mkPoll false (PollFail EINTR) true false].

Definition closed_during_poll_end : State :=
  Eval vm_compute in
    match sslSelect closed_during_poll [] SSL_ERROR_WANT_READ 0 one_waiter with
    | Some (_, st') => st'
    | None => fresh
    end.

(** The state right after the engine call of an operation: the callback
    state has been cleared, the flag is as it was or cleared. *)
Definition cleared (st st' : State) : Prop :=
  callbackState (appData st') = false
  /\ (aliveAndKicking (appData st') = aliveAndKicking (appData st)
      \/ aliveAndKicking (appData st') = 0).

(** ** NativeCrypto_SSL_shutdown (lines 8609-8684) *)

(** What the environment answers during a shutdown: the closed-check of
    setCallbackState, SSL_get_fd, and the call of SSL_shutdown with the
    code SSL_get_error gives for its result. *)
Record shutdown_env := mkShutdown {
  sd_fd_closed : bool;
  sd_fd : Z;
  sd_step : engine_step
}.

(** The calls a shutdown makes besides those logged in the state, in the
    order they are made. *)
Inductive shutdown_call :=
| CallSetBlocking (fd : Z) (blocking : bool)
| CallSSL_shutdown (result : Z).

Definition NativeCrypto_SSL_shutdown (env : shutdown_env) (asprintf_fails : bool)
    (ssl_address : option SSL) (fdObject shc : bool) (st : State)
  : State * list shutdown_call :=
  match to_SSL ssl_address false st with
  | (None, st) => (st, [])
  | (Some ssl, st) =>
      if negb fdObject then (jniThrowException NullPointerException st, [])
      else if negb shc then (jniThrowException NullPointerException st, [])
      else if app_data ssl then
        let (ok, st) := setCallbackState (sd_fd_closed env) st in
        if negb ok then (safeSslClear st, [])
        else
          (* Try to make socket blocking again. *)
          let calls1 :=
            if negb (sd_fd env =? -1) then [CallSetBlocking (sd_fd env) true] else [] in
          let ret := step_result (sd_step env) in
          let calls := calls1 ++ [CallSSL_shutdown ret] in
          let st := engine_call (sd_step env) st in
          let st := clearCallbackState st in
          if ExceptionCheck st then (safeSslClear st, calls)
          else
            let st :=
              if ret =? 0 then st
              else if ret =? 1 then st
              else throwSSLExceptionWithSslErrors asprintf_fails (step_error (sd_step env))
                     throwSSLExceptionStr st in
            (safeSslClear st, calls)
      else (safeSslClear st, [])
  end.

(** The number of calls of SSL_shutdown among the calls of a shutdown. *)
Fixpoint shutdown_steps (calls : list shutdown_call) : nat :=
  match calls with
  | [] => O
  | CallSSL_shutdown _ :: calls' => S (shutdown_steps calls')
  | _ :: calls' => shutdown_steps calls'
  end.

(** The peer has not answered the close-notify yet. *)
Definition shutdown_not_complete : shutdown_env :=
  mkShutdown false 7 (reports 0 SSL_ERROR_SYSCALL 0).

(** What a turn of the handshake and its loop do to the liveness flag and
    the callback state. *)
Definition hs_flow_tidy (f : hs_flow) (st : State) : Prop :=
  match f with
  | HsContinue _ st' | HsBreak _ st' | HsReturn st' => tidy st st'
  | HsBlocked => True
  end.

Definition hs_result_tidy (r : hs_result) (st : State) : Prop :=
  match r with
  | HsLeft _ st' | HsReturned st' => tidy st st'
  | HsPending => True
  end.

(** A handshake that completes in its second step, after one wait. *)
Definition handshake_in_two_steps : list iteration :=
  [turn (would_block SSL_ERROR_WANT_READ) [socket_ready]; turn (reports 1 0 0) []].

Definition good_setup : handshake_setup := mkSetup false 1 true.

(** ** A thread's calls on a connection *)

(** The entry points modelled here, each with the answers the
    environment gives during the call. *)
Inductive jni_call :=
| Call_do_handshake (setup : handshake_setup) (script : list iteration) (af : bool)
    (ssl_address : option SSL) (fdObject shc : bool) (timeout_millis : Z)
| Call_read (script : list iteration) (af : bool)
    (ssl_address : option SSL) (fdObject shc b : bool) (len read_timeout_millis : Z)
| Call_write (script : list iteration) (af : bool)
    (ssl_address : option SSL) (fdObject shc b : bool) (len write_timeout_millis : Z)
| Call_interrupt (ws1 ws2 : list write_outcome) (ssl_address : option SSL)
| Call_shutdown (env : shutdown_env) (af : bool)
    (ssl_address : option SSL) (fdObject shc : bool).

Definition run_call (c : jni_call) (st : State) : option State :=
  match c with
  | Call_do_handshake setup script af ssl fdObject shc t =>
      option_map snd (NativeCrypto_SSL_do_handshake setup script af ssl fdObject shc t st)
  | Call_read script af ssl fdObject shc b len t =>
      option_map snd (NativeCrypto_SSL_read script af ssl fdObject shc b len t st)
  | Call_write script af ssl fdObject shc b len t =>
      NativeCrypto_SSL_write script af ssl fdObject shc b len t st
  | Call_interrupt ws1 ws2 ssl => Some (NativeCrypto_SSL_interrupt ws1 ws2 ssl st)
  | Call_shutdown env af ssl fdObject shc =>
      Some (fst (NativeCrypto_SSL_shutdown env af ssl fdObject shc st))
  end.

(** The calls of [cs] one after the other.  When a native method returns
    with an exception pending the JVM raises it in the Java caller, so the
    next call starts with none. *)
Fixpoint run_calls (cs : list jni_call) (st : State) : option State :=
  match cs with
  | [] => Some st
  | c :: rest =>
      match run_call c st with
      | Some st' => run_calls rest (set_pending None st')
      | None => None
      end
  end.

(** A handshake, a read that another thread interrupts, a write attempt
    and the shutdown. *)
Definition a_session : list jni_call :=
  [Call_do_handshake good_setup handshake_in_two_steps false attached true true 0;
   Call_read interrupted_read false attached true true true 16 0;
   Call_write [] false attached true true true 10 0;
   Call_shutdown shutdown_not_complete false attached true true].

Definition a_session_end : State :=
  Eval vm_compute in
    match run_calls a_session fresh with Some st' => st' | None => fresh end.

(** ** Vocabulary of results *)

(** The values the engine returns in the turns of a script. *)
Definition step_results (script : list iteration) : list Z :=
  map (fun it => step_result (it_step it)) script.

(** How sslRead's result and the pending exception go together: the
    bytes of a step, end of stream, or one of the three internal codes,
    of which only THROWN_EXCEPTION comes with an exception pending. *)
Definition read_verdict (script : list iteration) (r : Z) (st' : State) : Prop :=
  (0 < r /\ In r (step_results script) /\ pending st' = None)
  \/ (r = -1 /\ pending st' = None)
  \/ (r = THROW_SSLEXCEPTION /\ pending st' = None)
  \/ (r = THROW_SOCKETTIMEOUTEXCEPTION /\ pending st' = None)
  \/ (r = THROWN_EXCEPTION /\ pending st' <> None).

(** A read of sixteen bytes that gets five after one wait. *)
Definition read_after_wait : list iteration :=
  [turn (would_block SSL_ERROR_WANT_READ) [socket_ready]; turn (moves 5) []].

Definition read_after_wait_end : State :=
  Eval vm_compute in
    match NativeCrypto_SSL_read read_after_wait false attached true true true 16 0 fresh with
    | Some (_, st') => st'
    | None => fresh
    end.

Definition handshake_in_two_steps_end : State :=
  Eval vm_compute in
    match NativeCrypto_SSL_do_handshake good_setup handshake_in_two_steps false attached
            true true 0 fresh with
    | Some (_, st') => st'
    | None => fresh
    end.

(** The exception state at the end of a turn of the handshake and at the
    end of its loop: none while the loop goes on or is left, one when the
    function returns from inside. *)
Definition hs_flow_raised (f : hs_flow) : Prop :=
  match f with
  | HsContinue _ st | HsBreak _ st => pending st = None
  | HsReturn st => pending st <> None
  | HsBlocked => True
  end.

Definition hs_result_raised (r : hs_result) : Prop :=
  match r with
  | HsLeft _ st => pending st = None
  | HsReturned st => pending st <> None
  | HsPending => True
  end.

(** A handshake in which a poll times out. *)
Definition poll_times_out : poll_attempt := mkPoll false (Polled 0 0) false false.

Definition handshake_times_out : list iteration :=
  [turn (would_block SSL_ERROR_WANT_READ) [poll_times_out]].

(** ** Vocabulary of timeouts *)

(** The wait ends with a poll that reports no descriptor ready: every
    earlier poll was interrupted by a signal and retried. *)
Fixpoint times_out (attempts : list poll_attempt) : bool :=
  match attempts with
  | [] => false
  | a :: rest =>
      if poll_retries a then times_out rest
      else negb (pa_closed_before a)
           && match pa_outcome a with
              | Polled r0 r1 => (r0 =? 0) && (r1 =? 0)
              | PollFail _ => false
              end
  end.

(** A turn in which the engine wants to read and the wait, interrupted
    once by a signal, times out. *)
Definition timed_out_turn (code : Z) : iteration :=
  turn (would_block code) eintr_then_timeout.

(** Four bytes of a write are accepted before the engine blocks. *)
Definition four_accepted : list iteration := [turn (moves 4) []].

Definition after_four : State :=
  Eval vm_compute in
    match sslWrite_turns four_accepted 0 10 250 (set_sslError SSL_ERROR_NONE fresh) with
    | Some (_, _, st1) => st1
    | None => fresh
    end.

Definition after_wait250 : State :=
  Eval vm_compute in
    match sslRead_turns waited_once 16 250 (set_sslError SSL_ERROR_NONE fresh) with
    | Some st1 => st1
    | None => fresh
    end.

(** ** Vocabulary of the shutdown *)

(** The ways a shutdown with non-null arguments fails: the connection has
    its AppData and the descriptor is closed, or a callback throws during
    SSL_shutdown, or SSL_shutdown returns something other than 0 and 1. *)
Definition shutdown_fails (env : shutdown_env) (ssl : SSL) : bool :=
  app_data ssl
  && (sd_fd_closed env
      || step_throws (sd_step env)
      || negb ((step_result (sd_step env) =? 0) || (step_result (sd_step env) =? 1))).

(** ** Vocabulary of the emergency pipe *)

(** The writes to and the reads from the pipe in a log. *)
Fixpoint pipe_writes (tr : list event) : nat :=
  match tr with
  | [] => O
  | EvPipeWrite :: tr' => S (pipe_writes tr')
  | _ :: tr' => pipe_writes tr'
  end.

Fixpoint pipe_reads (tr : list event) : nat :=
  match tr with
  | [] => O
  | EvPipeRead :: tr' => S (pipe_reads tr')
  | _ :: tr' => pipe_reads tr'
  end.

(** No other thread interrupts the connection during the wait, or during
    the turn. *)
Definition undisturbed_wait (attempts : list poll_attempt) : bool :=
  forallb (fun a => negb (pa_interrupt a)) attempts.

Definition undisturbed (it : iteration) : bool :=
  negb (step_interrupt (it_step it)) && undisturbed_wait (it_polls it).




(** The step of the turn moves no data. *)
Definition still (it : iteration) : bool := negb (step_moved (it_step it)).

(** The writes on the pipe that the sslNotify of a turn makes when the
    turn gets to it in state [st]: those of one call when the step moved
    data while a thread is counted as waiting, none otherwise. *)
Definition wakeup_writes (it : iteration) (st : State) : nat :=
  if step_moved (it_step it) && (waitingThreads (appData st) >? 0)
  then S (eintr_prefix (it_notify it)) else O.

(** The engine blocks twice before the socket is ready, moving nothing,
    and then reports the end of the stream. *)
Definition two_waits : list iteration :=
  [turn (would_block SSL_ERROR_WANT_READ) [socket_ready];
   turn (would_block SSL_ERROR_WANT_READ) [socket_ready];
   turn (reports 0 SSL_ERROR_ZERO_RETURN 0) []].

Definition flow_calm {A : Type} (s : A -> State) (f : flow A) (st : State) : Prop :=
  match f with
  | Continue a => pipe_writes (trace (s a)) = pipe_writes (trace st)
  | Return _ st' => pipe_writes (trace st') = pipe_writes (trace st)
  | Blocked => True
  end.

Definition loop_calm {A : Type} (s : A -> State) (l : loop_result A) (st : State) : Prop :=
  match l with
  | Exited a => pipe_writes (trace (s a)) = pipe_writes (trace st)
  | Returned _ st' => pipe_writes (trace st') = pipe_writes (trace st)
  | Pending => True
  end.

(** The pipe is never reported readable, or the wait ends without a
    descriptor being ready. *)
Definition pipe_never_readable (attempts : list poll_attempt) : bool :=
  forallb (fun a => Z.land (poll_revents1 (pa_outcome a)) POLLIN =? 0) attempts.

(** The reads on the pipe in the log a call of sslSelect leaves. *)
Definition pipe_reads_after (o : option (Z * State)) : option nat :=
  option_map (fun p => pipe_reads (trace (snd p))) o.

Definition eintr_then_timeout_end : State :=
  Eval vm_compute in
    match sslSelect eintr_then_timeout [] SSL_ERROR_WANT_READ 250 one_waiter with
    | Some (_, st') => st'
    | None => fresh
    end.

(** * Conversions between Java byte arrays and BIGNUM (lines 704-837) *)

(** The exceptions these helpers leave pending, and how a helper ends:
    with a value, or with an exception pending and its failure value
    (false, nullptr) returned. *)
Inductive jni_exception :=
| JNullPointerException
| JRuntimeException
| JArrayIndexOutOfBoundsException
| JOutOfMemoryError.

Inductive outcome (A : Type) :=
| Done (a : A)
| Threw (e : jni_exception).
Arguments Done {A} a.
Arguments Threw {A} e.

(** An unsigned char is an integer below 256, and a byte array a list of
    them, first byte first. *)
Definition bytes_ok (bs : list Z) : Prop := Forall (fun b => 0 <= b < 256) bs.

(** A BIGNUM is modelled by the integer it holds.  BN_bin2bn reads a
    big-endian magnitude, BN_num_bytes is the length of the shortest such
    magnitude, BN_bn2bin writes it, and BN_set_negative sets the sign of a
    number that is not zero. *)
Fixpoint BN_bin2bn (bs : list Z) : Z :=
  match bs with
  | [] => 0
  | b :: rest => b * 256 ^ Z.of_nat (length rest) + BN_bin2bn rest
  end.

Definition BN_num_bytes (v : Z) : nat :=
  if Z.abs v =? 0 then O else Z.to_nat (Z.log2 (Z.abs v) / 8 + 1).

Fixpoint big_endian (n : nat) (m : Z) : list Z :=
  match n with
  | O => []
  | S n' => (m / 256 ^ Z.of_nat n') mod 256 :: big_endian n' m
  end.

Definition BN_bn2bin (v : Z) : list Z := big_endian (BN_num_bytes v) (Z.abs v).

Definition BN_set_negative (m : Z) (negative : bool) : Z := if negative then - m else m.

Definition BN_is_negative (v : Z) : bool := v <? 0.

(** The loop that both conversions use to negate a number in place,
    for (i = size - 1; i >= 0; i--) { b[i] ^= 0xFF; if (carry) carry = (++b[i]) == 0; }
    It yields the bytes and the carry left after the first byte; the
    recursion reaches the last byte first, as the loop does. *)
Fixpoint negate_in_place (bs : list Z) : list Z * bool :=
  match bs with
  | [] => ([], true)
  | b :: rest =>
      let (rest', carry) := negate_in_place rest in
      let x := Z.lxor b 255 in
      if carry then
        let y := (x + 1) mod 256 in
        (y :: rest', y =? 0)
      else (x :: rest', false)
  end.

(** arrayToBignum (lines 704-758).  [source] is the Java array, [None]
    for null; [dest_is_null] tells whether the destination pointer is
    null and [bin2bn_fails] whether BN_bin2bn cannot allocate. *)
Definition arrayToBignum (source : option (list Z)) (dest_is_null bin2bn_fails : bool)
  : outcome Z :=
  if dest_is_null then Threw JNullPointerException
  else
    match source with
    | None => Threw JNullPointerException
    | Some tmp =>
        match tmp with
        | [] => Done 0   (* if the array is empty, it is zero. *)
        | b0 :: _ =>
            let negative := negb (Z.land b0 128 =? 0) in
            let tmp := if negative then fst (negate_in_place tmp) else tmp in
            if bin2bn_fails then Threw JRuntimeException
            else Done (BN_set_negative (BN_bin2bn tmp) negative)
        end
    end.

(** The while loop of arrayToBignumSize: leading zero bytes are skipped. *)
Fixpoint skip_leading_zeros (tmp : list Z) : list Z :=
  match tmp with
  | [] => []
  | b :: rest => if b =? 0 then skip_leading_zeros rest else tmp
  end.

(** arrayToBignumSize (lines 765-794) *)
Definition arrayToBignumSize (source : option (list Z)) : outcome nat :=
  match source with
  | None => Threw JNullPointerException
  | Some tmp =>
      match tmp with
      | [] => Done O
      | b0 :: _ =>
          if negb (Z.land b0 128 =? 0) then Threw JRuntimeException   (* Negative number *)
          else Done (length (skip_leading_zeros tmp))
      end
  end.

(** bignumToArray (lines 799-837).  [source] is the BIGNUM, [None] for
    null; [alloc_fails] tells whether NewByteArray fails.  The new array
    is zero-filled and BN_bn2bin writes the magnitude from its second
    byte on. *)
Definition bignumToArray (source : option Z) (alloc_fails : bool) : outcome (list Z) :=
  match source with
  | None => Threw JNullPointerException
  | Some v =>
      (* size_t numBytes = BN_num_bytes(source) + 1; *)
      if alloc_fails then Threw JNullPointerException
      else
        let written := BN_bn2bin v in
        if (0 <? Z.of_nat (BN_num_bytes v)) && (Z.of_nat (length written) <=? 0)
        then Threw JRuntimeException
        else
          let tmp := 0 :: written in
          if BN_is_negative v then
            match fst (negate_in_place tmp) with
            | b0 :: rest => Done (Z.lor b0 128 :: rest)
            | [] => Done []
            end
          else
            match tmp with
            | _ :: rest => Done (0 :: rest)
            | [] => Done []
            end
  end.

(** The integer a Java byte array denotes: big-endian two's complement,
    as BigInteger.toByteArray writes it; the empty array is zero. *)
Definition twos_complement_value (bs : list Z) : Z :=
  match bs with
  | [] => 0
  | b0 :: _ => BN_bin2bn bs - (if 128 <=? b0 then 256 ^ Z.of_nat (length bs) else 0)
  end.

(** The bytes 0xFF 0x38 of -200 and the bytes 0x00 0xC8 of 200. *)
Definition minus_200 : list Z := [255; 56].
Definition plus_200 : list Z := [0; 200].

(** * evpUpdate on a Java array (lines 3332-3417) *)

Definition ARRAY_CHUNK_INVALID (array_len chunk_offset chunk_len : Z) : bool :=
  (chunk_offset <? 0) || (chunk_offset >? array_len) || (chunk_len <? 0)
  || (chunk_len >? array_len - chunk_offset).

(** env->GetByteArrayRegion(array, start, len, buf): the bytes copied to
    the buffer. *)
Definition GetByteArrayRegion (array : list Z) (start len : Z) : list Z :=
  firstn (Z.to_nat len) (skipn (Z.to_nat start) array).

(** The digest context as evpUpdate sees it: the buffers handed to
    update_func so far, in the order of the calls, and the answers the
    coming calls will get (non-zero for success); once the answers are
    used up a call succeeds. *)
Record md_state := mkMd {
  md_fed : list (list Z);
  md_answers : list bool
}.

Definition update_func (buf : list Z) (md : md_state) : bool * md_state :=
  match md_answers md with
  | [] => (true, mkMd (md_fed md ++ [buf]) [])
  | r :: rest => (r, mkMd (md_fed md ++ [buf]) rest)
  end.

(** What the JVM and the allocator answer during the call:
    isGetByteArrayElementsLikelyToReturnACopy, whether new jbyte[] and
    GetByteArrayElements fail, and the exception throwExceptionIfNecessary
    finds cause for in the error queue, if any. *)
Record evp_env := mkEvpEnv {
  likely_copy : bool;
  chunk_buffer_fails : bool;
  elements_fail : bool;
  queued : option jni_exception
}.

(** The loop that streams a large chunk through the buffer.  It yields
    update_func_result and the context, or [None] when [fuel] turns of the
    loop do not end it. *)
Fixpoint evpUpdate_stream (fuel : nat) (array : list Z) (buf_size in_offset remaining : Z)
    (md : md_state) : option (bool * md_state) :=
  if remaining >? 0 then
    match fuel with
    | O => None
    | S fuel' =>
        let chunk_size := if remaining >=? buf_size then buf_size else remaining in
        let (update_func_result, md) :=
          update_func (GetByteArrayRegion array in_offset chunk_size) md in
        if negb update_func_result then Some (false, md)
        else evpUpdate_stream fuel' array buf_size (in_offset + chunk_size)
               (remaining - chunk_size) md
    end
  else Some (true, md).

(** evpUpdate: the context after the call and the exception left
    pending.  [mdCtx] tells whether the context reference resolves. *)
Definition evpUpdate (mdCtx : bool) (inJavaBytes : option (list Z)) (inOffset inLength : Z)
    (env : evp_env) (md : md_state) : option (md_state * option jni_exception) :=
  if negb mdCtx then Some (md, Some JNullPointerException)
  else
    match inJavaBytes with
    | None => Some (md, Some JNullPointerException)
    | Some array =>
        let array_size := Z.of_nat (length array) in
        if ARRAY_CHUNK_INVALID array_size inOffset inLength
        then Some (md, Some JArrayIndexOutOfBoundsException)
        else if inLength =? 0 then Some (md, None)
        else
          let in_offset := inOffset in
          let in_size := inLength in
          let finish (r : option (bool * md_state)) :=
            match r with
            | None => None
            | Some (update_func_result, md) =>
                if negb update_func_result then Some (md, queued env) else Some (md, None)
            end in
          if likely_copy env then
            if in_size <=? 1024 then
              finish (Some (update_func (GetByteArrayRegion array in_offset in_size) md))
            else
              let remaining := in_size in
              let buf_size := if remaining >=? 65536 then 65536 else remaining in
              if chunk_buffer_fails env then Some (md, Some JOutOfMemoryError)
              else finish (evpUpdate_stream (Z.to_nat remaining) array buf_size in_offset
                             remaining md)
          else if elements_fail env then Some (md, Some JOutOfMemoryError)
          else finish (Some (update_func (GetByteArrayRegion array in_offset in_size) md))
    end.

(** No coming call of update_func fails. *)
Definition updates_succeed (md : md_state) : bool := forallb (fun r => r) (md_answers md).

(** A context that has been fed nothing, an array of 70000 bytes and an
    environment in which array elements are copied. *)
Definition empty_md : md_state := mkMd [] [].
Definition big_array : list Z := repeat 7 (Z.to_nat 70000).
Definition copying : evp_env := mkEvpEnv true false false None.

(** * NativeCrypto_ASN1_TIME_to_Calendar (lines 5283-5323) *)

(** Characters are their codes; a C string is the list of the characters
    from a pointer on.  isspace, isdigit and atoi are those of the C
    library: atoi skips white space, takes a sign and reads digits up to
    the first character that is none. *)
Definition isspace (c : Z) : bool := (c =? 32) || ((9 <=? c) && (c <=? 13)).
Definition isdigit (c : Z) : bool := (48 <=? c) && (c <=? 57).

Fixpoint atoi_digits (s : list Z) (acc : Z) : Z :=
  match s with
  | c :: s' => if isdigit c then atoi_digits s' (10 * acc + (c - 48)) else acc
  | [] => acc
  end.

Fixpoint atoi (s : list Z) : Z :=
  match s with
  | c :: s' =>
      if isspace c then atoi s'
      else if c =? 45 then - atoi_digits s' 0
      else if c =? 43 then atoi_digits s' 0
      else atoi_digits s 0
  | [] => 0
  end.

(** mem[i] = c; a store outside the buffer is not modelled and leaves it
    as it is. *)
Fixpoint store (mem : list Z) (i : nat) (c : Z) : list Z :=
  match mem, i with
  | [], _ => []
  | _ :: rest, O => c :: rest
  | b :: rest, S i' => b :: store rest i' c
  end.

(** get_ASN1_TIME_data: [data] is the offset of the pointer [*data] in
    the buffer [mem].  It yields the buffer, the pointer and the output. *)
Definition get_ASN1_TIME_data (mem : list Z) (data len : Z) : list Z * Z * Z :=
  let c := nth (Z.to_nat data) mem 0 in
  let mem := store mem (Z.to_nat data) 0 in
  let data := data - len in
  let output := atoi (skipn (Z.to_nat data) mem) in
  let mem := store mem (Z.to_nat (data + len)) c in
  (mem, data, output).

(** What ASN1_TIME_to_generalizedtime yields: the length and the data of
    the string. *)
Record ASN1_GENERALIZEDTIME := mkGen {
  gen_length : Z;
  gen_data : option (list Z)
}.

(** The arguments of Calendar.set: year, month, date, hourOfDay, minute,
    second. *)
Record calendar_set := mkSet {
  set_year : Z;
  set_month : Z;
  set_date : Z;
  set_hourOfDay : Z;
  set_minute : Z;
  set_second : Z
}.

(** NativeCrypto_ASN1_TIME_to_Calendar.  [asn1Time] tells whether the
    reference is non-null and [gen] is the answer of
    ASN1_TIME_to_generalizedtime; the result is the buffer of the string
    as the function leaves it and the call of Calendar.set. *)
Definition NativeCrypto_ASN1_TIME_to_Calendar (asn1Time : bool)
    (gen : option ASN1_GENERALIZEDTIME) : outcome (list Z * calendar_set) :=
  if negb asn1Time then Threw JNullPointerException
  else
    match gen with
    | None => Threw JNullPointerException
    | Some g =>
        match gen_data g with
        | None => Threw JNullPointerException
        | Some mem =>
            if gen_length g <? 14 then Threw JNullPointerException
            else
              let p := 14 in
              let '(mem, p, sec) := get_ASN1_TIME_data mem p 2 in
              let '(mem, p, min) := get_ASN1_TIME_data mem p 2 in
              let '(mem, p, hour) := get_ASN1_TIME_data mem p 2 in
              let '(mem, p, mday) := get_ASN1_TIME_data mem p 2 in
              let '(mem, p, mon) := get_ASN1_TIME_data mem p 2 in
              let '(mem, p, year) := get_ASN1_TIME_data mem p 4 in
              Done (mem, mkSet year (mon - 1) mday hour min sec)
        end
    end.

(** The number a string of decimal digits denotes, and the [n]
    characters of a string from the [i]-th on. *)
Definition decimal (ds : list Z) : Z := fold_left (fun a c => 10 * a + (c - 48)) ds 0.
Definition field (mem : list Z) (i n : nat) : list Z := firstn n (skipn i mem).

(** The string 20240229235958Z with its terminator. *)
Definition leap_day : list Z :=
  [50; 48; 50; 52; 48; 50; 50; 57; 50; 51; 53; 57; 53; 56; 90; 0].

(** * setBlocking (lines 1640-1654) *)

(** O_NONBLOCK of the Linux headers, octal 04000. *)
Definition O_NONBLOCK : Z := 2048.

(** setBlocking on a descriptor whose file status flags are [fd_flags]:
    the value returned and the flags of the descriptor afterwards.
    [getfl_fails] and [setfl_fails] tell whether fcntl(F_GETFL) and
    fcntl(F_SETFL) fail, that is, return -1. *)
Definition setBlocking (getfl_fails setfl_fails : bool) (blocking : bool) (fd_flags : Z)
  : bool * Z :=
  let flags := if getfl_fails then -1 else fd_flags in
  if flags =? -1 then (false, fd_flags)
  else
    let flags :=
      if negb blocking then Z.lor flags O_NONBLOCK
      else Z.land flags (Z.lnot O_NONBLOCK) in
    let rc := if setfl_fails then -1 else 0 in
    (negb (rc =? -1), if setfl_fails then fd_flags else flags).

(** O_RDWR | O_APPEND | O_NONBLOCK *)
Definition some_flags : Z := 3074.
(** * Properties *)

(** ** The waker *)

Lemma same_flags_refl st : same_flags st st.
Proof. repeat split. Qed.

Lemma same_flags_trans st1 st2 st3 :
  same_flags st1 st2 -> same_flags st2 st3 -> same_flags st1 st3.
Proof.
  unfold same_flags; intros (A1 & A2 & A3 & A4 & A5) (B1 & B2 & B3 & B4 & B5).
  repeat split; congruence.
Qed.

Lemma sslNotify_loop_spec ws : forall st,
  same_flags st (sslNotify_loop ws st)
  /\ trace (sslNotify_loop ws st) = repeat EvPipeWrite (S (eintr_prefix ws)) ++ trace st
  /\ fdsEmergency (appData (sslNotify_loop ws st))
     = (fdsEmergency (appData st) + tokens_of (settled ws))%nat.
Proof.
  induction ws as [|o ws IH]; intro st.
  - cbn. repeat split. lia.
  - destruct o as [|e].
    + cbn. repeat split. lia.
    + cbn [sslNotify_loop sys_write]. cbn [errno set_errno log].
      unfold settled. cbn [eintr_prefix].
      destruct (e =? EINTR) eqn:E.
      * specialize (IH (set_errno e (log EvPipeWrite (set_errno 0 st)))).
        destruct IH as (F & T & P). repeat split; try apply F.
        -- rewrite T. cbn [trace set_errno log].
           change (EvPipeWrite :: trace st) with ([EvPipeWrite] ++ trace st).
           rewrite app_assoc, <- repeat_cons. reflexivity.
        -- rewrite P. reflexivity.
      * cbn. repeat split. lia.
Qed.

Lemma sslNotify_same_flags ws st : same_flags st (sslNotify ws st).
Proof.
  destruct (sslNotify_loop_spec ws st) as (F & _).
  unfold sslNotify, same_flags in *. cbn. exact F.
Qed.

Lemma sslNotify_errno ws st : errno (sslNotify ws st) = errno st.
Proof. reflexivity. Qed.

Lemma sslNotify_trace ws st :
  trace (sslNotify ws st) = repeat EvPipeWrite (S (eintr_prefix ws)) ++ trace st.
Proof. apply (sslNotify_loop_spec ws st). Qed.

Lemma sslNotify_pipe ws st :
  fdsEmergency (appData (sslNotify ws st))
  = (fdsEmergency (appData st) + tokens_of (settled ws))%nat.
Proof. apply (sslNotify_loop_spec ws st). Qed.

(** C8. sslNotify issues one-byte writes on the pipe: one, plus one more
    for each leading write that fails with EINTR.  The first answer that
    is not EINTR ends it, a success adding one token to the pipe and any
    other error adding none and leaving no mark; errno on return is errno
    on entry, whatever it was, and the flags, the pending exception and
    the error object are as before. *)
Theorem sslNotify_restores_errno : forall (ws : list write_outcome) (st : State),
  errno (sslNotify ws st) = errno st
  /\ trace (sslNotify ws st) = repeat EvPipeWrite (S (eintr_prefix ws)) ++ trace st
  /\ fdsEmergency (appData (sslNotify ws st))
     = (fdsEmergency (appData st) + tokens_of (settled ws))%nat
  /\ (tokens_of (settled ws) <= 1)%nat
  /\ same_flags st (sslNotify ws st).
Proof.
  intros ws st. split; [apply sslNotify_errno|].
  split; [apply sslNotify_trace|].
  split; [apply sslNotify_pipe|].
  split; [destruct (settled ws); cbn; lia|].
  apply sslNotify_same_flags.
Qed.

(** ** The interrupt of another thread *)

Lemma NativeCrypto_SSL_interrupt_flags ws1 ws2 ssl st :
  let st' := NativeCrypto_SSL_interrupt ws1 ws2 ssl st in
  waitingThreads (appData st') = waitingThreads (appData st)
  /\ callbackState (appData st') = callbackState (appData st)
  /\ pending st' = pending st
  /\ sslError st' = sslError st
  /\ errno st' = errno st.
Proof.
  destruct ssl as [[[|]]|]; cbn -[sslNotify]; try (repeat split; reflexivity).
  set (st0 := set_alive 0 st).
  destruct (sslNotify_same_flags ws1 st0) as (_ & W1 & C1 & P1 & S1).
  destruct (sslNotify_same_flags ws2 (sslNotify ws1 st0)) as (_ & W2 & C2 & P2 & S2).
  repeat split; try congruence;
    [rewrite W2, W1 | rewrite C2, C1 | rewrite P2, P1 | rewrite S2, S1]; reflexivity.
Qed.

Lemma concurrent_interrupt_flags b st :
  let st' := concurrent_interrupt b st in
  waitingThreads (appData st') = waitingThreads (appData st)
  /\ callbackState (appData st') = callbackState (appData st)
  /\ pending st' = pending st
  /\ sslError st' = sslError st
  /\ errno st' = errno st.
Proof.
  destruct b; cbn -[NativeCrypto_SSL_interrupt]; [|repeat split].
  destruct (NativeCrypto_SSL_interrupt_flags [] [] (Some (mkSSL true)) st) as (W & C & _).
  repeat split; assumption.
Qed.

Lemma concurrent_interrupt_poll_timeouts b st :
  poll_timeouts (trace (concurrent_interrupt b st)) = poll_timeouts (trace st).
Proof. destruct b; reflexivity. Qed.

(** ** The readiness wait *)

Lemma posix_timeout_idem t : posix_timeout (posix_timeout t) = posix_timeout t.
Proof.
  unfold posix_timeout. destruct (t <=? 0) eqn:E; [reflexivity|]. rewrite E. reflexivity.
Qed.

Lemma poll_waiting ev t a st :
  waitingThreads (appData (poll ev t a st)) = waitingThreads (appData st).
Proof.
  unfold poll.
  pose proof (concurrent_interrupt_flags (pa_interrupt a)
                (log (EvPoll ev (Z.lor POLLIN POLLPRI) t) st)) as (W & _).
  destruct (pa_outcome a); cbn -[concurrent_interrupt] in *; exact W.
Qed.

Lemma poll_timeouts_poll ev t a st :
  poll_timeouts (trace (poll ev t a st)) = t :: poll_timeouts (trace st).
Proof.
  unfold poll.
  destruct (pa_outcome a); cbn -[concurrent_interrupt];
    rewrite concurrent_interrupt_poll_timeouts; reflexivity.
Qed.

Lemma poll_errno_fail ev t a st e :
  pa_outcome a = PollFail e -> errno (poll ev t a st) = e.
Proof. unfold poll. intros ->. reflexivity. Qed.

(** One interrupted attempt: the loop polls again, and hands the next
    poll the timeout it handed this one. *)
Lemma sslSelect_poll_retry a rest type t st :
  poll_retries a = true ->
  sslSelect_poll (a :: rest) type t st
  = sslSelect_poll rest type (posix_timeout t)
      (poll (if type =? SSL_ERROR_WANT_READ then Z.lor POLLIN POLLPRI
             else Z.lor POLLOUT POLLPRI) (posix_timeout t) a st).
Proof.
  unfold poll_retries. intro R.
  apply andb_prop in R as (Cb & R). apply negb_true_iff in Cb.
  destruct (pa_outcome a) as [e|r0 r1] eqn:O; [|discriminate].
  apply andb_prop in R as (Ca & E). apply negb_true_iff in Ca.
  cbn [sslSelect_poll]. rewrite Cb. cbn [NetFd_isClosed].
  fold (posix_timeout t). rewrite O. cbn [poll_result Z.eqb].
  rewrite Ca. cbn [NetFd_isClosed].
  rewrite (poll_errno_fail _ _ _ _ _ O), E. reflexivity.
Qed.

(** An attempt that is not a retry ends the loop. *)
Lemma sslSelect_poll_stop a rest type t st :
  poll_retries a = false ->
  exists r rev st',
    sslSelect_poll (a :: rest) type t st = Some (r, rev, st')
    /\ waitingThreads (appData st') = waitingThreads (appData st)
    /\ poll_timeouts (trace st')
       = repeat (posix_timeout t) (polls_made (a :: rest)) ++ poll_timeouts (trace st)
    /\ (r = THROWN_EXCEPTION \/ r = -1 \/ r = 0 \/ r = 1 \/ r = 2).
Proof.
  unfold poll_retries. intro R. cbn [sslSelect_poll polls_made].
  unfold poll_retries.
  destruct (pa_closed_before a) eqn:Cb; cbn [NetFd_isClosed negb andb].
  - eexists _, _, _. split; [reflexivity|]. cbn. auto.
  - cbn [negb andb] in R. fold (posix_timeout t).
    destruct (pa_outcome a) as [e|r0 r1] eqn:O; cbn [poll_result poll_revents1].
    + cbn [Z.eqb]. destruct (pa_closed_after a) eqn:Ca; cbn [NetFd_isClosed negb andb] in *.
      * eexists _, _, _. split; [reflexivity|].
        cbn [appData jniThrowException set_pending trace]. rewrite poll_waiting, poll_timeouts_poll.
        cbn. auto.
      * rewrite (poll_errno_fail _ _ _ _ _ O), R. cbn [negb].
        eexists _, _, _. split; [reflexivity|].
        rewrite poll_waiting, poll_timeouts_poll. cbn. auto.
    + assert (N : (((if r0 =? 0 then 0 else 1) + (if r1 =? 0 then 0 else 1)) =? -1) = false)
        by (destruct (r0 =? 0), (r1 =? 0); reflexivity).
      rewrite N. eexists _, _, _. split; [reflexivity|].
      rewrite poll_waiting, poll_timeouts_poll.
      split; [reflexivity|]. split; [reflexivity|].
      destruct (r0 =? 0), (r1 =? 0); cbn; auto.
Qed.

Lemma sslSelect_poll_spec attempts : forall type t st,
  select_returns attempts = true ->
  exists r rev st',
    sslSelect_poll attempts type t st = Some (r, rev, st')
    /\ waitingThreads (appData st') = waitingThreads (appData st)
    /\ poll_timeouts (trace st')
       = repeat (posix_timeout t) (polls_made attempts) ++ poll_timeouts (trace st)
    /\ (r = THROWN_EXCEPTION \/ r = -1 \/ r = 0 \/ r = 1 \/ r = 2).
Proof.
  induction attempts as [|a rest IH]; intros type t st H; [discriminate|].
  destruct (poll_retries a) eqn:R.
  - cbn [select_returns existsb] in H. rewrite R in H. cbn [negb orb] in H.
    rewrite (sslSelect_poll_retry _ _ _ _ _ R).
    set (st1 := poll _ (posix_timeout t) a st).
    destruct (IH type (posix_timeout t) st1 H) as (r & rev & st' & E & W & T & O).
    exists r, rev, st'. split; [exact E|].
    split; [rewrite W; apply poll_waiting|].
    split; [|exact O].
    rewrite T, posix_timeout_idem. unfold st1. rewrite poll_timeouts_poll.
    cbn [polls_made]. rewrite R.
    assert (Cb : pa_closed_before a = false).
    { unfold poll_retries in R. destruct (pa_closed_before a); [discriminate|reflexivity]. }
    rewrite Cb.
    change (posix_timeout t :: poll_timeouts (trace st))
      with ([posix_timeout t] ++ poll_timeouts (trace st)).
    rewrite app_assoc, <- repeat_cons. reflexivity.
  - apply sslSelect_poll_stop. exact R.
Qed.

(** On a script of retries only, the thread is still polling when the
    script ends. *)
Lemma sslSelect_poll_blocked attempts : forall type t st,
  select_returns attempts = false -> sslSelect_poll attempts type t st = None.
Proof.
  induction attempts as [|a rest IH]; intros type t st H; [reflexivity|].
  cbn [select_returns existsb] in H. apply orb_false_iff in H as (R & H).
  apply negb_false_iff in R.
  rewrite (sslSelect_poll_retry _ _ _ _ _ R). apply IH. exact H.
Qed.

Lemma sys_read_frame o st :
  waitingThreads (appData (sys_read o st)) = waitingThreads (appData st)
  /\ poll_timeouts (trace (sys_read o st)) = poll_timeouts (trace st)
  /\ aliveAndKicking (appData (sys_read o st)) = aliveAndKicking (appData st)
  /\ pending (sys_read o st) = pending st
  /\ sslError (sys_read o st) = sslError st
  /\ callbackState (appData (sys_read o st)) = callbackState (appData st).
Proof. destruct o; repeat split. Qed.

Lemma drain_frame_step o st st' :
  drain_frame (sys_read o st) st' -> drain_frame st st'.
Proof.
  unfold drain_frame. destruct (sys_read_frame o st) as (A1 & A2 & A3 & A4 & A5 & A6).
  intros (B1 & B2 & B3 & B4 & B5 & B6). repeat split; congruence.
Qed.

Lemma drain_pipe_frame n : forall st, drain_frame st (drain_pipe n st).
Proof.
  induction n as [|n IH]; intro st; cbn [drain_pipe].
  - repeat split.
  - destruct (errno (sys_read ReadOk st) =? EINTR).
    + apply (drain_frame_step ReadOk). apply IH.
    + repeat split.
Qed.

Lemma sslSelect_drain_frame rs : forall st, drain_frame st (sslSelect_drain rs st).
Proof.
  induction rs as [|o rs IH]; intro st; cbn [sslSelect_drain].
  - apply drain_pipe_frame.
  - destruct (errno (sys_read o st) =? EINTR).
    + apply (drain_frame_step o). apply IH.
    + apply (sys_read_frame o st).
Qed.

Lemma sslSelect_spec attempts rs type t st :
  select_returns attempts = true ->
  exists r st',
    sslSelect attempts rs type t st = Some (r, st')
    /\ waitingThreads (appData st') = waitingThreads (appData st) - 1
    /\ poll_timeouts (trace st')
       = repeat (posix_timeout t) (polls_made attempts) ++ poll_timeouts (trace st)
    /\ (r = THROWN_EXCEPTION \/ r = -1 \/ r = 0 \/ r = 1 \/ r = 2).
Proof.
  intro H. unfold sslSelect.
  destruct (sslSelect_poll_spec attempts type t st H) as (r & rev & st1 & E & W & T & O).
  rewrite E.
  set (st2 := if (r >? 0) && negb (Z.land rev POLLIN =? 0)
              then sslSelect_drain rs st1 else st1).
  assert (F : drain_frame st1 st2).
  { unfold st2. destruct ((r >? 0) && negb (Z.land rev POLLIN =? 0)).
    - apply sslSelect_drain_frame.
    - repeat split. }
  destruct F as (F1 & F2 & _).
  exists r, (set_waiting (waitingThreads (appData st2) - 1) st2).
  split; [reflexivity|]. cbn [set_waiting set_appData appData waitingThreads trace].
  repeat split; try congruence.
Qed.

(** Whenever sslSelect returns, the waiter count is one less. *)
Lemma sslSelect_decrements attempts rs type t st r st' :
  sslSelect attempts rs type t st = Some (r, st') ->
  waitingThreads (appData st') = waitingThreads (appData st) - 1.
Proof.
  intro E. destruct (select_returns attempts) eqn:H.
  - destruct (sslSelect_spec attempts rs type t st H) as (r1 & st1 & E1 & W & _).
    rewrite E in E1. injection E1 as -> ->. exact W.
  - unfold sslSelect in E. rewrite (sslSelect_poll_blocked _ _ _ _ H) in E. discriminate.
Qed.

(** C6. A call of sslSelect hands poll the caller's timeout when it is
    positive and -1, poll's wait-forever value, when it is zero or
    negative.  A call that returns has made every one of its polls with
    that same value; and when a poll fails with EINTR on a descriptor
    that is open before and after, the loop polls again with that very
    value, nothing being subtracted for the time already spent. *)
Theorem sslSelect_timeout_unadjusted :
  forall (attempts : list poll_attempt) (rs : list read_outcome) (type t : Z) (st : State),
  select_returns attempts = true ->
  posix_timeout t = (if t <=? 0 then -1 else t)
  /\ (exists r st',
        sslSelect attempts rs type t st = Some (r, st')
        /\ poll_timeouts (trace st')
           = repeat (posix_timeout t) (polls_made attempts) ++ poll_timeouts (trace st))
  /\ match attempts with
     | [] => True
     | a :: rest =>
         if poll_retries a
         then polls_made attempts = S (polls_made rest)
              /\ sslSelect attempts rs type t st
                 = sslSelect rest rs type (posix_timeout t)
                     (poll (if type =? SSL_ERROR_WANT_READ then Z.lor POLLIN POLLPRI
                            else Z.lor POLLOUT POLLPRI) (posix_timeout t) a st)
              /\ posix_timeout (posix_timeout t) = posix_timeout t
         else (polls_made attempts <= 1)%nat
     end.
Proof.
  intros attempts rs type t st H.
  split; [reflexivity|].
  split.
  - destruct (sslSelect_spec attempts rs type t st H) as (r & st' & E & _ & T & _).
    exists r, st'. split; assumption.
  - destruct attempts as [|a rest]; [exact I|].
    destruct (poll_retries a) eqn:R.
    + split; [|split; [|apply posix_timeout_idem]].
      * cbn [polls_made]. rewrite R.
        unfold poll_retries in R. destruct (pa_closed_before a); [discriminate|reflexivity].
      * unfold sslSelect. rewrite (sslSelect_poll_retry _ _ _ _ _ R). reflexivity.
    + cbn [polls_made]. rewrite R. destruct (pa_closed_before a); lia.
Qed.

(** A wait interrupted by a signal once: both polls carry -1 for a Java
    timeout of 0, and 5000 for a timeout of 5000. *)
Lemma sslSelect_timeout_unadjusted_witness :
  select_returns eintr_then_timeout = true
  /\ timeouts_after (sslSelect eintr_then_timeout [] SSL_ERROR_WANT_READ 0 one_waiter)
     = Some [-1; -1]
  /\ timeouts_after (sslSelect eintr_then_timeout [] SSL_ERROR_WANT_READ 5000 one_waiter)
     = Some [5000; 5000].
Proof.
  assert (H : select_returns eintr_then_timeout = true) by reflexivity.
  destruct (sslSelect_timeout_unadjusted eintr_then_timeout [] SSL_ERROR_WANT_READ 0
              one_waiter H) as (_ & (r & st' & E & T) & _).
  destruct (sslSelect_timeout_unadjusted eintr_then_timeout [] SSL_ERROR_WANT_READ 5000
              one_waiter H) as (_ & (r2 & st2 & E2 & T2) & _).
  split; [exact H|]. rewrite E, E2. cbn [timeouts_after option_map snd].
  rewrite T, T2. split; reflexivity.
Defined.

(** ** The waiter count across one turn of the read and write loops *)

Lemma engine_call_waiting step st :
  waitingThreads (appData (engine_call step st)) = waitingThreads (appData st).
Proof.
  unfold engine_call.
  match goal with |- context [concurrent_interrupt ?b ?s] =>
    destruct (concurrent_interrupt_flags b s) as (W & _); rewrite W end.
  destruct (step_throws step); reflexivity.
Qed.

Lemma after_step_waiting it st :
  waitingThreads (appData (after_step it st))
  = waitingThreads (appData st) + (if wants_io (sslError st) then 1 else 0)
  /\ sslError (after_step it st) = sslError st.
Proof.
  unfold after_step.
  set (st1 := if step_moved (it_step it) && (waitingThreads (appData st) >? 0)
              then sslNotify (it_notify it) st else st).
  assert (F : same_flags st st1).
  { unfold st1. destruct (step_moved (it_step it) && (waitingThreads (appData st) >? 0)).
    - apply sslNotify_same_flags.
    - apply same_flags_refl. }
  destruct F as (_ & W & _ & _ & S). rewrite S. fold (wants_io (sslError st)).
  destruct (wants_io (sslError st)); cbn; rewrite ?W; split; try lia; assumption.
Qed.

Lemma wait_case_waiting {A : Type} (w : A -> Z) it t (k : State -> A) st before :
  (forall s, w (k s) = waitingThreads (appData s)) ->
  waitingThreads (appData st) = before + 1 ->
  flow_waiting w (wait_case it t k st) before.
Proof.
  intros K W. unfold wait_case.
  destruct (sslSelect (it_polls it) (it_drain it) (sslError st) t st) as [[r st']|] eqn:E;
    [|exact I].
  apply sslSelect_decrements in E.
  destruct (r =? THROWN_EXCEPTION); [cbn; lia|].
  destruct (r =? -1); [cbn; lia|].
  destruct (r =? 0); [cbn; lia|].
  cbn. rewrite K. lia.
Qed.

Lemma syscall_case_waiting {A : Type} (w : A -> Z) result (k : State -> A) st before :
  (forall s, w (k s) = waitingThreads (appData s)) ->
  waitingThreads (appData st) = before ->
  flow_waiting w (syscall_case result k st) before.
Proof.
  intros K W. unfold syscall_case.
  destruct (result =? 0); [exact W|].
  destruct (errno st =? EINTR); [cbn; rewrite K; exact W|exact W].
Qed.

Lemma sslRead_body_waiting it len t st :
  flow_waiting waiting_of (sslRead_body it len t st) (waitingThreads (appData st)).
Proof.
  unfold sslRead_body.
  destruct (init_not_finished it); [reflexivity|].
  unfold setCallbackState. destruct (it_fd_closed it); cbn [NetFd_isClosed negb]; [reflexivity|].
  set (st3 := clearCallbackState (SSL_read _ _ _)).
  assert (W3 : waitingThreads (appData st3) = waitingThreads (appData st)).
  { unfold st3, SSL_read. cbn [clearCallbackState set_callbackState set_appData appData waitingThreads].
    rewrite engine_call_waiting. reflexivity. }
  destruct (ExceptionCheck st3); [exact W3|].
  set (st4 := OpenSslError_reset _ _ st3).
  assert (W4 : waitingThreads (appData st4) = waitingThreads (appData st)).
  { unfold st4, OpenSslError_reset. destruct (_ <=? 0); exact W3. }
  destruct (after_step_waiting it st4) as (W5 & S5).
  set (st5 := after_step it st4) in *.
  destruct (sslError st5 =? SSL_ERROR_NONE) eqn:C0.
  { apply Z.eqb_eq in C0. rewrite <- S5, C0 in W5. cbn in W5 |- *. lia. }
  destruct (sslError st5 =? SSL_ERROR_ZERO_RETURN) eqn:C6.
  { apply Z.eqb_eq in C6. rewrite <- S5, C6 in W5. cbn in W5 |- *. lia. }
  fold (wants_io (sslError st5)). rewrite <- S5 in W5.
  destruct (wants_io (sslError st5)) eqn:WIO.
  { apply wait_case_waiting; [reflexivity|lia]. }
  destruct (sslError st5 =? SSL_ERROR_SYSCALL).
  { apply syscall_case_waiting; [reflexivity|lia]. }
  cbn. lia.
Qed.

Lemma sslWrite_body_waiting it buf len t st :
  flow_waiting waiting_of3 (sslWrite_body it buf len t st) (waitingThreads (appData st)).
Proof.
  unfold sslWrite_body.
  destruct (init_not_finished it); [reflexivity|].
  unfold setCallbackState. destruct (it_fd_closed it); cbn [NetFd_isClosed negb]; [reflexivity|].
  set (st3 := clearCallbackState (SSL_write _ _ _ _)).
  assert (W3 : waitingThreads (appData st3) = waitingThreads (appData st)).
  { unfold st3, SSL_write. cbn [clearCallbackState set_callbackState set_appData appData waitingThreads].
    rewrite engine_call_waiting. reflexivity. }
  destruct (ExceptionCheck st3); [exact W3|].
  set (st4 := OpenSslError_reset _ _ st3).
  assert (W4 : waitingThreads (appData st4) = waitingThreads (appData st)).
  { unfold st4, OpenSslError_reset. destruct (_ <=? 0); exact W3. }
  destruct (after_step_waiting it st4) as (W5 & S5).
  set (st5 := after_step it st4) in *.
  destruct (sslError st5 =? SSL_ERROR_NONE) eqn:C0.
  { apply Z.eqb_eq in C0. rewrite <- S5, C0 in W5. unfold flow_waiting, waiting_of3.
    cbn in W5 |- *. lia. }
  destruct (sslError st5 =? SSL_ERROR_ZERO_RETURN) eqn:C6.
  { apply Z.eqb_eq in C6. rewrite <- S5, C6 in W5. cbn in W5 |- *. lia. }
  fold (wants_io (sslError st5)). rewrite <- S5 in W5.
  destruct (wants_io (sslError st5)) eqn:WIO.
  { apply wait_case_waiting; [reflexivity|lia]. }
  destruct (sslError st5 =? SSL_ERROR_SYSCALL).
  { apply syscall_case_waiting; [reflexivity|lia]. }
  cbn. lia.
Qed.

Lemma sslRead_loop_waiting script : forall len t st,
  loop_waiting waiting_of (sslRead_loop script len t st) (waitingThreads (appData st)).
Proof.
  induction script as [|it rest IH]; intros len t st; cbn [sslRead_loop];
    destruct (negb (aliveAndKicking (appData st) =? 0)); try reflexivity.
  pose proof (sslRead_body_waiting it len t st) as B.
  destruct (sslRead_body it len t st) as [st'| |]; cbn in B |- *; try assumption.
  unfold waiting_of in B. rewrite <- B. apply IH.
Qed.

Lemma sslWrite_loop_waiting script : forall buf len t st,
  loop_waiting waiting_of3 (sslWrite_loop script buf len t st) (waitingThreads (appData st)).
Proof.
  induction script as [|it rest IH]; intros buf len t st; cbn [sslWrite_loop];
    destruct (negb (aliveAndKicking (appData st) =? 0) && (len >? 0)); try reflexivity.
  pose proof (sslWrite_body_waiting it buf len t st) as B.
  destruct (sslWrite_body it buf len t st) as [[[buf' len'] st']| |]; cbn in B |- *;
    try assumption.
  rewrite <- B. apply IH.
Qed.

(** ** A turn that reaches the engine's answer *)

Lemma engine_call_facts step st :
  step_throws step = false ->
  pending (engine_call step st) = pending st
  /\ errno (engine_call step st) = step_errno step
  /\ sslError (engine_call step st) = sslError st.
Proof.
  intro T. unfold engine_call. rewrite T.
  destruct (concurrent_interrupt_flags (step_interrupt step) (set_errno (step_errno step) st))
    as (_ & _ & P & S & E).
  rewrite P, S, E. repeat split.
Qed.

Lemma after_step_facts it st :
  pending (after_step it st) = pending st
  /\ errno (after_step it st) = errno st
  /\ sslError (after_step it st) = sslError st.
Proof.
  unfold after_step.
  set (st1 := if step_moved (it_step it) && (waitingThreads (appData st) >? 0)
              then sslNotify (it_notify it) st else st).
  assert (F : pending st1 = pending st /\ errno st1 = errno st /\ sslError st1 = sslError st).
  { unfold st1. destruct (step_moved (it_step it) && (waitingThreads (appData st) >? 0)).
    - destruct (sslNotify_same_flags (it_notify it) st) as (_ & _ & _ & P & S).
      repeat split; assumption.
    - repeat split. }
  destruct F as (P & E & S).
  destruct ((sslError st1 =? SSL_ERROR_WANT_READ) || (sslError st1 =? SSL_ERROR_WANT_WRITE));
    cbn; repeat split; assumption.
Qed.

Lemma stepped_facts it ev st :
  step_throws (it_step it) = false ->
  pending st = None ->
  pending (stepped it ev st) = None
  /\ errno (stepped it ev st) = step_errno (it_step it)
  /\ sslError (stepped it ev st) = reported (it_step it).
Proof.
  intros T P. unfold stepped.
  destruct (after_step_facts it
    (OpenSslError_reset (it_step it) (step_result (it_step it))
       (clearCallbackState
          (engine_call (it_step it)
             (log ev (set_callbackState true (set_errno 0 st))))))) as (P1 & E1 & S1).
  rewrite P1, E1, S1.
  destruct (engine_call_facts (it_step it)
              (log ev (set_callbackState true (set_errno 0 st))) T) as (P2 & E2 & _).
  unfold OpenSslError_reset, reported.
  destruct (step_result (it_step it) <=? 0); cbn; rewrite P2, E2; repeat split; exact P.
Qed.

Lemma reaches_engine_inv it :
  reaches_engine it = true ->
  init_not_finished it = false /\ it_fd_closed it = false
  /\ step_throws (it_step it) = false.
Proof.
  unfold reaches_engine. intro H.
  apply andb_prop in H as (H & T). apply andb_prop in H as (I & C).
  apply negb_true_iff in T, I, C. auto.
Qed.

Lemma ExceptionCheck_false st : pending st = None -> ExceptionCheck st = false.
Proof. unfold ExceptionCheck. intros ->. reflexivity. Qed.

(** The read turn, once the guards are passed, is the switch on the
    reported code. *)
Lemma sslRead_body_engine it len t st :
  reaches_engine it = true -> pending st = None ->
  sslRead_body it len t st
  = let result := step_result (it_step it) in
    let st5 := stepped it (EvSSL_read len result) st in
    let code := reported (it_step it) in
    if code =? SSL_ERROR_NONE then Return result st5
    else if code =? SSL_ERROR_ZERO_RETURN then Return (-1) st5
    else if wants_io code then wait_case it t (fun s => s) st5
    else if code =? SSL_ERROR_SYSCALL then syscall_case result (fun s => s) st5
    else Return THROW_SSLEXCEPTION st5.
Proof.
  intros R P. destruct (reaches_engine_inv it R) as (I & C & T).
  destruct (stepped_facts it (EvSSL_read len (step_result (it_step it))) st T P)
    as (_ & _ & S).
  unfold sslRead_body. rewrite I. unfold setCallbackState. rewrite C.
  cbn [NetFd_isClosed negb]. unfold SSL_read.
  rewrite ExceptionCheck_false.
  2:{ cbn [clearCallbackState set_callbackState set_appData pending].
      destruct (engine_call_facts (it_step it)
        (log (EvSSL_read len (step_result (it_step it)))
           (set_callbackState true (set_errno 0 st))) T) as (P2 & _).
      rewrite P2. exact P. }
  fold (stepped it (EvSSL_read len (step_result (it_step it))) st).
  cbv zeta. rewrite S. reflexivity.
Qed.

Lemma sslWrite_body_engine it buf len t st :
  reaches_engine it = true -> pending st = None ->
  sslWrite_body it buf len t st
  = let result := step_result (it_step it) in
    let st5 := stepped it (EvSSL_write buf len result) st in
    let code := reported (it_step it) in
    if code =? SSL_ERROR_NONE then Continue (buf + result, len - result, st5)
    else if code =? SSL_ERROR_ZERO_RETURN then Return (-1) st5
    else if wants_io code then wait_case it t (fun s => (buf, len, s)) st5
    else if code =? SSL_ERROR_SYSCALL then syscall_case result (fun s => (buf, len, s)) st5
    else Return THROW_SSLEXCEPTION st5.
Proof.
  intros R P. destruct (reaches_engine_inv it R) as (I & C & T).
  destruct (stepped_facts it (EvSSL_write buf len (step_result (it_step it))) st T P)
    as (_ & _ & S).
  unfold sslWrite_body. rewrite I. unfold setCallbackState. rewrite C.
  cbn [NetFd_isClosed negb]. unfold SSL_write.
  rewrite ExceptionCheck_false.
  2:{ cbn [clearCallbackState set_callbackState set_appData pending].
      destruct (engine_call_facts (it_step it)
        (log (EvSSL_write buf len (step_result (it_step it)))
           (set_callbackState true (set_errno 0 st))) T) as (P2 & _).
      rewrite P2. exact P. }
  fold (stepped it (EvSSL_write buf len (step_result (it_step it))) st).
  cbv zeta. rewrite S. reflexivity.
Qed.

(** ** Pending exceptions across a turn *)

Lemma poll_pending ev t a st : pending (poll ev t a st) = pending st.
Proof.
  unfold poll.
  destruct (concurrent_interrupt_flags (pa_interrupt a)
              (log (EvPoll ev (Z.lor POLLIN POLLPRI) t) st)) as (_ & _ & P & _).
  destruct (pa_outcome a); cbn -[concurrent_interrupt]; exact P.
Qed.

(** Only the closed-checks of sslSelect throw, and then the result is
    THROWN_EXCEPTION. *)
Lemma sslSelect_poll_pending attempts : forall type t st r rev st',
  sslSelect_poll attempts type t st = Some (r, rev, st') ->
  r <> THROWN_EXCEPTION -> pending st' = pending st.
Proof.
  induction attempts as [|a rest IH]; intros type t st r rev st' E N; [discriminate|].
  cbn [sslSelect_poll] in E.
  destruct (pa_closed_before a); cbn [NetFd_isClosed] in E.
  { injection E as <- _ _. contradiction. }
  match type of E with context [poll ?ev ?tm a st] =>
    pose proof (poll_pending ev tm a st) as PP; set (st1 := poll ev tm a st) in * end.
  destruct (poll_result (pa_outcome a) =? -1).
  - destruct (pa_closed_after a); cbn [NetFd_isClosed] in E.
    { injection E as <- _ _. contradiction. }
    destruct (negb (errno st1 =? EINTR)).
    + injection E as _ _ <-. exact PP.
    + rewrite <- PP. eapply IH; eassumption.
  - injection E as _ _ <-. exact PP.
Qed.

Lemma sslSelect_pending attempts rs type t st r st' :
  sslSelect attempts rs type t st = Some (r, st') ->
  r <> THROWN_EXCEPTION -> pending st' = pending st.
Proof.
  unfold sslSelect. intros E N.
  destruct (sslSelect_poll attempts type t st) as [[[r1 rev] st1]|] eqn:EP; [|discriminate].
  injection E as -> <-.
  rewrite <- (sslSelect_poll_pending _ _ _ _ _ _ _ EP N).
  cbn [set_waiting set_appData pending].
  destruct ((r >? 0) && negb (Z.land rev POLLIN =? 0)); [|reflexivity].
  apply (sslSelect_drain_frame rs st1).
Qed.

Lemma wait_case_continue {A : Type} it t (k : State -> A) st a :
  wait_case it t k st = Continue a ->
  exists s, a = k s /\ pending s = pending st.
Proof.
  unfold wait_case.
  destruct (sslSelect (it_polls it) (it_drain it) (sslError st) t st) as [[r s]|] eqn:E;
    [|discriminate].
  destruct (r =? THROWN_EXCEPTION) eqn:N; [discriminate|].
  destruct (r =? -1); [discriminate|]. destruct (r =? 0); [discriminate|].
  intro H. injection H as <-. exists s. split; [reflexivity|].
  apply Z.eqb_neq in N. eapply sslSelect_pending; eassumption.
Qed.

Lemma syscall_case_continue {A : Type} result (k : State -> A) st a :
  syscall_case result k st = Continue a -> a = k st.
Proof.
  unfold syscall_case. destruct (result =? 0); [discriminate|].
  destruct (errno st =? EINTR); [|discriminate]. intro H. injection H as <-. reflexivity.
Qed.

(** A turn goes round the loop again only with no exception pending,
    before and after. *)
Lemma sslRead_body_continue it len t st st' :
  sslRead_body it len t st = Continue st' ->
  pending st = None /\ pending st' = None /\ reaches_engine it = true.
Proof.
  intro E.
  assert (G : reaches_engine it = true /\ pending st = None).
  { unfold sslRead_body in E. unfold reaches_engine.
    destruct (init_not_finished it); [discriminate|].
    unfold setCallbackState in E.
    destruct (it_fd_closed it); cbn [NetFd_isClosed negb] in E; [discriminate|].
    destruct (step_throws (it_step it)) eqn:T.
    - exfalso. revert E. unfold SSL_read, engine_call. rewrite T.
      unfold ExceptionCheck.
      cbn [clearCallbackState set_callbackState set_appData pending].
      match goal with |- context [concurrent_interrupt ?b ?s] =>
        destruct (concurrent_interrupt_flags b s) as (_ & _ & P & _); rewrite P end.
      cbn. discriminate.
    - split; [reflexivity|].
      destruct (pending st) eqn:P; [exfalso|reflexivity].
      revert E. unfold SSL_read, ExceptionCheck.
      cbn [clearCallbackState set_callbackState set_appData pending].
      match goal with |- context [engine_call ?p ?s] =>
        destruct (engine_call_facts p s T) as (P2 & _); rewrite P2 end.
      cbn. rewrite P. discriminate. }
  destruct G as (R & P). split; [exact P|]. split; [|exact R].
  rewrite (sslRead_body_engine it len t st R P) in E. cbv zeta in E.
  destruct (reaches_engine_inv it R) as (_ & _ & T).
  destruct (stepped_facts it (EvSSL_read len (step_result (it_step it))) st T P) as (P5 & _).
  destruct (reported (it_step it) =? SSL_ERROR_NONE); [discriminate|].
  destruct (reported (it_step it) =? SSL_ERROR_ZERO_RETURN); [discriminate|].
  destruct (wants_io (reported (it_step it))).
  - apply wait_case_continue in E as (s & -> & Ps). congruence.
  - destruct (reported (it_step it) =? SSL_ERROR_SYSCALL); [|discriminate].
    apply syscall_case_continue in E. subst st'. exact P5.
Qed.

Lemma sslWrite_body_continue it buf len t st buf' len' st' :
  sslWrite_body it buf len t st = Continue (buf', len', st') ->
  pending st = None /\ pending st' = None /\ reaches_engine it = true.
Proof.
  intro E.
  assert (G : reaches_engine it = true /\ pending st = None).
  { unfold sslWrite_body in E. unfold reaches_engine.
    destruct (init_not_finished it); [discriminate|].
    unfold setCallbackState in E.
    destruct (it_fd_closed it); cbn [NetFd_isClosed negb] in E; [discriminate|].
    destruct (step_throws (it_step it)) eqn:T.
    - exfalso. revert E. unfold SSL_write, engine_call. rewrite T.
      unfold ExceptionCheck.
      cbn [clearCallbackState set_callbackState set_appData pending].
      match goal with |- context [concurrent_interrupt ?b ?s] =>
        destruct (concurrent_interrupt_flags b s) as (_ & _ & P & _); rewrite P end.
      cbn. discriminate.
    - split; [reflexivity|].
      destruct (pending st) eqn:P; [exfalso|reflexivity].
      revert E. unfold SSL_write, ExceptionCheck.
      cbn [clearCallbackState set_callbackState set_appData pending].
      match goal with |- context [engine_call ?p ?s] =>
        destruct (engine_call_facts p s T) as (P2 & _); rewrite P2 end.
      cbn. rewrite P. discriminate. }
  destruct G as (R & P). split; [exact P|]. split; [|exact R].
  rewrite (sslWrite_body_engine it buf len t st R P) in E. cbv zeta in E.
  destruct (reaches_engine_inv it R) as (_ & _ & T).
  destruct (stepped_facts it (EvSSL_write buf len (step_result (it_step it))) st T P)
    as (P5 & _).
  destruct (reported (it_step it) =? SSL_ERROR_NONE); [injection E as _ _ <-; exact P5|].
  destruct (reported (it_step it) =? SSL_ERROR_ZERO_RETURN); [discriminate|].
  destruct (wants_io (reported (it_step it))).
  - apply wait_case_continue in E as (s & Es & Ps). injection Es as _ _ ->. congruence.
  - destruct (reported (it_step it) =? SSL_ERROR_SYSCALL); [|discriminate].
    apply syscall_case_continue in E. injection E as _ _ ->. exact P5.
Qed.

(** ** The loops *)

Lemma sslRead_loop_exited script : forall len t st st1,
  sslRead_loop script len t st = Exited st1 ->
  aliveAndKicking (appData st1) = 0 /\ pending st1 = pending st.
Proof.
  induction script as [|it rest IH]; intros len t st st1; cbn [sslRead_loop];
    destruct (aliveAndKicking (appData st) =? 0) eqn:A; cbn [negb]; intro E;
    try discriminate;
    try (injection E as <-; apply Z.eqb_eq in A; split; [exact A|reflexivity]).
  destruct (sslRead_body it len t st) as [st'| |] eqn:B; try discriminate.
  apply sslRead_body_continue in B as (P & P' & _).
  destruct (IH _ _ _ _ E) as (A1 & P1). split; [exact A1|congruence].
Qed.

Lemma write_guard_false a len :
  negb (a =? 0) && (len >? 0) = false -> a = 0 \/ len <= 0.
Proof.
  destruct (Z.eqb_spec a 0) as [->|N]; [left; reflexivity|].
  cbn [negb andb]. rewrite Z.gtb_ltb. intro H. apply Z.ltb_ge in H. right. exact H.
Qed.

Lemma sslWrite_loop_exited script : forall buf len t st buf1 len1 st1,
  sslWrite_loop script buf len t st = Exited (buf1, len1, st1) ->
  (aliveAndKicking (appData st1) = 0 \/ len1 <= 0) /\ pending st1 = pending st.
Proof.
  induction script as [|it rest IH]; intros buf len t st buf1 len1 st1; cbn [sslWrite_loop];
    destruct (negb (aliveAndKicking (appData st) =? 0) && (len >? 0)) eqn:A; intro E;
    try discriminate;
    try (injection E as <- <- <-; split; [apply write_guard_false; exact A|reflexivity]).
  destruct (sslWrite_body it buf len t st) as [[[buf' len'] st']| |] eqn:B; try discriminate.
  apply sslWrite_body_continue in B as (P & P' & _).
  destruct (IH _ _ _ _ _ _ _ E) as (A1 & P1). split; [exact A1|congruence].
Qed.

Lemma sslRead_loop_app pre : forall rest len t st st1,
  sslRead_turns pre len t st = Some st1 ->
  sslRead_loop (pre ++ rest) len t st = sslRead_loop rest len t st1
  /\ (pending st = None -> pending st1 = None).
Proof.
  induction pre as [|it pre IH]; intros rest len t st st1; cbn [sslRead_turns app].
  - intro E. injection E as <-. auto.
  - destruct (aliveAndKicking (appData st) =? 0) eqn:A; [discriminate|].
    destruct (sslRead_body it len t st) as [st'| |] eqn:B; try discriminate.
    intro E. cbn [sslRead_loop]. rewrite A, B. cbn [negb].
    destruct (IH rest _ _ _ _ E) as (L & P). split; [exact L|].
    intros _. apply P. apply sslRead_body_continue in B. apply B.
Qed.

Lemma sslWrite_loop_app pre : forall rest buf len t st buf1 len1 st1,
  sslWrite_turns pre buf len t st = Some (buf1, len1, st1) ->
  sslWrite_loop (pre ++ rest) buf len t st = sslWrite_loop rest buf1 len1 t st1
  /\ (pending st = None -> pending st1 = None).
Proof.
  induction pre as [|it pre IH]; intros rest buf len t st buf1 len1 st1;
    cbn [sslWrite_turns app].
  - intro E. injection E as <- <- <-. auto.
  - destruct (negb (aliveAndKicking (appData st) =? 0) && (len >? 0)) eqn:A; [|discriminate].
    destruct (sslWrite_body it buf len t st) as [[[buf' len'] st']| |] eqn:B; try discriminate.
    intro E. cbn [sslWrite_loop]. rewrite A, B.
    destruct (IH rest _ _ _ _ _ _ _ E) as (L & P). split; [exact L|].
    intros _. apply P. apply sslWrite_body_continue in B. apply B.
Qed.

(** ** Zero-length requests *)

(** C7. A read or a write of length 0 returns 0 at once, whatever the
    handle and whatever the environment would answer: the state it
    returns is the state it was given, so the flag, the waiter count and
    the pipe are untouched and no call to the engine, to poll or to the
    pipe is logged; at the entry points nothing is raised either. *)
Theorem zero_length_is_a_no_op :
  forall (script : list iteration) (ssl : SSL) (t : Z) (af : bool) (st : State),
  sslRead script ssl 0 t st = Some (0, st)
  /\ sslWrite script ssl 0 t st = Some (0, st)
  /\ NativeCrypto_SSL_read script af (Some ssl) true true true 0 t st
     = Some (0, set_sslError SSL_ERROR_NONE st)
  /\ NativeCrypto_SSL_write script af (Some ssl) true true true 0 t st
     = Some (set_sslError SSL_ERROR_NONE st)
  /\ appData (set_sslError SSL_ERROR_NONE st) = appData st
  /\ trace (set_sslError SSL_ERROR_NONE st) = trace st
  /\ pending (set_sslError SSL_ERROR_NONE st) = pending st.
Proof. intros. repeat split. Qed.

(** ** Reads and writes before the handshake is finished *)

(** C10, as the code has it.  With the handshake not finished, no false
    start and no renegotiation pending, a read of non-zero length and a
    write of positive length on a connection whose flag is set fail in the
    first turn of the loop: sslRead and sslWrite return THROW_SSLEXCEPTION,
    the entry points raise an SSLException, and neither the engine nor
    poll nor the pipe is called, the log and the AppData being as before. *)
Theorem not_initialised_fails_at_once :
  forall (it : iteration) (rest : list iteration) (af : bool) (rlen wlen t : Z) (st : State),
  init_not_finished it = true ->
  aliveAndKicking (appData st) <> 0 ->
  rlen <> 0 ->
  0 < wlen ->
  sslRead (it :: rest) (mkSSL true) rlen t st = Some (THROW_SSLEXCEPTION, set_errno 0 st)
  /\ sslWrite (it :: rest) (mkSSL true) wlen t st = Some (THROW_SSLEXCEPTION, set_errno 0 st)
  /\ NativeCrypto_SSL_read (it :: rest) af attached true true true rlen t st
     = Some (-1, jniThrowException SSLException (set_errno 0 (set_sslError SSL_ERROR_NONE st)))
  /\ NativeCrypto_SSL_write (it :: rest) af attached true true true wlen t st
     = Some (jniThrowException SSLException (set_errno 0 (set_sslError SSL_ERROR_NONE st)))
  /\ trace (jniThrowException SSLException (set_errno 0 (set_sslError SSL_ERROR_NONE st)))
     = trace st
  /\ appData (jniThrowException SSLException (set_errno 0 (set_sslError SSL_ERROR_NONE st)))
     = appData st.
Proof.
  intros it rest af rlen wlen t st I A R W.
  apply Z.eqb_neq in A, R.
  assert (W0 : (wlen =? 0) = false) by (apply Z.eqb_neq; lia).
  assert (W1 : (wlen >? 0) = true) by (apply Z.gtb_lt; exact W).
  assert (ER : sslRead (it :: rest) (mkSSL true) rlen t st
               = Some (THROW_SSLEXCEPTION, set_errno 0 st)).
  { unfold sslRead. rewrite R. cbn [app_data negb sslRead_loop].
    rewrite A. cbn [negb]. unfold sslRead_body. rewrite I. reflexivity. }
  assert (EW : sslWrite (it :: rest) (mkSSL true) wlen t st
               = Some (THROW_SSLEXCEPTION, set_errno 0 st)).
  { unfold sslWrite. rewrite W0. cbn [app_data negb sslWrite_loop].
    rewrite A, W1. cbn [negb andb]. unfold sslWrite_body. rewrite I. reflexivity. }
  split; [exact ER|]. split; [exact EW|].
  split.
  { unfold NativeCrypto_SSL_read. cbn [attached check_arguments to_SSL negb].
    unfold sslRead. rewrite R. cbn [app_data negb sslRead_loop appData set_sslError].
    rewrite A. cbn [negb]. unfold sslRead_body. rewrite I. destruct af; reflexivity. }
  split.
  { unfold NativeCrypto_SSL_write. cbn [attached check_arguments to_SSL negb].
    unfold sslWrite. rewrite W0. cbn [app_data negb sslWrite_loop appData set_sslError].
    rewrite A, W1. cbn [negb andb]. unfold sslWrite_body. rewrite I. destruct af; reflexivity. }
  split; reflexivity.
Qed.

(** A read of sixteen bytes on a fresh connection before the handshake. *)
Lemma not_initialised_fails_at_once_witness :
  init_not_finished unfinished = true
  /\ aliveAndKicking (appData fresh) <> 0
  /\ 16 <> 0
  /\ 0 < 16
  /\ sslRead before_handshake (mkSSL true) 16 0 fresh
     = Some (THROW_SSLEXCEPTION, set_errno 0 fresh)
  /\ raised (NativeCrypto_SSL_read before_handshake false attached true true true 16 0 fresh)
     = Some (Some SSLException).
Proof.
  assert (H1 : init_not_finished unfinished = true) by reflexivity.
  assert (H2 : aliveAndKicking (appData fresh) <> 0) by (cbn; lia).
  assert (H3 : 16 <> 0) by lia.
  assert (H4 : 0 < 16) by lia.
  destruct (not_initialised_fails_at_once unfinished [] false 16 16 0 fresh H1 H2 H3 H4)
    as (R & _ & N & _).
  repeat (split; [assumption|]).
  unfold before_handshake. rewrite N. reflexivity.
Defined.

(** C10 as stated fails: with the handshake not finished a request of
    length 0 returns 0 and raises nothing, and on a connection whose flag
    is already cleared a read returns -1 and a write returns, neither
    raising anything. *)
Lemma not_initialised_counterexample :
  forallb init_not_finished before_handshake = true
  /\ returned (NativeCrypto_SSL_read before_handshake false attached true true true 0 0 fresh)
     = Some 0
  /\ raised (NativeCrypto_SSL_read before_handshake false attached true true true 0 0 fresh)
     = Some None
  /\ raised_by (NativeCrypto_SSL_write before_handshake false attached true true true 0 0 fresh)
     = Some None
  /\ returned (NativeCrypto_SSL_read before_handshake false attached true true true 16 0
                 (set_alive 0 fresh)) = Some (-1)
  /\ raised (NativeCrypto_SSL_read before_handshake false attached true true true 16 0
               (set_alive 0 fresh)) = Some None
  /\ raised_by (NativeCrypto_SSL_write before_handshake false attached true true true 16 0
                  (set_alive 0 fresh)) = Some None.
Proof. repeat split. Qed.

(** ** Loops that end because the flag is cleared *)

(** A write whose loop ends returns the length it was asked to write,
    whatever is left, and its entry point raises nothing. *)
Lemma sslWrite_exit_returns_count script len t af st buf1 len1 st1 :
  0 < len ->
  sslWrite_loop script 0 len t (set_sslError SSL_ERROR_NONE st) = Exited (buf1, len1, st1) ->
  sslWrite script (mkSSL true) len t (set_sslError SSL_ERROR_NONE st) = Some (len, st1)
  /\ NativeCrypto_SSL_write script af attached true true true len t st = Some st1
  /\ pending st1 = pending st.
Proof.
  intros L E.
  assert (L0 : (len =? 0) = false) by (apply Z.eqb_neq; lia).
  assert (ES : sslWrite script (mkSSL true) len t (set_sslError SSL_ERROR_NONE st)
               = Some (len, st1)).
  { unfold sslWrite. rewrite L0. cbn [app_data negb]. rewrite E. reflexivity. }
  split; [exact ES|]. split.
  - unfold NativeCrypto_SSL_write. cbn [attached check_arguments to_SSL negb].
    rewrite ES.
    assert (N2 : (len =? THROW_SSLEXCEPTION) = false) by (apply Z.eqb_neq; unfold THROW_SSLEXCEPTION; lia).
    assert (N3 : (len =? THROW_SOCKETTIMEOUTEXCEPTION) = false)
      by (apply Z.eqb_neq; unfold THROW_SOCKETTIMEOUTEXCEPTION; lia).
    rewrite N2, N3. destruct (len =? THROWN_EXCEPTION); reflexivity.
  - apply sslWrite_loop_exited in E as (_ & P). exact P.
Qed.

(** C1, as the code has it.  When the loop of a read ends because the
    flag has been cleared, the read does not fail: sslRead returns -1, the
    value it returns for end of stream, the entry point hands that -1 to
    Java and raises nothing. *)
Theorem read_exit_returns_eof_sentinel :
  forall (script : list iteration) (af : bool) (len t : Z) (st st1 : State),
  len <> 0 ->
  sslRead_loop script len t (set_sslError SSL_ERROR_NONE st) = Exited st1 ->
  aliveAndKicking (appData st1) = 0
  /\ sslRead script (mkSSL true) len t (set_sslError SSL_ERROR_NONE st) = Some (-1, st1)
  /\ NativeCrypto_SSL_read script af attached true true true len t st = Some (-1, st1)
  /\ pending st1 = pending st.
Proof.
  intros script af len t st st1 L E.
  apply Z.eqb_neq in L.
  assert (ES : sslRead script (mkSSL true) len t (set_sslError SSL_ERROR_NONE st)
               = Some (-1, st1)).
  { unfold sslRead. rewrite L. cbn [app_data negb]. rewrite E. reflexivity. }
  apply sslRead_loop_exited in E as (A & P).
  split; [exact A|]. split; [exact ES|]. split; [|exact P].
  unfold NativeCrypto_SSL_read. cbn [attached check_arguments to_SSL negb].
  rewrite ES. reflexivity.
Qed.

(** A read parked in poll when another thread interrupts the connection. *)
Lemma read_exit_returns_eof_sentinel_witness :
  16 <> 0
  /\ sslRead_loop interrupted_read 16 0 (set_sslError SSL_ERROR_NONE fresh)
     = Exited interrupted_read_end
  /\ NativeCrypto_SSL_read interrupted_read false attached true true true 16 0 fresh
     = Some (-1, interrupted_read_end)
  /\ pending interrupted_read_end = None.
Proof.
  assert (H1 : 16 <> 0) by lia.
  assert (H2 : sslRead_loop interrupted_read 16 0 (set_sslError SSL_ERROR_NONE fresh)
               = Exited interrupted_read_end) by (vm_compute; reflexivity).
  destruct (read_exit_returns_eof_sentinel interrupted_read false 16 0 fresh
              interrupted_read_end H1 H2) as (_ & _ & N & P).
  split; [exact H1|]. split; [exact H2|]. split; [exact N|exact P].
Defined.

(** C1 as stated fails.  A read parked in poll and interrupted by another
    thread leaves its loop with the flag cleared and gives Java what a
    clean end of stream gives: -1 and no exception.  A write of ten bytes
    interrupted after four leaves its loop with six bytes unsent, returns
    ten and raises nothing. *)
Lemma interrupted_counterexample :
  match sslRead_loop interrupted_read 16 0 fresh with
  | Exited st1 => aliveAndKicking (appData st1) = 0
  | _ => False
  end
  /\ returned (NativeCrypto_SSL_read interrupted_read false attached true true true 16 0 fresh)
     = Some (-1)
  /\ raised (NativeCrypto_SSL_read interrupted_read false attached true true true 16 0 fresh)
     = Some None
  /\ returned (NativeCrypto_SSL_read peer_closed false attached true true true 16 0 fresh)
     = Some (-1)
  /\ raised (NativeCrypto_SSL_read peer_closed false attached true true true 16 0 fresh)
     = Some None
  /\ match sslWrite_loop interrupted_write 0 10 0 fresh with
     | Exited (buf1, len1, st1) => aliveAndKicking (appData st1) = 0 /\ buf1 = 4 /\ len1 = 6
     | _ => False
     end
  /\ returned (sslWrite interrupted_write (mkSSL true) 10 0 fresh) = Some 10
  /\ raised_by (NativeCrypto_SSL_write interrupted_write false attached true true true 10 0 fresh)
     = Some None.
Proof. vm_compute. repeat split. Qed.

(** ** End of stream and fatal errors on read *)

Lemma clean_eof_not_fatal step : clean_eof step && fatal step = false.
Proof.
  unfold clean_eof, fatal.
  destruct (reported step =? SSL_ERROR_NONE), (reported step =? SSL_ERROR_ZERO_RETURN),
    (wants_io (reported step)), (reported step =? SSL_ERROR_SYSCALL),
    (step_result step =? 0), (step_errno step =? EINTR); reflexivity.
Qed.

(** The turn in which the engine reports end of stream returns -1, the
    one in which it reports a fatal error returns THROW_SSLEXCEPTION. *)
Lemma sslRead_body_verdict it len t st :
  reaches_engine it = true -> pending st = None ->
  (clean_eof (it_step it) = true ->
   sslRead_body it len t st
   = Return (-1) (stepped it (EvSSL_read len (step_result (it_step it))) st))
  /\ (fatal (it_step it) = true ->
      sslRead_body it len t st
      = Return THROW_SSLEXCEPTION (stepped it (EvSSL_read len (step_result (it_step it))) st)).
Proof.
  intros R P. rewrite (sslRead_body_engine it len t st R P). cbv zeta.
  destruct (reaches_engine_inv it R) as (_ & _ & T).
  destruct (stepped_facts it (EvSSL_read len (step_result (it_step it))) st T P)
    as (_ & E5 & _).
  unfold clean_eof, fatal, syscall_case. rewrite E5.
  split; intro H.
  - destruct (reported (it_step it) =? SSL_ERROR_ZERO_RETURN) eqn:Z6.
    + apply Z.eqb_eq in Z6. rewrite Z6. reflexivity.
    + cbn [orb] in H. apply andb_prop in H as (S5 & R0).
      apply Z.eqb_eq in S5. rewrite S5, R0. reflexivity.
  - apply andb_prop in H as (H & H4). apply andb_prop in H as (H & H3).
    apply andb_prop in H as (H1 & H2).
    apply negb_true_iff in H1, H2, H3. rewrite H1, H2, H3.
    destruct (reported (it_step it) =? SSL_ERROR_SYSCALL); [|reflexivity].
    cbn [negb orb] in H4. apply andb_prop in H4 as (R0 & EI).
    apply negb_true_iff in R0, EI. rewrite R0, EI. reflexivity.
Qed.

(** C5. Take any read that, after turns that went round the loop, comes
    to a turn in which the engine answers.  If the answer is clean end
    of stream (zero-return, or a syscall error with result 0), sslRead
    returns -1, and the entry point returns -1 to Java with no exception
    pending.  If the answer is a fatal error, sslRead returns
    THROW_SSLEXCEPTION, not -1, and the entry point leaves an
    SSLException or an SSLProtocolException pending.  No answer is both. *)
Theorem read_eof_is_not_an_error :
  forall (pre : list iteration) (it : iteration) (post : list iteration)
         (af : bool) (len t : Z) (st st1 : State),
  len <> 0 ->
  pending st = None ->
  sslRead_turns pre len t (set_sslError SSL_ERROR_NONE st) = Some st1 ->
  aliveAndKicking (appData st1) <> 0 ->
  reaches_engine it = true ->
  clean_eof (it_step it) || fatal (it_step it) = true ->
  clean_eof (it_step it) && fatal (it_step it) = false
  /\ returned (NativeCrypto_SSL_read (pre ++ it :: post) af attached true true true len t st)
     = Some (-1)
  /\ if clean_eof (it_step it)
     then returned (sslRead (pre ++ it :: post) (mkSSL true) len t
                      (set_sslError SSL_ERROR_NONE st)) = Some (-1)
          /\ raised (NativeCrypto_SSL_read (pre ++ it :: post) af attached
                       true true true len t st) = Some None
     else returned (sslRead (pre ++ it :: post) (mkSSL true) len t
                      (set_sslError SSL_ERROR_NONE st)) = Some THROW_SSLEXCEPTION
          /\ (raised (NativeCrypto_SSL_read (pre ++ it :: post) af attached
                        true true true len t st) = Some (Some SSLException)
              \/ raised (NativeCrypto_SSL_read (pre ++ it :: post) af attached
                           true true true len t st) = Some (Some SSLProtocolException)).
Proof.
  intros pre it post af len t st st1 L P E A R V.
  split; [apply clean_eof_not_fatal|].
  apply Z.eqb_neq in L, A.
  destruct (sslRead_loop_app pre (it :: post) len t _ st1 E) as (EL & P1).
  specialize (P1 P).
  destruct (sslRead_body_verdict it len t st1 R P1) as (VE & VF).
  destruct (reaches_engine_inv it R) as (_ & _ & T).
  destruct (stepped_facts it (EvSSL_read len (step_result (it_step it))) st1 T P1)
    as (P5 & _ & S5).
  set (st5 := stepped it (EvSSL_read len (step_result (it_step it))) st1) in *.
  unfold NativeCrypto_SSL_read. cbn [attached check_arguments to_SSL negb].
  unfold sslRead. rewrite L. cbn [app_data negb]. rewrite EL.
  cbn [sslRead_loop]. rewrite A. cbn [negb].
  destruct (clean_eof (it_step it)) eqn:CE.
  - rewrite (VE eq_refl). cbn. rewrite P5. auto.
  - cbn [orb] in V. rewrite (VF V).
    cbn [returned raised option_map fst snd].
    replace (THROW_SSLEXCEPTION =? THROW_SSLEXCEPTION) with true by reflexivity.
    cbn [returned raised option_map fst snd]. split; [reflexivity|]. split; [reflexivity|].
    unfold throwSSLExceptionWithSslErrors.
    destruct af; [left; reflexivity|].
    destruct (sslError st5 =? SSL_ERROR_SSL); [right|left]; reflexivity.
Qed.

(** A read that waits for the socket once and then meets end of stream,
    and the same read meeting a protocol error instead. *)
Lemma read_eof_is_not_an_error_witness :
  16 <> 0
  /\ pending fresh = None
  /\ sslRead_turns waited_once 16 0 (set_sslError SSL_ERROR_NONE fresh) = Some after_wait
  /\ aliveAndKicking (appData after_wait) <> 0
  /\ reaches_engine eof_turn = true
  /\ clean_eof (it_step eof_turn) || fatal (it_step eof_turn) = true
  /\ returned (NativeCrypto_SSL_read (waited_once ++ [eof_turn]) false attached
                 true true true 16 0 fresh) = Some (-1)
  /\ raised (NativeCrypto_SSL_read (waited_once ++ [eof_turn]) false attached
               true true true 16 0 fresh) = Some None
  /\ raised (NativeCrypto_SSL_read (waited_once ++ [fatal_turn]) false attached
               true true true 16 0 fresh) = Some (Some SSLProtocolException).
Proof.
  assert (H1 : 16 <> 0) by lia.
  assert (H2 : pending fresh = None) by reflexivity.
  assert (H3 : sslRead_turns waited_once 16 0 (set_sslError SSL_ERROR_NONE fresh)
               = Some after_wait) by (vm_compute; reflexivity).
  assert (H4 : aliveAndKicking (appData after_wait) <> 0) by (vm_compute; discriminate).
  assert (H5 : reaches_engine eof_turn = true) by reflexivity.
  assert (H6 : clean_eof (it_step eof_turn) || fatal (it_step eof_turn) = true)
    by reflexivity.
  destruct (read_eof_is_not_an_error waited_once eof_turn [] false 16 0 fresh after_wait
              H1 H2 H3 H4 H5 H6) as (_ & R & C).
  change (clean_eof (it_step eof_turn)) with true in C. cbv iota in C.
  destruct C as (_ & C).
  repeat (split; [assumption|]).
  vm_compute. reflexivity.
Defined.

(** ** End of stream on write *)

(** The write turn in which the engine reports end of stream returns -1. *)
Lemma sslWrite_body_eof it buf len t st :
  reaches_engine it = true -> pending st = None ->
  clean_eof (it_step it) = true ->
  sslWrite_body it buf len t st
  = Return (-1) (stepped it (EvSSL_write buf len (step_result (it_step it))) st).
Proof.
  intros R P H. rewrite (sslWrite_body_engine it buf len t st R P). cbv zeta.
  unfold clean_eof in H. unfold syscall_case.
  destruct (reported (it_step it) =? SSL_ERROR_ZERO_RETURN) eqn:Z6.
  - apply Z.eqb_eq in Z6. rewrite Z6. reflexivity.
  - cbn [orb] in H. apply andb_prop in H as (S5 & R0).
    apply Z.eqb_eq in S5. rewrite S5, R0. reflexivity.
Qed.

(** Whatever came before, a write that meets end of stream stops with -1
    in sslWrite, and its entry point raises nothing for it. *)
Lemma write_eof_raises_nothing pre it post af len t st buf1 len1 st1 :
  len <> 0 ->
  pending st = None ->
  sslWrite_turns pre 0 len t (set_sslError SSL_ERROR_NONE st) = Some (buf1, len1, st1) ->
  aliveAndKicking (appData st1) <> 0 ->
  0 < len1 ->
  reaches_engine it = true ->
  clean_eof (it_step it) = true ->
  returned (sslWrite (pre ++ it :: post) (mkSSL true) len t (set_sslError SSL_ERROR_NONE st))
  = Some (-1)
  /\ raised_by (NativeCrypto_SSL_write (pre ++ it :: post) af attached true true true len t st)
     = Some None.
Proof.
  intros L P E A L1 R H.
  apply Z.eqb_neq in L, A. apply Z.gtb_lt in L1.
  destruct (sslWrite_loop_app pre (it :: post) 0 len t _ _ _ st1 E) as (EL & P1).
  specialize (P1 P).
  destruct (reaches_engine_inv it R) as (_ & _ & T).
  destruct (stepped_facts it (EvSSL_write buf1 len1 (step_result (it_step it))) st1 T P1)
    as (P5 & _).
  unfold NativeCrypto_SSL_write. cbn [attached check_arguments to_SSL negb].
  unfold sslWrite. rewrite L. cbn [app_data negb]. rewrite EL.
  cbn [sslWrite_loop]. rewrite A, L1. cbn [negb andb].
  rewrite (sslWrite_body_eof it buf1 len1 t st1 R P1 H).
  cbn. rewrite P5. auto.
Qed.

(** C2, the code at the failing input.  The engine answers zero-return
    to a write of ten bytes: sslWrite returns -1, and
    NativeCrypto_SSL_write returns to Java with no exception pending, as
    it does after a write that the engine accepted whole; the read that
    meets the same answer returns the sentinel -1, also without an
    exception. *)
Lemma write_eof_is_not_surfaced :
  returned (sslWrite peer_closed (mkSSL true) 10 0 fresh) = Some (-1)
  /\ raised_by (NativeCrypto_SSL_write peer_closed false attached true true true 10 0 fresh)
     = Some None
  /\ raised_by (NativeCrypto_SSL_write [turn (moves 10) []] false attached
                  true true true 10 0 fresh) = Some None
  /\ returned (NativeCrypto_SSL_read peer_closed false attached true true true 10 0 fresh)
     = Some (-1)
  /\ raised (NativeCrypto_SSL_read peer_closed false attached true true true 10 0 fresh)
     = Some None.
Proof. vm_compute. repeat split. Qed.

(** ** Repeated interrupts *)

Lemma NativeCrypto_SSL_interrupt_attached ws1 ws2 st :
  let st' := NativeCrypto_SSL_interrupt ws1 ws2 attached st in
  aliveAndKicking (appData st') = 0
  /\ fdsEmergency (appData st')
     = (fdsEmergency (appData st) + (tokens_of (settled ws1) + tokens_of (settled ws2)))%nat
  /\ trace st'
     = repeat EvPipeWrite (S (eintr_prefix ws2) + S (eintr_prefix ws1)) ++ trace st.
Proof.
  cbn -[sslNotify]. set (st0 := set_alive 0 st).
  destruct (sslNotify_same_flags ws1 st0) as (A1 & _).
  destruct (sslNotify_same_flags ws2 (sslNotify ws1 st0)) as (A2 & _).
  split; [rewrite A2, A1; reflexivity|]. split.
  - rewrite !sslNotify_pipe. cbn. lia.
  - rewrite !sslNotify_trace. rewrite repeat_app, <- app_assoc. reflexivity.
Qed.

Lemma interrupt_calls_attached calls : forall st,
  let st' := interrupt_calls calls attached st in
  (calls <> [] -> aliveAndKicking (appData st') = 0)
  /\ waitingThreads (appData st') = waitingThreads (appData st)
  /\ callbackState (appData st') = callbackState (appData st)
  /\ pending st' = pending st
  /\ sslError st' = sslError st
  /\ errno st' = errno st
  /\ fdsEmergency (appData st') = (fdsEmergency (appData st) + tokens_written calls)%nat
  /\ trace st' = repeat EvPipeWrite (writes_made calls) ++ trace st.
Proof.
  induction calls as [|[ws1 ws2] rest IH]; intro st.
  - cbn. repeat split; try lia. intro H. contradiction.
  - cbn [interrupt_calls tokens_written writes_made].
    destruct (NativeCrypto_SSL_interrupt_attached ws1 ws2 st) as (A & K & T).
    destruct (NativeCrypto_SSL_interrupt_flags ws1 ws2 attached st) as (W & C & P & S & E).
    set (st1 := NativeCrypto_SSL_interrupt ws1 ws2 attached st) in *.
    destruct (IH st1) as (A' & W' & C' & P' & S' & E' & K' & T').
    repeat split; try congruence.
    + intros _. destruct rest as [|c rest']; [exact A|]. apply A'. discriminate.
    + rewrite K', K. lia.
    + rewrite T', T. rewrite !repeat_app, <- !app_assoc. reflexivity.
Qed.

Lemma interrupt_calls_detached calls : forall st,
  interrupt_calls calls None st = st
  /\ interrupt_calls calls (Some (mkSSL false)) st = st.
Proof.
  induction calls as [|[ws1 ws2] rest IH]; intro st; [split; reflexivity|].
  cbn. apply IH.
Qed.

Lemma tokens_written_all_succeed n : tokens_written (repeat ([], []) n) = (2 * n)%nat.
Proof. induction n as [|n IH]; [reflexivity|]. cbn [repeat tokens_written]. rewrite IH. cbn. lia. Qed.

(** *** The pipe as the kernel keeps it *)

Lemma settled_eintr ws : settled (WriteFail EINTR :: ws) = settled ws.
Proof. reflexivity. Qed.

Lemma sslNotify_loop_blocking_spec capacity ws : forall st,
  (fdsEmergency (appData st) <= capacity)%nat ->
  sslNotify_loop_blocking capacity ws st
  = if has_room capacity st (tokens_of (settled ws)) then Some (sslNotify_loop ws st)
    else None.
Proof.
  unfold has_room.
  induction ws as [|o ws IH]; intros st B; cbn [sslNotify_loop_blocking sslNotify_loop].
  - unfold sys_write_blocking, settled. cbn [eintr_prefix nth tokens_of set_errno appData].
    destruct (Nat.ltb_spec (fdsEmergency (appData st)) capacity);
      destruct (Nat.leb_spec (fdsEmergency (appData st) + 1) capacity); try lia; reflexivity.
  - destruct o as [|e].
    + unfold sys_write_blocking, settled. cbn [eintr_prefix nth tokens_of set_errno appData].
      destruct (Nat.ltb_spec (fdsEmergency (appData st)) capacity);
        destruct (Nat.leb_spec (fdsEmergency (appData st) + 1) capacity); try lia; reflexivity.
    + cbn [sys_write_blocking].
      assert (E : errno (sys_write (WriteFail e) (set_errno 0 st)) = e) by reflexivity.
      rewrite E.
      destruct (Z.eqb_spec e EINTR) as [->|N].
      * rewrite settled_eintr. change (EINTR =? EINTR) with true. cbv iota.
        rewrite (IH (sys_write (WriteFail EINTR) (set_errno 0 st)) B). reflexivity.
      * unfold settled. cbn [eintr_prefix].
        replace (e =? EINTR) with false by (symmetry; apply Z.eqb_neq; exact N).
        cbn [nth tokens_of].
        destruct (Nat.leb_spec (fdsEmergency (appData st) + 0) capacity); [reflexivity|lia].
Qed.

Lemma sslNotify_blocking_spec capacity ws st :
  (fdsEmergency (appData st) <= capacity)%nat ->
  sslNotify_blocking capacity ws st
  = if has_room capacity st (tokens_of (settled ws)) then Some (sslNotify ws st) else None.
Proof.
  intro B. unfold sslNotify_blocking. rewrite (sslNotify_loop_blocking_spec capacity ws st B).
  destruct (has_room capacity st (tokens_of (settled ws))); reflexivity.
Qed.

Lemma NativeCrypto_SSL_interrupt_blocking_spec capacity ws1 ws2 st :
  (fdsEmergency (appData st) <= capacity)%nat ->
  NativeCrypto_SSL_interrupt_blocking capacity ws1 ws2 attached st
  = if has_room capacity st (tokens_of (settled ws1) + tokens_of (settled ws2))
    then Some (NativeCrypto_SSL_interrupt ws1 ws2 attached st) else None.
Proof.
  intro B. unfold NativeCrypto_SSL_interrupt_blocking, NativeCrypto_SSL_interrupt.
  cbn [attached to_SSL app_data].
  set (st0 := set_alive 0 st).
  assert (B0 : (fdsEmergency (appData st0) <= capacity)%nat) by exact B.
  rewrite (sslNotify_blocking_spec capacity ws1 st0 B0).
  unfold has_room.
  change (fdsEmergency (appData st0)) with (fdsEmergency (appData st)).
  destruct (Nat.leb_spec (fdsEmergency (appData st) + tokens_of (settled ws1)) capacity)
    as [R1|R1].
  - assert (B1 : (fdsEmergency (appData (sslNotify ws1 st0)) <= capacity)%nat).
    { rewrite sslNotify_pipe. exact R1. }
    rewrite (sslNotify_blocking_spec capacity ws2 _ B1). unfold has_room.
    rewrite sslNotify_pipe.
    change (fdsEmergency (appData st0)) with (fdsEmergency (appData st)).
    rewrite Nat.add_assoc. reflexivity.
  - destruct (Nat.leb_spec (fdsEmergency (appData st)
                            + (tokens_of (settled ws1) + tokens_of (settled ws2))) capacity);
      [lia|reflexivity].
Qed.

Lemma interrupt_calls_blocking_spec capacity calls : forall st,
  (fdsEmergency (appData st) <= capacity)%nat ->
  interrupt_calls_blocking capacity calls attached st
  = if has_room capacity st (tokens_written calls)
    then Some (interrupt_calls calls attached st) else None.
Proof.
  induction calls as [|[ws1 ws2] rest IH]; intros st B;
    cbn [interrupt_calls_blocking interrupt_calls tokens_written].
  - unfold has_room. rewrite Nat.add_0_r.
    destruct (Nat.leb_spec (fdsEmergency (appData st)) capacity); [reflexivity|lia].
  - rewrite (NativeCrypto_SSL_interrupt_blocking_spec capacity ws1 ws2 st B).
    unfold has_room.
    destruct (NativeCrypto_SSL_interrupt_attached ws1 ws2 st) as (_ & K & _).
    destruct (Nat.leb_spec (fdsEmergency (appData st)
                            + (tokens_of (settled ws1) + tokens_of (settled ws2))) capacity)
      as [R|R].
    + rewrite IH by (rewrite K; exact R). unfold has_room. rewrite K.
      replace (fdsEmergency (appData st) + (tokens_of (settled ws1) + tokens_of (settled ws2))
               + tokens_written rest)%nat
        with (fdsEmergency (appData st)
              + (tokens_of (settled ws1) + tokens_of (settled ws2) + tokens_written rest))%nat
        by lia.
      reflexivity.
    + destruct (Nat.leb_spec (fdsEmergency (appData st)
                 + (tokens_of (settled ws1) + tokens_of (settled ws2) + tokens_written rest))
                 capacity); [lia|reflexivity].
Qed.

Lemma interrupt_calls_blocking_detached capacity calls : forall st,
  interrupt_calls_blocking capacity calls None st = Some st
  /\ interrupt_calls_blocking capacity calls (Some (mkSSL false)) st = Some st.
Proof.
  induction calls as [|[ws1 ws2] rest IH]; intro st; [split; reflexivity|].
  cbn. apply IH.
Qed.

(** C3, as the code has it.  On a handle with its AppData, one call of
    NativeCrypto_SSL_interrupt clears the flag and runs sslNotify twice:
    two writes on the pipe when none is interrupted, two tokens when both
    succeed.  Repeated calls are idempotent on everything but the tokens
    each of them queues: they keep the flag cleared and leave the waiter
    count, errno, the pending exception and the callback state as the
    first call left them, and they raise nothing.  On a null handle or a
    handle without AppData every call returns and leaves the state as it
    is.  Whether the calls block is a matter of room in the pipe, whose
    write end is a blocking descriptor: on a pipe of [capacity] bytes the
    calls [c :: calls] all return exactly when the pipe has room for the
    tokens they write, and then they end in the state described; n calls
    whose writes succeed need room for 2n tokens. *)
Theorem interrupt_repeated :
  forall (capacity : nat) (c : list write_outcome * list write_outcome)
         (calls : list (list write_outcome * list write_outcome)) (st : State) (n : nat),
  (fdsEmergency (appData st) <= capacity)%nat ->
  aliveAndKicking (appData (interrupt_calls [c] attached st)) = 0
  /\ aliveAndKicking (appData (interrupt_calls (c :: calls) attached st)) = 0
  /\ waitingThreads (appData (interrupt_calls (c :: calls) attached st))
     = waitingThreads (appData (interrupt_calls [c] attached st))
  /\ callbackState (appData (interrupt_calls (c :: calls) attached st))
     = callbackState (appData (interrupt_calls [c] attached st))
  /\ errno (interrupt_calls (c :: calls) attached st) = errno (interrupt_calls [c] attached st)
  /\ pending (interrupt_calls (c :: calls) attached st)
     = pending (interrupt_calls [c] attached st)
  /\ pending (interrupt_calls (c :: calls) attached st) = pending st
  /\ fdsEmergency (appData (interrupt_calls (c :: calls) attached st))
     = (fdsEmergency (appData (interrupt_calls [c] attached st)) + tokens_written calls)%nat
  /\ trace (interrupt_calls (c :: calls) attached st)
     = repeat EvPipeWrite (writes_made (c :: calls)) ++ trace st
  /\ trace (interrupt_calls [([], [])] attached st) = EvPipeWrite :: EvPipeWrite :: trace st
  /\ fdsEmergency (appData (interrupt_calls (repeat ([], []) n) attached st))
     = (fdsEmergency (appData st) + 2 * n)%nat
  /\ interrupt_calls (c :: calls) None st = st
  /\ interrupt_calls (c :: calls) (Some (mkSSL false)) st = st
  /\ interrupt_calls_blocking capacity (c :: calls) attached st
     = (if has_room capacity st (tokens_written (c :: calls))
        then Some (interrupt_calls (c :: calls) attached st) else None)
  /\ interrupt_calls_blocking capacity (repeat ([], []) n) attached st
     = (if has_room capacity st (2 * n)
        then Some (interrupt_calls (repeat ([], []) n) attached st) else None)
  /\ interrupt_calls_blocking capacity (c :: calls) None st = Some st
  /\ interrupt_calls_blocking capacity (c :: calls) (Some (mkSSL false)) st = Some st.
Proof.
  intros capacity c calls st n B.
  destruct (interrupt_calls_attached [c] st) as (A1 & W1 & C1 & P1 & S1 & E1 & K1 & T1).
  destruct (interrupt_calls_attached (c :: calls) st) as (A & W & C & P & S & E & K & T).
  destruct (interrupt_calls_attached (repeat ([], []) n) st) as (_ & _ & _ & _ & _ & _ & Kn & _).
  destruct (interrupt_calls_detached (c :: calls) st) as (D1 & D2).
  destruct (interrupt_calls_blocking_detached capacity (c :: calls) st) as (D3 & D4).
  pose proof (interrupt_calls_blocking_spec capacity (c :: calls) st B) as R.
  pose proof (interrupt_calls_blocking_spec capacity (repeat ([], []) n) st B) as Rn.
  rewrite tokens_written_all_succeed in Rn.
  split; [apply A1; discriminate|]. split; [apply A; discriminate|].
  repeat split; try congruence.
  - rewrite K, K1. destruct c as [ws1 ws2]. cbn [tokens_written]. lia.
  - rewrite Kn, tokens_written_all_succeed. reflexivity.
Qed.

(** Two calls on a fresh connection: both return, the flag is cleared and
    four tokens are in the pipe. *)
Lemma interrupt_repeated_witness :
  (fdsEmergency (appData fresh) <= DEFAULT_PIPE_CAPACITY)%nat
  /\ option_map (fun s => (aliveAndKicking (appData s), fdsEmergency (appData s)))
       (interrupt_calls_blocking DEFAULT_PIPE_CAPACITY [([], []); ([], [])] attached fresh)
     = Some (0, 4%nat)
  /\ pending (interrupt_calls [([], []); ([], [])] attached fresh) = None.
Proof.
  assert (B : (fdsEmergency (appData fresh) <= DEFAULT_PIPE_CAPACITY)%nat)
    by (cbn [fresh appData fdsEmergency]; apply Nat.le_0_l).
  destruct (interrupt_repeated DEFAULT_PIPE_CAPACITY ([], []) [([], [])] fresh 2 B)
    as (_ & _ & _ & _ & _ & _ & P & _ & _ & _ & _ & _ & _ & R & _).
  assert (H : has_room DEFAULT_PIPE_CAPACITY fresh (tokens_written [([], []); ([], [])]) = true)
    by (vm_compute; reflexivity).
  rewrite H in R.
  split; [exact B|]. split; [rewrite R; reflexivity|exact P].
Defined.

(** C3 as stated fails: the call can block.  On Linux a pipe holds 65536
    bytes.  After 32768 calls on a connection nobody waits on, each of
    which has returned, the pipe is full, the waiter count is still 0,
    and the next call does not return from its first write. *)
Lemma interrupt_blocks_on_full_pipe :
  match interrupted_32768_times with
  | Some st =>
      fdsEmergency (appData st) = DEFAULT_PIPE_CAPACITY
      /\ waitingThreads (appData st) = 0
      /\ aliveAndKicking (appData st) = 0
      /\ sslNotify_blocking DEFAULT_PIPE_CAPACITY [] st = None
      /\ NativeCrypto_SSL_interrupt_blocking DEFAULT_PIPE_CAPACITY [] [] attached st = None
  | None => False
  end.
Proof.
  unfold interrupted_32768_times.
  set (calls := repeat (@nil write_outcome, @nil write_outcome) (Z.to_nat 32768)).
  assert (TW : tokens_written calls = DEFAULT_PIPE_CAPACITY).
  { unfold calls. rewrite tokens_written_all_succeed. unfold DEFAULT_PIPE_CAPACITY. lia. }
  assert (NE : calls <> []).
  { unfold calls. destruct (Z.to_nat 32768) eqn:N; [lia|discriminate]. }
  assert (B : (fdsEmergency (appData fresh) <= DEFAULT_PIPE_CAPACITY)%nat)
    by apply Nat.le_0_l.
  rewrite (interrupt_calls_blocking_spec DEFAULT_PIPE_CAPACITY calls fresh B).
  destruct (interrupt_calls_attached calls fresh) as (A & W & _ & _ & _ & _ & K & _).
  change (fdsEmergency (appData fresh)) with O in K. rewrite Nat.add_0_l, TW in K.
  unfold has_room at 1. change (fdsEmergency (appData fresh)) with O.
  rewrite Nat.add_0_l, TW, Nat.leb_refl.
  set (st := interrupt_calls calls attached fresh) in *.
  assert (B' : (fdsEmergency (appData st) <= DEFAULT_PIPE_CAPACITY)%nat)
    by (rewrite K; apply Nat.le_refl).
  split; [exact K|]. split; [exact W|]. split; [exact (A NE)|].
  split.
  - rewrite (sslNotify_blocking_spec DEFAULT_PIPE_CAPACITY [] st B').
    unfold has_room. rewrite K.
    change (tokens_of (settled [])) with 1%nat.
    replace (DEFAULT_PIPE_CAPACITY + 1 <=? DEFAULT_PIPE_CAPACITY)%nat with false
      by (symmetry; apply Nat.leb_gt; lia).
    reflexivity.
  - rewrite (NativeCrypto_SSL_interrupt_blocking_spec DEFAULT_PIPE_CAPACITY [] [] st B').
    unfold has_room. rewrite K.
    change (tokens_of (settled []) + tokens_of (settled []))%nat with 2%nat.
    replace (DEFAULT_PIPE_CAPACITY + 2 <=? DEFAULT_PIPE_CAPACITY)%nat with false
      by (symmetry; apply Nat.leb_gt; lia).
    reflexivity.
Qed.

(** ** The waiter count across the handshake *)

Lemma throwSSLExceptionWithSslErrors_waiting af code k st :
  (forall s, waitingThreads (appData (k s)) = waitingThreads (appData s)) ->
  waitingThreads (appData (throwSSLExceptionWithSslErrors af code k st))
  = waitingThreads (appData st).
Proof.
  intro K. unfold throwSSLExceptionWithSslErrors.
  destruct af; [apply K|]. destruct (code =? SSL_ERROR_SSL); [reflexivity|apply K].
Qed.

Lemma handshake_body_waiting it af t st :
  hs_flow_waiting (handshake_body it af t st) (waitingThreads (appData st)).
Proof.
  unfold handshake_body, setCallbackState.
  destruct (it_fd_closed it); cbn [NetFd_isClosed negb]; [reflexivity|].
  set (st3 := clearCallbackState (SSL_do_handshake _ _)).
  assert (W3 : waitingThreads (appData st3) = waitingThreads (appData st)).
  { unfold st3, SSL_do_handshake.
    cbn [clearCallbackState set_callbackState set_appData appData waitingThreads].
    rewrite engine_call_waiting. reflexivity. }
  destruct (ExceptionCheck st3); [exact W3|].
  destruct (step_result (it_step it) =? 1); [exact W3|].
  destruct (errno st3 =? EINTR); [exact W3|].
  set (st4 := OpenSslError_reset _ _ st3).
  assert (W4 : waitingThreads (appData st4) = waitingThreads (appData st)).
  { unfold st4, OpenSslError_reset. destruct (_ <=? 0); exact W3. }
  destruct ((sslError st4 =? SSL_ERROR_WANT_READ) || (sslError st4 =? SSL_ERROR_WANT_WRITE));
    [|exact W4].
  match goal with |- context [sslSelect ?a ?d ?c ?tm ?s] =>
    destruct (sslSelect a d c tm s) as [[r st']|] eqn:E end; [|exact I].
  apply sslSelect_decrements in E.
  cbn [set_waiting set_appData appData waitingThreads] in E.
  assert (W : waitingThreads (appData st') = waitingThreads (appData st)) by lia.
  destruct (r =? THROWN_EXCEPTION); [exact W|].
  destruct (r =? -1).
  { cbn [hs_flow_waiting safeSslClear log appData].
    rewrite throwSSLExceptionWithSslErrors_waiting; [exact W|reflexivity]. }
  destruct (r =? 0); exact W.
Qed.

Lemma handshake_loop_waiting script : forall af t ret st,
  hs_result_waiting (handshake_loop script af t ret st) (waitingThreads (appData st)).
Proof.
  induction script as [|it rest IH]; intros af t ret st; cbn [handshake_loop];
    destruct (negb (aliveAndKicking (appData st) =? 0)); try reflexivity.
  pose proof (handshake_body_waiting it af t st) as B.
  destruct (handshake_body it af t st) as [ret' st'|ret' st'|st'|]; cbn in B |- *;
    try assumption.
  rewrite <- B. apply IH.
Qed.

Lemma NativeCrypto_SSL_do_handshake_waiting setup script af ssl fdObject shc t st r st' :
  NativeCrypto_SSL_do_handshake setup script af ssl fdObject shc t st = Some (r, st') ->
  waitingThreads (appData st') = waitingThreads (appData st).
Proof.
  unfold NativeCrypto_SSL_do_handshake.
  destruct ssl as [ssl|]; cbn [to_SSL].
  2:{ intro E. injection E as _ <-. reflexivity. }
  destruct fdObject; cbn [negb]. 2:{ intro E. injection E as _ <-. reflexivity. }
  destruct shc; cbn [negb]. 2:{ intro E. injection E as _ <-. reflexivity. }
  destruct (hs_fd_closed setup); cbn [NetFd_isClosed].
  { intro E. injection E as _ <-. reflexivity. }
  destruct (hs_set_fd setup =? 1); cbn [negb].
  2:{ intro E. injection E as _ <-. cbn [safeSslClear log appData].
      rewrite throwSSLExceptionWithSslErrors_waiting; reflexivity. }
  destruct (hs_setBlocking setup); cbn [negb].
  2:{ intro E. injection E as _ <-. reflexivity. }
  destruct (app_data ssl); cbn [negb].
  2:{ intro E. injection E as _ <-. reflexivity. }
  match goal with |- context [handshake_loop ?s ?a ?tm ?r0 ?s0] =>
    pose proof (handshake_loop_waiting s a tm r0 s0) as L;
    destruct (handshake_loop s a tm r0 s0) as [ret st1|st1|] end;
    cbn in L; [| |discriminate].
  - destruct (ret =? 0).
    + intro E. injection E as _ <-. cbn [safeSslClear log appData].
      match goal with |- context [if ?b then _ else _] => destruct b end;
        [exact L|].
      rewrite throwSSLExceptionWithSslErrors_waiting; [exact L|reflexivity].
    + destruct (ret <? 0); intro E; injection E as _ <-; [|exact L].
      cbn [safeSslClear log appData].
      rewrite throwSSLExceptionWithSslErrors_waiting; [exact L|reflexivity].
  - intro E. injection E as _ <-. exact L.
Qed.

(** C9. A call of sslSelect that returns has decremented waitingThreads
    exactly once, whether it returns THROWN_EXCEPTION for a closed
    descriptor, -1 for a poll error, 0 for a timeout or the number of
    ready descriptors.  The callers count themselves in before they call
    it, so every run of the read loop, of the write loop and of the
    handshake that comes to an end leaves waitingThreads as it found
    it. *)
Theorem waiting_count_is_restored :
  forall (attempts : list poll_attempt) (rs : list read_outcome) (type t : Z) (st : State)
         (script : list iteration) (buf len : Z)
         (setup : handshake_setup) (af : bool) (ssl : option SSL) (fdObject shc : bool),
  select_returns attempts = true ->
  (exists r st',
     sslSelect attempts rs type t st = Some (r, st')
     /\ waitingThreads (appData st') = waitingThreads (appData st) - 1
     /\ (r = THROWN_EXCEPTION \/ r = -1 \/ r = 0 \/ r = 1 \/ r = 2))
  /\ loop_waiting waiting_of (sslRead_loop script len t st) (waitingThreads (appData st))
  /\ loop_waiting waiting_of3 (sslWrite_loop script buf len t st)
       (waitingThreads (appData st))
  /\ match NativeCrypto_SSL_do_handshake setup script af ssl fdObject shc t st with
     | Some (_, st') => waitingThreads (appData st') = waitingThreads (appData st)
     | None => True
     end.
Proof.
  intros attempts rs type t st script buf len setup af ssl fdObject shc H.
  split.
  { destruct (sslSelect_spec attempts rs type t st H) as (r & st' & E & W & _ & O).
    exists r, st'. auto. }
  split; [apply sslRead_loop_waiting|].
  split; [apply sslWrite_loop_waiting|].
  destruct (NativeCrypto_SSL_do_handshake setup script af ssl fdObject shc t st)
    as [[r st']|] eqn:E; [|exact I].
  eapply NativeCrypto_SSL_do_handshake_waiting. exact E.
Qed.

(** A wait that times out takes the one waiter off the count; the
    interrupted read leaves the count at 0. *)
Lemma waiting_count_is_restored_witness :
  select_returns eintr_then_timeout = true
  /\ waiting_after (sslSelect eintr_then_timeout [] SSL_ERROR_WANT_READ 5000 one_waiter)
     = Some 0
  /\ loop_waiting waiting_of (sslRead_loop interrupted_read 16 0 fresh) 0.
Proof.
  assert (H : select_returns eintr_then_timeout = true) by reflexivity.
  destruct (waiting_count_is_restored eintr_then_timeout [] SSL_ERROR_WANT_READ 5000
              one_waiter interrupted_read 0 16 (mkSetup false 1 true) false attached
              true true H) as ((r & st' & E & W & _) & _).
  destruct (waiting_count_is_restored eintr_then_timeout [] SSL_ERROR_WANT_READ 0
              fresh interrupted_read 0 16 (mkSetup false 1 true) false attached
              true true H) as (_ & R & _).
  split; [exact H|]. split; [|exact R].
  rewrite E. cbn [waiting_after option_map snd]. rewrite W. reflexivity.
Defined.

(** ** Partial writes *)

(** *** The calls of SSL_write are those of the write loop alone *)













(** *** One turn of the write loop *)

Lemma honest_reported it :
  honest it = true ->
  (reported (it_step it) =? SSL_ERROR_NONE) = (0 <? step_result (it_step it)).
Proof.
  unfold honest, reported. intro H.
  destruct (Z.leb_spec (step_result (it_step it)) 0) as [L|L].
  - assert (Z0 : (0 <? step_result (it_step it)) = false) by (apply Z.ltb_ge; exact L).
    rewrite Z0 in H |- *. cbn [orb] in H. apply negb_true_iff in H. exact H.
  - assert (Z0 : (0 <? step_result (it_step it)) = true) by (apply Z.ltb_lt; exact L).
    rewrite Z0. reflexivity.
Qed.





(** *** The loop keeps the pointer at the first unconfirmed byte *)





(** *** The engine accepts the buffer chunk by chunk *)






Lemma firstn_plus {A : Type} (a b : nat) (l : list A) :
  firstn (a + b) l = firstn a l ++ firstn b (skipn a l).
Proof.
  revert l. induction a as [|a IH]; intro l; [reflexivity|].
  destruct l as [|x l]; cbn [Nat.add firstn skipn app].
  - rewrite firstn_nil. reflexivity.
  - rewrite IH. reflexivity.
Qed.


(** *** A write that no other thread interrupts keeps the connection alive *)












(** * Further properties of the I/O coordinator *)

(** ** What a wait leaves pending *)

Lemma sslSelect_poll_thrown attempts : forall type t st r rev st',
  sslSelect_poll attempts type t st = Some (r, rev, st') ->
  r = THROWN_EXCEPTION -> pending st' = Some SocketException.
Proof.
  induction attempts as [|a rest IH]; intros type t st r rev st' E N; [discriminate|].
  cbn [sslSelect_poll] in E.
  destruct (pa_closed_before a); cbn [NetFd_isClosed] in E.
  { injection E as _ _ <-. reflexivity. }
  match type of E with context [poll ?ev ?tm a st] => set (st1 := poll ev tm a st) in * end.
  destruct (pa_outcome a) as [e|r0 r1]; cbn [poll_result poll_revents1] in E.
  - change (-1 =? -1) with true in E. cbv iota in E.
    destruct (pa_closed_after a); cbn [NetFd_isClosed] in E.
    { injection E as _ _ <-. reflexivity. }
    destruct (negb (errno st1 =? EINTR)).
    + exfalso. unfold THROWN_EXCEPTION in N. congruence.
    + eapply IH; eassumption.
  - exfalso. unfold THROWN_EXCEPTION in N.
    destruct (r0 =? 0), (r1 =? 0); cbn in E; congruence.
Qed.

(** X1. sslSelect returns THROWN_EXCEPTION exactly when one of its
    closed-checks has left a SocketException pending; with any other
    result the pending exception is the one it found. *)
Theorem sslSelect_thrown_means_pending :
  forall (attempts : list poll_attempt) (rs : list read_outcome) (type t : Z) (st : State),
  select_returns attempts = true ->
  exists r st',
    sslSelect attempts rs type t st = Some (r, st')
    /\ if r =? THROWN_EXCEPTION then pending st' = Some SocketException
       else pending st' = pending st.
Proof.
  intros attempts rs type t st H.
  destruct (sslSelect_spec attempts rs type t st H) as (r & st' & E & _).
  exists r, st'. split; [exact E|].
  destruct (Z.eqb_spec r THROWN_EXCEPTION) as [N|N].
  - unfold sslSelect in E.
    destruct (sslSelect_poll attempts type t st) as [[[r1 rev] st1]|] eqn:EP; [|discriminate].
    injection E as -> <-.
    rewrite <- (sslSelect_poll_thrown _ _ _ _ _ _ _ EP N).
    rewrite N. reflexivity.
  - eapply sslSelect_pending; eassumption.
Qed.

(** A wait whose descriptor is closed under it, and one that times out. *)
Lemma sslSelect_thrown_means_pending_witness :
  select_returns closed_during_poll = true
  /\ returned (sslSelect closed_during_poll [] SSL_ERROR_WANT_READ 0 one_waiter)
     = Some THROWN_EXCEPTION
  /\ raised (sslSelect closed_during_poll [] SSL_ERROR_WANT_READ 0 one_waiter)
     = Some (Some SocketException).
Proof.
  assert (H : select_returns closed_during_poll = true) by reflexivity.
  destruct (sslSelect_thrown_means_pending closed_during_poll [] SSL_ERROR_WANT_READ 0
              one_waiter H) as (r & st' & E & P).
  split; [exact H|].
  assert (E' : sslSelect closed_during_poll [] SSL_ERROR_WANT_READ 0 one_waiter
               = Some (THROWN_EXCEPTION, closed_during_poll_end))
    by (vm_compute; reflexivity).
  rewrite E in E'. injection E' as -> ->.
  rewrite E. cbn [returned raised option_map fst snd].
  split; [reflexivity|]. change (THROWN_EXCEPTION =? THROWN_EXCEPTION) with true in P.
  cbv iota in P. rewrite P. reflexivity.
Defined.

(** ** The liveness flag and the callback state *)

Lemma quiet_refl st : quiet st st.
Proof. split; [reflexivity|left; reflexivity]. Qed.

(** Closes [quiet] and [tidy] goals between states that differ in other
    fields only. *)
Ltac same_fields :=
  first [ split; [reflexivity | left; reflexivity]
        | split; [intro; assumption | left; reflexivity] ].

Lemma quiet_trans st1 st2 st3 : quiet st1 st2 -> quiet st2 st3 -> quiet st1 st3.
Proof.
  intros (C1 & A1) (C2 & A2). split; [congruence|].
  destruct A2 as [A2|A2]; [|right; exact A2].
  destruct A1 as [A1|A1]; [left|right]; congruence.
Qed.

Lemma cleared_quiet st1 st2 st3 : cleared st1 st2 -> quiet st2 st3 -> cleared st1 st3.
Proof.
  intros (C1 & A1) (C2 & A2). split; [congruence|].
  destruct A2 as [A2|A2]; [|right; exact A2].
  destruct A1 as [A1|A1]; [left|right]; congruence.
Qed.

Lemma quiet_tidy st st' : quiet st st' -> tidy st st'.
Proof. intros (C & A). split; [congruence|exact A]. Qed.

Lemma cleared_tidy st st' : cleared st st' -> tidy st st'.
Proof. intros (C & A). split; [intros _; exact C|exact A]. Qed.

Lemma tidy_trans st1 st2 st3 : tidy st1 st2 -> tidy st2 st3 -> tidy st1 st3.
Proof.
  intros (C1 & A1) (C2 & A2). split; [auto|].
  destruct A2 as [A2|A2]; [|right; exact A2].
  destruct A1 as [A1|A1]; [left|right]; congruence.
Qed.

Lemma sslNotify_quiet ws st : quiet st (sslNotify ws st).
Proof.
  destruct (sslNotify_same_flags ws st) as (A & _ & C & _).
  split; [exact C|left; exact A].
Qed.

Lemma concurrent_interrupt_quiet b st : quiet st (concurrent_interrupt b st).
Proof.
  destruct (concurrent_interrupt_flags b st) as (_ & C & _).
  split; [exact C|].
  destruct b; [right|left; reflexivity].
  apply (NativeCrypto_SSL_interrupt_attached [] [] st).
Qed.

Lemma poll_quiet ev t a st : quiet st (poll ev t a st).
Proof.
  unfold poll.
  pose proof (concurrent_interrupt_quiet (pa_interrupt a)
                (log (EvPoll ev (Z.lor POLLIN POLLPRI) t) st)) as Q.
  destruct (pa_outcome a); exact Q.
Qed.

Lemma sslSelect_poll_quiet attempts : forall type t st r rev st',
  sslSelect_poll attempts type t st = Some (r, rev, st') -> quiet st st'.
Proof.
  induction attempts as [|a rest IH]; intros type t st r rev st' E; [discriminate|].
  cbn [sslSelect_poll] in E.
  destruct (pa_closed_before a); cbn [NetFd_isClosed] in E.
  { injection E as _ _ <-. same_fields. }
  match type of E with context [poll ?ev ?tm a st] =>
    pose proof (poll_quiet ev tm a st) as Q; set (st1 := poll ev tm a st) in * end.
  destruct (poll_result (pa_outcome a) =? -1).
  - destruct (pa_closed_after a); cbn [NetFd_isClosed] in E.
    { injection E as _ _ <-. exact Q. }
    destruct (negb (errno st1 =? EINTR)).
    + injection E as _ _ <-. exact Q.
    + eapply quiet_trans; [exact Q|]. eapply IH; eassumption.
  - injection E as _ _ <-. exact Q.
Qed.

Lemma sslSelect_quiet attempts rs type t st r st' :
  sslSelect attempts rs type t st = Some (r, st') -> quiet st st'.
Proof.
  unfold sslSelect.
  destruct (sslSelect_poll attempts type t st) as [[[r1 rev] st1]|] eqn:EP; [|discriminate].
  intro E. injection E as _ <-.
  eapply quiet_trans; [eapply sslSelect_poll_quiet; exact EP|].
  set (st2 := if (r1 >? 0) && negb (Z.land rev POLLIN =? 0)
              then sslSelect_drain rs st1 else st1).
  assert (Q : quiet st1 st2).
  { unfold st2. destruct ((r1 >? 0) && negb (Z.land rev POLLIN =? 0));
      [|apply quiet_refl].
    destruct (sslSelect_drain_frame rs st1) as (_ & _ & A & _ & _ & C).
    split; [exact C|left; exact A]. }
  exact Q.
Qed.

Lemma engine_call_quiet step st : quiet st (engine_call step st).
Proof.
  unfold engine_call.
  eapply quiet_trans; [|apply concurrent_interrupt_quiet].
  destruct (step_throws step); same_fields.
Qed.

Lemma after_step_quiet it st : quiet st (after_step it st).
Proof.
  unfold after_step.
  set (st1 := if step_moved (it_step it) && (waitingThreads (appData st) >? 0)
              then sslNotify (it_notify it) st else st).
  assert (Q : quiet st st1).
  { unfold st1. destruct (step_moved (it_step it) && (waitingThreads (appData st) >? 0));
      [apply sslNotify_quiet|apply quiet_refl]. }
  destruct ((sslError st1 =? SSL_ERROR_WANT_READ) || (sslError st1 =? SSL_ERROR_WANT_WRITE));
    exact Q.
Qed.

Lemma wait_case_tidy {A : Type} (s : A -> State) it t (k : State -> A) st0 st :
  (forall x, s (k x) = x) ->
  cleared st0 st ->
  flow_tidy s (wait_case it t k st) st0.
Proof.
  intros K C. unfold wait_case.
  destruct (sslSelect (it_polls it) (it_drain it) (sslError st) t st) as [[r st']|] eqn:E;
    [|exact I].
  apply sslSelect_quiet in E. pose proof (cleared_tidy _ _ (cleared_quiet _ _ _ C E)) as T.
  destruct (r =? THROWN_EXCEPTION); [exact T|].
  destruct (r =? -1); [exact T|]. destruct (r =? 0); [exact T|].
  cbn. rewrite K. exact T.
Qed.

Lemma syscall_case_tidy {A : Type} (s : A -> State) result (k : State -> A) st0 st :
  (forall x, s (k x) = x) ->
  cleared st0 st ->
  flow_tidy s (syscall_case result k st) st0.
Proof.
  intros K C. apply cleared_tidy in C. unfold syscall_case.
  destruct (result =? 0); [exact C|].
  destruct (errno st =? EINTR); [cbn; rewrite K; exact C|exact C].
Qed.

(** The state at the switch of a turn, and the state handed to
    safeSslClear when a callback threw. *)
Lemma engine_turn_cleared it ev st :
  cleared st (clearCallbackState
                (engine_call (it_step it) (log ev (set_callbackState true (set_errno 0 st)))))
  /\ cleared st
       (after_step it
          (OpenSslError_reset (it_step it) (step_result (it_step it))
             (clearCallbackState
                (engine_call (it_step it)
                   (log ev (set_callbackState true (set_errno 0 st))))))).
Proof.
  pose proof (engine_call_quiet (it_step it)
                (log ev (set_callbackState true (set_errno 0 st)))) as (_ & A).
  set (st2 := engine_call (it_step it) (log ev (set_callbackState true (set_errno 0 st)))) in *.
  assert (C3 : cleared st (clearCallbackState st2)) by (split; [reflexivity|exact A]).
  split; [exact C3|].
  eapply cleared_quiet; [|apply after_step_quiet].
  unfold OpenSslError_reset. destruct (step_result (it_step it) <=? 0); exact C3.
Qed.

Lemma sslRead_body_tidy it len t st :
  flow_tidy (fun s => s) (sslRead_body it len t st) st.
Proof.
  unfold sslRead_body.
  destruct (init_not_finished it); [same_fields|].
  unfold setCallbackState.
  destruct (it_fd_closed it); cbn [NetFd_isClosed negb]; [same_fields|].
  unfold SSL_read.
  destruct (engine_turn_cleared it (EvSSL_read len (step_result (it_step it))) st)
    as (C3 & C5).
  match goal with |- context [ExceptionCheck ?s] => destruct (ExceptionCheck s) end;
    [apply (cleared_tidy _ _ C3)|].
  match type of C5 with cleared _ ?s => set (st5 := s) in * end.
  destruct (sslError st5 =? SSL_ERROR_NONE); [apply (cleared_tidy _ _ C5)|].
  destruct (sslError st5 =? SSL_ERROR_ZERO_RETURN); [apply (cleared_tidy _ _ C5)|].
  destruct ((sslError st5 =? SSL_ERROR_WANT_READ) || (sslError st5 =? SSL_ERROR_WANT_WRITE));
    [apply wait_case_tidy; [reflexivity|exact C5]|].
  destruct (sslError st5 =? SSL_ERROR_SYSCALL);
    [apply syscall_case_tidy; [reflexivity|exact C5]|].
  apply (cleared_tidy _ _ C5).
Qed.

Lemma sslWrite_body_tidy it buf len t st :
  flow_tidy state_of3 (sslWrite_body it buf len t st) st.
Proof.
  unfold sslWrite_body.
  destruct (init_not_finished it); [same_fields|].
  unfold setCallbackState.
  destruct (it_fd_closed it); cbn [NetFd_isClosed negb]; [same_fields|].
  unfold SSL_write.
  destruct (engine_turn_cleared it (EvSSL_write buf len (step_result (it_step it))) st)
    as (C3 & C5).
  match goal with |- context [ExceptionCheck ?s] => destruct (ExceptionCheck s) end;
    [apply (cleared_tidy _ _ C3)|].
  match type of C5 with cleared _ ?s => set (st5 := s) in * end.
  destruct (sslError st5 =? SSL_ERROR_NONE); [apply (cleared_tidy _ _ C5)|].
  destruct (sslError st5 =? SSL_ERROR_ZERO_RETURN); [apply (cleared_tidy _ _ C5)|].
  destruct ((sslError st5 =? SSL_ERROR_WANT_READ) || (sslError st5 =? SSL_ERROR_WANT_WRITE));
    [apply wait_case_tidy; [reflexivity|exact C5]|].
  destruct (sslError st5 =? SSL_ERROR_SYSCALL);
    [apply syscall_case_tidy; [reflexivity|exact C5]|].
  apply (cleared_tidy _ _ C5).
Qed.

Lemma sslRead_loop_tidy script : forall len t st,
  loop_tidy (fun s => s) (sslRead_loop script len t st) st.
Proof.
  induction script as [|it rest IH]; intros len t st; cbn [sslRead_loop];
    destruct (negb (aliveAndKicking (appData st) =? 0));
    try exact I; try same_fields.
  pose proof (sslRead_body_tidy it len t st) as B.
  destruct (sslRead_body it len t st) as [st'| |]; cbn in B |- *; try assumption.
  specialize (IH len t st').
  destruct (sslRead_loop rest len t st') as [s|r s|]; cbn in IH |- *;
    try exact I; eapply tidy_trans; eassumption.
Qed.

Lemma sslWrite_loop_tidy script : forall buf len t st,
  loop_tidy state_of3 (sslWrite_loop script buf len t st) st.
Proof.
  induction script as [|it rest IH]; intros buf len t st; cbn [sslWrite_loop];
    destruct (negb (aliveAndKicking (appData st) =? 0) && (len >? 0));
    try exact I; try same_fields.
  pose proof (sslWrite_body_tidy it buf len t st) as B.
  destruct (sslWrite_body it buf len t st) as [[[buf' len'] st']| |]; cbn in B |- *;
    try assumption.
  specialize (IH buf' len' t st').
  destruct (sslWrite_loop rest buf' len' t st') as [s|r s|]; cbn in IH |- *;
    try exact I; eapply tidy_trans; eassumption.
Qed.

Lemma throwSSLExceptionWithSslErrors_tidy af code k st0 st :
  (forall s, tidy st0 s -> tidy st0 (k s)) ->
  tidy st0 st -> tidy st0 (throwSSLExceptionWithSslErrors af code k st).
Proof.
  intros K T. unfold throwSSLExceptionWithSslErrors.
  destruct af; [apply K, T|]. destruct (code =? SSL_ERROR_SSL); [exact T|apply K, T].
Qed.

Lemma handshake_body_tidy it af t st : hs_flow_tidy (handshake_body it af t st) st.
Proof.
  unfold handshake_body, setCallbackState.
  destruct (it_fd_closed it); cbn [NetFd_isClosed negb]; [same_fields|].
  unfold SSL_do_handshake.
  destruct (engine_turn_cleared it (EvSSL_do_handshake (step_result (it_step it))) st)
    as (C3 & _).
  match type of C3 with cleared _ ?s => set (st3 := s) in * end.
  pose proof (cleared_tidy _ _ C3) as T3.
  destruct (ExceptionCheck st3); [exact T3|].
  destruct (step_result (it_step it) =? 1); [exact T3|].
  destruct (errno st3 =? EINTR); [exact T3|].
  set (st4 := OpenSslError_reset _ _ st3).
  assert (C4 : cleared st st4).
  { unfold st4, OpenSslError_reset. destruct (_ <=? 0); exact C3. }
  destruct ((sslError st4 =? SSL_ERROR_WANT_READ) || (sslError st4 =? SSL_ERROR_WANT_WRITE));
    [|exact (cleared_tidy _ _ C4)].
  match goal with |- context [sslSelect ?a ?d ?c ?tm ?s] =>
    destruct (sslSelect a d c tm s) as [[r st']|] eqn:E end; [|exact I].
  apply sslSelect_quiet in E.
  assert (T : tidy st st').
  { apply cleared_tidy. eapply cleared_quiet; [|exact E]. exact C4. }
  destruct (r =? THROWN_EXCEPTION); [exact T|].
  destruct (r =? -1).
  { cbn [hs_flow_tidy]. unfold safeSslClear.
    apply (throwSSLExceptionWithSslErrors_tidy af SSL_ERROR_SYSCALL
             throwSSLHandshakeExceptionStr st st'); [intros s Hs; exact Hs|exact T]. }
  destruct (r =? 0); exact T.
Qed.

Lemma handshake_loop_tidy script : forall af t ret st,
  hs_result_tidy (handshake_loop script af t ret st) st.
Proof.
  induction script as [|it rest IH]; intros af t ret st; cbn [handshake_loop];
    destruct (negb (aliveAndKicking (appData st) =? 0)); try exact I; try same_fields.
  pose proof (handshake_body_tidy it af t st) as B.
  destruct (handshake_body it af t st) as [ret' st'|ret' st'|st'|]; cbn in B |- *;
    try assumption.
  specialize (IH af t ret' st').
  destruct (handshake_loop rest af t ret' st') as [r s|s|]; cbn in IH |- *;
    try exact I; eapply tidy_trans; eassumption.
Qed.

Lemma NativeCrypto_SSL_do_handshake_tidy setup script af ssl fdObject shc t st r st' :
  NativeCrypto_SSL_do_handshake setup script af ssl fdObject shc t st = Some (r, st') ->
  tidy st st'.
Proof.
  unfold NativeCrypto_SSL_do_handshake.
  destruct ssl as [ssl|]; cbn [to_SSL].
  2:{ intro E. injection E as _ <-. same_fields. }
  destruct fdObject; cbn [negb]. 2:{ intro E. injection E as _ <-. same_fields. }
  destruct shc; cbn [negb]. 2:{ intro E. injection E as _ <-. same_fields. }
  destruct (hs_fd_closed setup); cbn [NetFd_isClosed].
  { intro E. injection E as _ <-. same_fields. }
  destruct (hs_set_fd setup =? 1); cbn [negb].
  2:{ intro E. injection E as _ <-. unfold safeSslClear.
      apply (throwSSLExceptionWithSslErrors_tidy af SSL_ERROR_NONE throwSSLExceptionStr st);
        [intros s Hs; exact Hs|same_fields]. }
  destruct (hs_setBlocking setup); cbn [negb].
  2:{ intro E. injection E as _ <-. same_fields. }
  destruct (app_data ssl); cbn [negb].
  2:{ intro E. injection E as _ <-. same_fields. }
  match goal with |- context [handshake_loop ?s ?a ?tm ?r0 ?s0] =>
    pose proof (handshake_loop_tidy s a tm r0 s0) as L;
    destruct (handshake_loop s a tm r0 s0) as [ret st1|st1|] end;
    cbn in L; [| |discriminate].
  - assert (T : tidy st st1).
    { eapply tidy_trans; [|exact L]. same_fields. }
    destruct (ret =? 0).
    + intro E. injection E as _ <-. unfold safeSslClear.
      match goal with |- context [if ?b then _ else _] => destruct b end; [exact T|].
      apply (throwSSLExceptionWithSslErrors_tidy af (sslError st1)
               throwSSLHandshakeExceptionStr st st1); [intros s Hs; exact Hs|exact T].
    + destruct (ret <? 0); intro E; injection E as _ <-; [|exact T].
      unfold safeSslClear.
      apply (throwSSLExceptionWithSslErrors_tidy af (sslError st1)
               throwSSLHandshakeExceptionStr st st1); [intros s Hs; exact Hs|exact T].
  - intro E. injection E as _ <-. eapply tidy_trans; [|exact L]. same_fields.
Qed.

Lemma NativeCrypto_SSL_shutdown_tidy env af ssl fdObject shc st :
  tidy st (fst (NativeCrypto_SSL_shutdown env af ssl fdObject shc st)).
Proof.
  unfold NativeCrypto_SSL_shutdown.
  destruct ssl as [ssl|]; cbn [to_SSL]; [|same_fields].
  destruct fdObject; cbn [negb]; [|same_fields].
  destruct shc; cbn [negb]; [|same_fields].
  destruct (app_data ssl); [|same_fields].
  unfold setCallbackState.
  destruct (sd_fd_closed env); cbn [NetFd_isClosed negb]; [same_fields|].
  pose proof (engine_call_quiet (sd_step env) (set_callbackState true st)) as (_ & A).
  set (st2 := engine_call (sd_step env) (set_callbackState true st)) in *.
  assert (C3 : cleared st (clearCallbackState st2)) by (split; [reflexivity|exact A]).
  pose proof (cleared_tidy _ _ C3) as T3.
  destruct (ExceptionCheck (clearCallbackState st2)); [exact T3|].
  cbn [fst]. unfold safeSslClear.
  destruct (step_result (sd_step env) =? 0); [exact T3|].
  destruct (step_result (sd_step env) =? 1); [exact T3|].
  apply (throwSSLExceptionWithSslErrors_tidy af (step_error (sd_step env))
           throwSSLExceptionStr st); [intros s Hs; exact Hs|exact T3].
Qed.

Lemma set_pending_tidy p st0 st : tidy st0 st -> tidy st0 (set_pending p st).
Proof. intro T; exact T. Qed.

Lemma NativeCrypto_SSL_read_tidy script af ssl fdObject shc b len t st r st' :
  NativeCrypto_SSL_read script af ssl fdObject shc b len t st = Some (r, st') ->
  tidy st st'.
Proof.
  unfold NativeCrypto_SSL_read, check_arguments.
  destruct ssl as [ssl|]; cbn [to_SSL].
  2:{ intro E; injection E as _ <-; same_fields. }
  destruct fdObject; cbn [negb]. 2:{ intro E; injection E as _ <-; same_fields. }
  destruct shc; cbn [negb]. 2:{ intro E; injection E as _ <-; same_fields. }
  destruct b; cbn [negb]. 2:{ intro E; injection E as _ <-; same_fields. }
  unfold sslRead.
  destruct (len =? 0); cbn.
  { intro E; injection E as _ <-; same_fields. }
  destruct (app_data ssl); cbn [negb].
  2:{ destruct af; cbn; intro E; injection E as _ <-; same_fields. }
  pose proof (sslRead_loop_tidy script len t (set_sslError SSL_ERROR_NONE st)) as L.
  destruct (sslRead_loop script len t (set_sslError SSL_ERROR_NONE st)) as [s|r0 s|];
    cbn in L; [| |discriminate].
  - cbn. intro E; injection E as _ <-. exact L.
  - assert (T : tidy st s) by exact L.
    destruct (r0 =? THROW_SSLEXCEPTION).
    { intro E; injection E as _ <-.
      apply (throwSSLExceptionWithSslErrors_tidy af (sslError s) throwSSLExceptionStr st);
        [intros x Hx; exact Hx|exact T]. }
    destruct (r0 =? THROW_SOCKETTIMEOUTEXCEPTION).
    { intro E; injection E as _ <-. exact T. }
    destruct (r0 =? THROWN_EXCEPTION); intro E; injection E as _ <-; exact T.
Qed.

Lemma NativeCrypto_SSL_write_tidy script af ssl fdObject shc b len t st st' :
  NativeCrypto_SSL_write script af ssl fdObject shc b len t st = Some st' ->
  tidy st st'.
Proof.
  unfold NativeCrypto_SSL_write, check_arguments.
  destruct ssl as [ssl|]; cbn [to_SSL].
  2:{ intro E; injection E as <-; same_fields. }
  destruct fdObject; cbn [negb]. 2:{ intro E; injection E as <-; same_fields. }
  destruct shc; cbn [negb]. 2:{ intro E; injection E as <-; same_fields. }
  destruct b; cbn [negb]. 2:{ intro E; injection E as <-; same_fields. }
  unfold sslWrite.
  destruct (len =? 0); cbn.
  { intro E; injection E as <-; same_fields. }
  destruct (app_data ssl); cbn [negb].
  2:{ destruct af; cbn; intro E; injection E as <-; same_fields. }
  pose proof (sslWrite_loop_tidy script 0 len t (set_sslError SSL_ERROR_NONE st)) as L.
  destruct (sslWrite_loop script 0 len t (set_sslError SSL_ERROR_NONE st))
    as [[[b1 l1] s]|r0 s|]; cbn in L; [| |discriminate].
  - assert (T : tidy st s) by exact L.
    destruct (len =? THROW_SSLEXCEPTION).
    { intro E; injection E as <-.
      apply (throwSSLExceptionWithSslErrors_tidy af (sslError s) throwSSLExceptionStr st);
        [intros x Hx; exact Hx|exact T]. }
    destruct (len =? THROW_SOCKETTIMEOUTEXCEPTION).
    { intro E; injection E as <-. exact T. }
    destruct (len =? THROWN_EXCEPTION); intro E; injection E as <-; exact T.
  - assert (T : tidy st s) by exact L.
    destruct (r0 =? THROW_SSLEXCEPTION).
    { intro E; injection E as <-.
      apply (throwSSLExceptionWithSslErrors_tidy af (sslError s) throwSSLExceptionStr st);
        [intros x Hx; exact Hx|exact T]. }
    destruct (r0 =? THROW_SOCKETTIMEOUTEXCEPTION).
    { intro E; injection E as <-. exact T. }
    destruct (r0 =? THROWN_EXCEPTION); intro E; injection E as <-; exact T.
Qed.

Lemma NativeCrypto_SSL_interrupt_tidy ws1 ws2 ssl st :
  tidy st (NativeCrypto_SSL_interrupt ws1 ws2 ssl st).
Proof.
  apply quiet_tidy.
  destruct (NativeCrypto_SSL_interrupt_flags ws1 ws2 ssl st) as (_ & C & _).
  split; [exact C|].
  destruct ssl as [[[]]|]; [right|left; reflexivity|left; reflexivity].
  apply (NativeCrypto_SSL_interrupt_attached ws1 ws2 st).
Qed.

Lemma run_call_tidy c st st' : run_call c st = Some st' -> tidy st st'.
Proof.
  destruct c; cbn [run_call]; intro E.
  - destruct (NativeCrypto_SSL_do_handshake setup script af ssl_address fdObject shc
                timeout_millis st) as [[r s]|] eqn:H; [|discriminate].
    injection E as <-. eapply NativeCrypto_SSL_do_handshake_tidy; exact H.
  - destruct (NativeCrypto_SSL_read script af ssl_address fdObject shc b len
                read_timeout_millis st) as [[r s]|] eqn:H; [|discriminate].
    injection E as <-. eapply NativeCrypto_SSL_read_tidy; exact H.
  - eapply NativeCrypto_SSL_write_tidy; exact E.
  - injection E as <-. apply NativeCrypto_SSL_interrupt_tidy.
  - injection E as <-. apply NativeCrypto_SSL_shutdown_tidy.
Qed.

Lemma run_calls_tidy cs : forall st st', run_calls cs st = Some st' -> tidy st st'.
Proof.
  induction cs as [|c rest IH]; intros st st' E; cbn [run_calls] in E.
  - injection E as <-. same_fields.
  - destruct (run_call c st) as [s|] eqn:H; [|discriminate].
    apply run_call_tidy in H. apply IH in E.
    eapply tidy_trans; [exact H|]. exact E.
Qed.

(** X2. Once the liveness flag of a connection is cleared, no sequence of
    handshake, read, write, interrupt and shutdown calls sets it again;
    and whatever the calls do, the flag ends as it began or cleared. *)
Theorem liveness_flag_is_never_set_again :
  forall (cs : list jni_call) (st st' : State),
  run_calls cs st = Some st' ->
  (aliveAndKicking (appData st') = aliveAndKicking (appData st)
   \/ aliveAndKicking (appData st') = 0)
  /\ (if aliveAndKicking (appData st) =? 0 then aliveAndKicking (appData st') = 0
      else True).
Proof.
  intros cs st st' E. apply run_calls_tidy in E. destruct E as (_ & A).
  split; [exact A|].
  destruct (aliveAndKicking (appData st) =? 0) eqn:Z0; [|exact I].
  apply Z.eqb_eq in Z0. destruct A as [A|A]; [rewrite A; exact Z0|exact A].
Qed.

Lemma liveness_flag_is_never_set_again_witness :
  run_calls a_session fresh = Some a_session_end
  /\ aliveAndKicking (appData fresh) = 1
  /\ aliveAndKicking (appData a_session_end) = 0.
Proof.
  assert (E : run_calls a_session fresh = Some a_session_end) by (vm_compute; reflexivity).
  destruct (liveness_flag_is_never_set_again a_session fresh a_session_end E) as ([A|A] & _).
  - split; [exact E|]. split; [reflexivity|]. vm_compute. reflexivity.
  - split; [exact E|]. split; [reflexivity|exact A].
Defined.

(** X3. Every entry point that installs the callback state removes it
    before it returns: after any sequence of handshake, read, write,
    interrupt and shutdown calls on a connection whose callback state was
    clear, it is clear again, whichever way each call ended. *)
Theorem callback_state_is_cleared_on_every_path :
  forall (cs : list jni_call) (st st' : State),
  callbackState (appData st) = false ->
  run_calls cs st = Some st' ->
  callbackState (appData st') = false.
Proof.
  intros cs st st' C E. apply run_calls_tidy in E. destruct E as (T & _). exact (T C).
Qed.

Lemma callback_state_is_cleared_on_every_path_witness :
  callbackState (appData fresh) = false
  /\ run_calls a_session fresh = Some a_session_end
  /\ callbackState (appData a_session_end) = false.
Proof.
  assert (E : run_calls a_session fresh = Some a_session_end) by (vm_compute; reflexivity).
  split; [reflexivity|]. split; [exact E|].
  exact (callback_state_is_cleared_on_every_path a_session fresh a_session_end eq_refl E).
Defined.

(** ** The results of a read *)

Lemma sslSelect_thrown attempts rs type t st r st' :
  sslSelect attempts rs type t st = Some (r, st') ->
  r = THROWN_EXCEPTION -> pending st' = Some SocketException.
Proof.
  unfold sslSelect. intros E N.
  destruct (sslSelect_poll attempts type t st) as [[[r1 rev] st1]|] eqn:EP; [|discriminate].
  injection E as -> <-.
  rewrite <- (sslSelect_poll_thrown _ _ _ _ _ _ _ EP N).
  rewrite N. reflexivity.
Qed.

Lemma wait_case_verdict {A : Type} it t (k : State -> A) st r st' :
  wait_case it t k st = Return r st' ->
  (r = THROWN_EXCEPTION /\ pending st' = Some SocketException)
  \/ ((r = THROW_SSLEXCEPTION \/ r = THROW_SOCKETTIMEOUTEXCEPTION)
      /\ pending st' = pending st).
Proof.
  unfold wait_case.
  destruct (sslSelect (it_polls it) (it_drain it) (sslError st) t st) as [[r0 s]|] eqn:E;
    [|discriminate].
  destruct (Z.eqb_spec r0 THROWN_EXCEPTION) as [N|N].
  { intro H. injection H as <- <-. left. split; [reflexivity|].
    eapply sslSelect_thrown; eassumption. }
  pose proof (sslSelect_pending _ _ _ _ _ _ _ E N) as P.
  destruct (r0 =? -1).
  { intro H. injection H as <- <-. right. split; [left; reflexivity|exact P]. }
  destruct (r0 =? 0); [|discriminate].
  intro H. injection H as <- <-. right. split; [right; reflexivity|exact P].
Qed.

Lemma syscall_case_verdict {A : Type} result (k : State -> A) st r st' :
  syscall_case result k st = Return r st' ->
  (r = -1 \/ r = THROW_SSLEXCEPTION) /\ st' = st.
Proof.
  unfold syscall_case. destruct (result =? 0).
  { intro H. injection H as <- <-. split; [left|]; reflexivity. }
  destruct (errno st =? EINTR); [discriminate|].
  intro H. injection H as <- <-. split; [right|]; reflexivity.
Qed.

(** A turn that does not get to the engine's answer returns at once. *)
Lemma sslRead_body_early it len t st r st' :
  reaches_engine it = false -> pending st = None ->
  sslRead_body it len t st = Return r st' ->
  (r = THROW_SSLEXCEPTION /\ pending st' = None)
  \/ (r = THROWN_EXCEPTION /\ pending st' <> None).
Proof.
  intros R P. unfold reaches_engine in R. unfold sslRead_body.
  destruct (init_not_finished it).
  { intro H. injection H as <- <-. left. split; [reflexivity|exact P]. }
  unfold setCallbackState.
  destruct (it_fd_closed it); cbn [NetFd_isClosed negb].
  { intro H. injection H as <- <-. right. split; [reflexivity|discriminate]. }
  destruct (step_throws (it_step it)) eqn:T; [|discriminate].
  unfold SSL_read, engine_call. rewrite T. unfold ExceptionCheck.
  cbn [clearCallbackState set_callbackState set_appData pending].
  match goal with |- context [concurrent_interrupt ?b ?s] =>
    destruct (concurrent_interrupt_flags b s) as (_ & _ & P2 & _); rewrite P2 end.
  cbn. intro H. injection H as <- <-. right. split; [reflexivity|].
  cbn. rewrite P2. discriminate.
Qed.

Lemma sslRead_body_return_verdict it len t st r st' :
  honest it = true -> pending st = None ->
  sslRead_body it len t st = Return r st' ->
  read_verdict [it] r st'.
Proof.
  intros Hn P E. unfold read_verdict.
  destruct (reaches_engine it) eqn:R.
  - rewrite (sslRead_body_engine it len t st R P) in E. cbv zeta in E.
    destruct (reaches_engine_inv it R) as (_ & _ & T).
    destruct (stepped_facts it (EvSSL_read len (step_result (it_step it))) st T P)
      as (P5 & _).
    rewrite (honest_reported it Hn) in E.
    destruct (0 <? step_result (it_step it)) eqn:Pos.
    { injection E as <- <-. left. apply Z.ltb_lt in Pos.
      split; [exact Pos|]. split; [left; reflexivity|exact P5]. }
    destruct (reported (it_step it) =? SSL_ERROR_ZERO_RETURN).
    { injection E as <- <-. right; left. split; [reflexivity|exact P5]. }
    destruct (wants_io (reported (it_step it))).
    { apply wait_case_verdict in E. destruct E as [(-> & Ps)|([->| ->] & Ps)].
      - do 4 right. split; [reflexivity|]. rewrite Ps. discriminate.
      - do 2 right; left. split; [reflexivity|]. rewrite Ps. exact P5.
      - do 3 right; left. split; [reflexivity|]. rewrite Ps. exact P5. }
    destruct (reported (it_step it) =? SSL_ERROR_SYSCALL).
    { apply syscall_case_verdict in E. destruct E as ([->| ->] & ->).
      - right; left. split; [reflexivity|exact P5].
      - do 2 right; left. split; [reflexivity|exact P5]. }
    injection E as <- <-. do 2 right; left. split; [reflexivity|exact P5].
  - destruct (sslRead_body_early it len t st r st' R P E) as [(-> & Q)|(-> & Q)].
    + do 2 right; left. split; [reflexivity|exact Q].
    + do 4 right. split; [reflexivity|exact Q].
Qed.

Lemma read_verdict_cons it script r st' :
  read_verdict [it] r st' \/ read_verdict script r st' -> read_verdict (it :: script) r st'.
Proof.
  unfold read_verdict, step_results. cbn [map In].
  intros [H|H]; destruct H as [(A & B & C)|H]; try (right; exact H).
  - left. split; [exact A|]. split; [|exact C]. destruct B as [B|[]]. left; exact B.
  - left. split; [exact A|]. split; [|exact C]. right; exact B.
Qed.

Lemma sslRead_loop_verdict script : forall len t st,
  forallb honest script = true -> pending st = None ->
  match sslRead_loop script len t st with
  | Exited st' => aliveAndKicking (appData st') = 0 /\ pending st' = None
  | Returned r st' => read_verdict script r st'
  | Pending => True
  end.
Proof.
  induction script as [|it rest IH]; intros len t st Hn P; cbn [sslRead_loop].
  - destruct (aliveAndKicking (appData st) =? 0) eqn:A; cbn [negb]; [|exact I].
    apply Z.eqb_eq in A. split; assumption.
  - destruct (aliveAndKicking (appData st) =? 0) eqn:A; cbn [negb].
    { apply Z.eqb_eq in A. split; assumption. }
    cbn [forallb] in Hn. apply andb_true_iff in Hn as (Hi & Hr).
    destruct (sslRead_body it len t st) as [s|r s|] eqn:B; [| |exact I].
    + destruct (sslRead_body_continue _ _ _ _ _ B) as (_ & Ps & _).
      specialize (IH len t s Hr Ps).
      destruct (sslRead_loop rest len t s) as [s'|r s'|]; try exact IH.
      apply read_verdict_cons. right. exact IH.
    + apply read_verdict_cons. left.
      eapply sslRead_body_return_verdict; eassumption.
Qed.

(** X4. What NativeCrypto_SSL_read hands to Java.  With an engine that
    reports no error only for a positive result, the value returned is a
    positive count that some SSL_read of the call returned, or 0, or -1;
    the internal codes never get out.  A positive count comes with no
    exception pending, and 0 is returned only for a request of length 0
    or with a NullPointerException for a null argument. *)
Theorem read_returns_count_zero_or_minus_one :
  forall (script : list iteration) (af : bool) (ssl : option SSL) (fdObject shc b : bool)
         (len t : Z) (st : State) (r : Z) (st' : State),
  forallb honest script = true ->
  pending st = None ->
  NativeCrypto_SSL_read script af ssl fdObject shc b len t st = Some (r, st') ->
  (0 < r \/ r = 0 \/ r = -1)
  /\ (if 0 <? r then In r (step_results script) /\ pending st' = None
      else if r =? 0
           then (len = 0 /\ pending st' = None) \/ pending st' = Some NullPointerException
           else True).
Proof.
  intros script af ssl fdObject shc b len t st r st' Hn P.
  unfold NativeCrypto_SSL_read, check_arguments.
  assert (Z0 : forall s : State, pending s = Some NullPointerException ->
             Some (0, s) = Some (r, st') ->
             (0 < r \/ r = 0 \/ r = -1)
             /\ (if 0 <? r then In r (step_results script) /\ pending st' = None
                 else if r =? 0
                      then (len = 0 /\ pending st' = None)
                           \/ pending st' = Some NullPointerException
                      else True)).
  { intros s Ps E. injection E as <- <-. split; [right; left; reflexivity|].
    cbn. right. exact Ps. }
  assert (M1 : forall s : State, Some (-1, s) = Some (r, st') ->
             (0 < r \/ r = 0 \/ r = -1)
             /\ (if 0 <? r then In r (step_results script) /\ pending st' = None
                 else if r =? 0
                      then (len = 0 /\ pending st' = None)
                           \/ pending st' = Some NullPointerException
                      else True)).
  { intros s E. injection E as <- <-. split; [right; right; reflexivity|]. cbn. exact I. }
  destruct ssl as [ssl|]; cbn [to_SSL]; [|apply Z0; reflexivity].
  destruct fdObject; cbn [negb]; [|apply Z0; reflexivity].
  destruct shc; cbn [negb]; [|apply Z0; reflexivity].
  destruct b; cbn [negb]; [|apply Z0; reflexivity].
  unfold sslRead.
  destruct (Z.eqb_spec len 0) as [L0|L0].
  { cbn. intro E. injection E as <- <-. split; [right; left; reflexivity|].
    cbn. left. split; [exact L0|exact P]. }
  destruct (app_data ssl); cbn [negb].
  2:{ change (THROW_SSLEXCEPTION =? THROW_SSLEXCEPTION) with true. cbv iota. apply M1. }
  pose proof (sslRead_loop_verdict script len t (set_sslError SSL_ERROR_NONE st) Hn P) as V.
  destruct (sslRead_loop script len t (set_sslError SSL_ERROR_NONE st)) as [s|r0 s|];
    [| |discriminate].
  - change (-1 =? THROW_SSLEXCEPTION) with false.
    change (-1 =? THROW_SOCKETTIMEOUTEXCEPTION) with false.
    change (-1 =? THROWN_EXCEPTION) with false. cbv iota. apply M1.
  - destruct (r0 =? THROW_SSLEXCEPTION) eqn:E1; [apply M1|].
    destruct (r0 =? THROW_SOCKETTIMEOUTEXCEPTION) eqn:E2; [apply M1|].
    destruct (r0 =? THROWN_EXCEPTION) eqn:E3; [apply M1|].
    intro E. injection E as <- <-.
    unfold THROW_SSLEXCEPTION, THROW_SOCKETTIMEOUTEXCEPTION, THROWN_EXCEPTION in *.
    destruct V as [(A & B & C)|[(-> & C)|[(-> & _)|[(-> & _)|(-> & _)]]]];
      try discriminate.
    + split; [left; exact A|]. apply Z.ltb_lt in A. rewrite A. split; assumption.
    + split; [right; right; reflexivity|]. exact I.
Qed.

Lemma read_returns_count_zero_or_minus_one_witness :
  forallb honest read_after_wait = true
  /\ pending fresh = None
  /\ NativeCrypto_SSL_read read_after_wait false attached true true true 16 0 fresh
     = Some (5, read_after_wait_end)
  /\ In 5 (step_results read_after_wait)
  /\ pending read_after_wait_end = None.
Proof.
  assert (H : forallb honest read_after_wait = true) by reflexivity.
  assert (E : NativeCrypto_SSL_read read_after_wait false attached true true true 16 0 fresh
              = Some (5, read_after_wait_end)) by (vm_compute; reflexivity).
  destruct (read_returns_count_zero_or_minus_one read_after_wait false attached
              true true true 16 0 fresh 5 read_after_wait_end H eq_refl E) as (_ & V).
  change (0 <? 5) with true in V. cbv iota in V.
  split; [exact H|]. split; [reflexivity|]. split; [exact E|]. exact V.
Defined.

(** ** The result of a handshake *)

Lemma throwSSLExceptionWithSslErrors_raises af code k st :
  (forall s, pending (k s) <> None) ->
  pending (throwSSLExceptionWithSslErrors af code k st) <> None.
Proof.
  intro K. unfold throwSSLExceptionWithSslErrors.
  destruct af; [apply K|]. destruct (code =? SSL_ERROR_SSL); [discriminate|apply K].
Qed.

Lemma handshake_body_raised it af t st :
  pending st = None -> hs_flow_raised (handshake_body it af t st).
Proof.
  intro P. unfold handshake_body, setCallbackState.
  destruct (it_fd_closed it); cbn [NetFd_isClosed negb]; [discriminate|].
  set (st3 := clearCallbackState (SSL_do_handshake _ _)).
  unfold ExceptionCheck.
  destruct (pending st3) eqn:P3.
  { unfold hs_flow_raised, safeSslClear. cbn [log pending]. rewrite P3. discriminate. }
  destruct (step_result (it_step it) =? 1); [exact P3|].
  destruct (errno st3 =? EINTR); [exact P3|].
  set (st4 := OpenSslError_reset _ _ st3).
  assert (P4 : pending st4 = None).
  { unfold st4, OpenSslError_reset. destruct (_ <=? 0); exact P3. }
  destruct ((sslError st4 =? SSL_ERROR_WANT_READ) || (sslError st4 =? SSL_ERROR_WANT_WRITE));
    [|exact P4].
  match goal with |- context [sslSelect ?a ?d ?c ?tm ?s] =>
    destruct (sslSelect a d c tm s) as [[r st']|] eqn:E end; [|exact I].
  destruct (Z.eqb_spec r THROWN_EXCEPTION) as [N|N].
  { unfold hs_flow_raised, safeSslClear. cbn [log pending].
    rewrite (sslSelect_thrown _ _ _ _ _ _ _ E N). discriminate. }
  destruct (r =? -1).
  { unfold hs_flow_raised, safeSslClear. cbn [log pending].
    apply (throwSSLExceptionWithSslErrors_raises af SSL_ERROR_SYSCALL
             throwSSLHandshakeExceptionStr st'). discriminate. }
  destruct (r =? 0); [discriminate|].
  unfold hs_flow_raised. rewrite (sslSelect_pending _ _ _ _ _ _ _ E N). exact P4.
Qed.

Lemma handshake_loop_raised script : forall af t ret st,
  pending st = None -> hs_result_raised (handshake_loop script af t ret st).
Proof.
  induction script as [|it rest IH]; intros af t ret st P; cbn [handshake_loop];
    destruct (negb (aliveAndKicking (appData st) =? 0)); try exact I; try exact P.
  pose proof (handshake_body_raised it af t st P) as B.
  destruct (handshake_body it af t st) as [ret' st'|ret' st'|st'|]; cbn in B |- *;
    try assumption.
  apply IH. exact B.
Qed.

(** X5. NativeCrypto_SSL_do_handshake reports failure by exception and by
    nothing else: the value returned is never negative, it is 0 exactly
    when an exception is left pending, and a handshake that returns a
    non-zero value leaves none. *)
Theorem handshake_returns_zero_iff_it_raises :
  forall (setup : handshake_setup) (script : list iteration) (af : bool)
         (ssl : option SSL) (fdObject shc : bool) (t : Z) (st : State) (r : Z) (st' : State),
  pending st = None ->
  NativeCrypto_SSL_do_handshake setup script af ssl fdObject shc t st = Some (r, st') ->
  0 <= r
  /\ (if r =? 0 then pending st' <> None else pending st' = None).
Proof.
  intros setup script af ssl fdObject shc t st r st' P.
  unfold NativeCrypto_SSL_do_handshake.
  assert (Z0 : forall s : State, pending s <> None ->
             Some (0, s) = Some (r, st') ->
             0 <= r /\ (if r =? 0 then pending st' <> None else pending st' = None)).
  { intros s Ps E. injection E as <- <-. split; [lia|exact Ps]. }
  destruct ssl as [ssl|]; cbn [to_SSL]; [|apply Z0; discriminate].
  destruct fdObject; cbn [negb]; [|apply Z0; discriminate].
  destruct shc; cbn [negb]; [|apply Z0; discriminate].
  destruct (hs_fd_closed setup); cbn [NetFd_isClosed]; [apply Z0; discriminate|].
  destruct (hs_set_fd setup =? 1); cbn [negb].
  2:{ apply Z0. unfold safeSslClear. cbn [log pending].
      apply throwSSLExceptionWithSslErrors_raises. discriminate. }
  destruct (hs_setBlocking setup); cbn [negb]; [|apply Z0; discriminate].
  destruct (app_data ssl); cbn [negb]; [|apply Z0; discriminate].
  match goal with |- context [handshake_loop ?s ?a ?tm ?r0 ?s0] =>
    pose proof (handshake_loop_raised s a tm r0 s0 P) as L;
    destruct (handshake_loop s a tm r0 s0) as [ret st1|st1|] end;
    cbn in L; [| |discriminate].
  - destruct (Z.eqb_spec ret 0) as [R0|R0].
    { apply Z0. unfold safeSslClear. cbn [log pending].
      match goal with |- context [if ?c then _ else _] => destruct c end;
        [discriminate|apply throwSSLExceptionWithSslErrors_raises; discriminate]. }
    destruct (Z.ltb_spec ret 0) as [Neg|Pos].
    { apply Z0. unfold safeSslClear. cbn [log pending].
      apply throwSSLExceptionWithSslErrors_raises. discriminate. }
    intro E. injection E as <- <-. split; [exact Pos|].
    destruct (Z.eqb_spec ret 0) as [R1|_]; [contradiction|exact L].
  - apply Z0. exact L.
Qed.

Lemma handshake_returns_zero_iff_it_raises_witness :
  pending fresh = None
  /\ NativeCrypto_SSL_do_handshake good_setup handshake_in_two_steps false attached
       true true 0 fresh = Some (1, handshake_in_two_steps_end)
  /\ pending handshake_in_two_steps_end = None.
Proof.
  assert (E : NativeCrypto_SSL_do_handshake good_setup handshake_in_two_steps false attached
                true true 0 fresh = Some (1, handshake_in_two_steps_end))
    by (vm_compute; reflexivity).
  destruct (handshake_returns_zero_iff_it_raises good_setup handshake_in_two_steps false
              attached true true 0 fresh 1 handshake_in_two_steps_end eq_refl E) as (_ & V).
  change (1 =? 0) with false in V. cbv iota in V.
  split; [reflexivity|]. split; [exact E|exact V].
Defined.

(** ** Timeouts *)

Lemma sslSelect_poll_times_out attempts : forall type t st,
  times_out attempts = true ->
  exists rev st',
    sslSelect_poll attempts type t st = Some (0, rev, st') /\ pending st' = pending st.
Proof.
  induction attempts as [|a rest IH]; intros type t st H; [discriminate|].
  cbn [times_out] in H.
  destruct (poll_retries a) eqn:R.
  - rewrite (sslSelect_poll_retry a rest type t st R).
    destruct (IH type (posix_timeout t) (poll (if type =? SSL_ERROR_WANT_READ
                then Z.lor POLLIN POLLPRI else Z.lor POLLOUT POLLPRI)
                (posix_timeout t) a st) H) as (rev & st' & E & P).
    exists rev, st'. split; [exact E|]. rewrite P. apply poll_pending.
  - apply andb_true_iff in H as (C & O).
    cbn [sslSelect_poll]. destruct (pa_closed_before a); [discriminate|].
    cbn [NetFd_isClosed].
    destruct (pa_outcome a) as [e|r0 r1] eqn:PO; [discriminate|].
    apply andb_true_iff in O as (O0 & O1).
    cbn [poll_result poll_revents1]. rewrite O0, O1. cbn.
    eexists _, _. split; [reflexivity|]. apply poll_pending.
Qed.

Lemma sslSelect_times_out attempts rs type t st :
  times_out attempts = true ->
  exists st', sslSelect attempts rs type t st = Some (0, st') /\ pending st' = pending st.
Proof.
  intro H. unfold sslSelect.
  destruct (sslSelect_poll_times_out attempts type t st H) as (rev & st' & E & P).
  rewrite E. cbn. eexists. split; [reflexivity|]. exact P.
Qed.

Lemma wait_case_times_out {A : Type} it t (k : State -> A) st :
  times_out (it_polls it) = true ->
  exists st', wait_case it t k st = Return THROW_SOCKETTIMEOUTEXCEPTION st'
              /\ pending st' = pending st.
Proof.
  intro H. unfold wait_case.
  destruct (sslSelect_times_out (it_polls it) (it_drain it) (sslError st) t st H)
    as (st' & E & P).
  rewrite E. cbn. exists st'. split; [reflexivity|exact P].
Qed.

Lemma wants_io_not_final code :
  wants_io code = true ->
  (code =? SSL_ERROR_NONE) = false /\ (code =? SSL_ERROR_ZERO_RETURN) = false.
Proof.
  unfold wants_io. intro H. apply orb_true_iff in H as [H|H]; apply Z.eqb_eq in H;
    subst code; split; reflexivity.
Qed.

(** X6. A read whose wait for the socket ends with a poll that reports
    nothing ready gives up: NativeCrypto_SSL_read returns -1 with a
    SocketTimeoutException pending, whatever the engine would have
    answered afterwards. *)
Theorem read_timeout_raises_SocketTimeoutException :
  forall (pre : list iteration) (it : iteration) (post : list iteration)
         (af : bool) (len t : Z) (st st1 : State),
  len <> 0 ->
  pending st = None ->
  sslRead_turns pre len t (set_sslError SSL_ERROR_NONE st) = Some st1 ->
  aliveAndKicking (appData st1) <> 0 ->
  reaches_engine it = true ->
  wants_io (reported (it_step it)) = true ->
  times_out (it_polls it) = true ->
  returned (NativeCrypto_SSL_read (pre ++ it :: post) af attached true true true len t st)
  = Some (-1)
  /\ raised (NativeCrypto_SSL_read (pre ++ it :: post) af attached true true true len t st)
     = Some (Some SocketTimeoutException).
Proof.
  intros pre it post af len t st st1 L P E A R W TO.
  apply Z.eqb_neq in L, A.
  destruct (sslRead_loop_app pre (it :: post) len t _ st1 E) as (EL & P1).
  specialize (P1 P).
  destruct (reaches_engine_inv it R) as (_ & _ & T).
  destruct (stepped_facts it (EvSSL_read len (step_result (it_step it))) st1 T P1)
    as (P5 & _).
  destruct (wants_io_not_final _ W) as (N1 & N2).
  unfold NativeCrypto_SSL_read. cbn [attached check_arguments to_SSL negb].
  unfold sslRead. rewrite L. cbn [app_data negb]. rewrite EL.
  cbn [sslRead_loop]. rewrite A. cbn [negb].
  rewrite (sslRead_body_engine it len t st1 R P1). cbv zeta.
  rewrite N1, N2, W.
  destruct (wait_case_times_out it t (fun s : State => s)
              (stepped it (EvSSL_read len (step_result (it_step it))) st1) TO)
    as (st' & EW & Pw).
  rewrite EW. cbn. split; reflexivity.
Qed.

Lemma read_timeout_raises_SocketTimeoutException_witness :
  16 <> 0
  /\ pending fresh = None
  /\ sslRead_turns waited_once 16 250 (set_sslError SSL_ERROR_NONE fresh) = Some after_wait250
  /\ aliveAndKicking (appData after_wait250) <> 0
  /\ reaches_engine (timed_out_turn SSL_ERROR_WANT_READ) = true
  /\ wants_io (reported (it_step (timed_out_turn SSL_ERROR_WANT_READ))) = true
  /\ times_out (it_polls (timed_out_turn SSL_ERROR_WANT_READ)) = true
  /\ raised (NativeCrypto_SSL_read (waited_once ++ [timed_out_turn SSL_ERROR_WANT_READ])
               false attached true true true 16 250 fresh)
     = Some (Some SocketTimeoutException).
Proof.
  assert (H1 : 16 <> 0) by lia.
  assert (H3 : sslRead_turns waited_once 16 250 (set_sslError SSL_ERROR_NONE fresh)
               = Some after_wait250) by (vm_compute; reflexivity).
  assert (H4 : aliveAndKicking (appData after_wait250) <> 0) by (vm_compute; discriminate).
  destruct (read_timeout_raises_SocketTimeoutException waited_once
              (timed_out_turn SSL_ERROR_WANT_READ) [] false 16 250 fresh after_wait250
              H1 eq_refl H3 H4 eq_refl eq_refl eq_refl) as (_ & C).
  repeat (split; [first [assumption | reflexivity]|]). exact C.
Defined.

(** X7. A write whose wait for the socket ends with a poll that reports
    nothing ready gives up in the same way: NativeCrypto_SSL_write returns
    with a SocketTimeoutException pending, also when part of the buffer
    has been accepted already. *)
Theorem write_timeout_raises_SocketTimeoutException :
  forall (pre : list iteration) (it : iteration) (post : list iteration)
         (af : bool) (len t : Z) (st : State) (buf1 len1 : Z) (st1 : State),
  len <> 0 ->
  pending st = None ->
  sslWrite_turns pre 0 len t (set_sslError SSL_ERROR_NONE st) = Some (buf1, len1, st1) ->
  aliveAndKicking (appData st1) <> 0 ->
  0 < len1 ->
  reaches_engine it = true ->
  wants_io (reported (it_step it)) = true ->
  times_out (it_polls it) = true ->
  returned (sslWrite (pre ++ it :: post) (mkSSL true) len t (set_sslError SSL_ERROR_NONE st))
  = Some THROW_SOCKETTIMEOUTEXCEPTION
  /\ raised_by (NativeCrypto_SSL_write (pre ++ it :: post) af attached
                  true true true len t st)
     = Some (Some SocketTimeoutException).
Proof.
  intros pre it post af len t st buf1 len1 st1 L P E A L1 R W TO.
  apply Z.eqb_neq in L, A. apply Z.gtb_lt in L1.
  destruct (sslWrite_loop_app pre (it :: post) 0 len t _ _ _ st1 E) as (EL & P1).
  specialize (P1 P).
  destruct (wants_io_not_final _ W) as (N1 & N2).
  unfold NativeCrypto_SSL_write. cbn [attached check_arguments to_SSL negb].
  unfold sslWrite. rewrite L. cbn [app_data negb]. rewrite EL.
  cbn [sslWrite_loop]. rewrite A, L1. cbn [negb andb].
  rewrite (sslWrite_body_engine it buf1 len1 t st1 R P1). cbv zeta.
  rewrite N1, N2, W.
  destruct (wait_case_times_out it t (fun s : State => (buf1, len1, s))
              (stepped it (EvSSL_write buf1 len1 (step_result (it_step it))) st1) TO)
    as (st' & EW & Pw).
  rewrite EW. cbn. split; reflexivity.
Qed.

Lemma write_timeout_raises_SocketTimeoutException_witness :
  10 <> 0
  /\ pending fresh = None
  /\ sslWrite_turns four_accepted 0 10 250 (set_sslError SSL_ERROR_NONE fresh)
     = Some (4, 6, after_four)
  /\ aliveAndKicking (appData after_four) <> 0
  /\ 0 < 6
  /\ reaches_engine (timed_out_turn SSL_ERROR_WANT_WRITE) = true
  /\ wants_io (reported (it_step (timed_out_turn SSL_ERROR_WANT_WRITE))) = true
  /\ times_out (it_polls (timed_out_turn SSL_ERROR_WANT_WRITE)) = true
  /\ raised_by (NativeCrypto_SSL_write (four_accepted ++ [timed_out_turn SSL_ERROR_WANT_WRITE])
                  false attached true true true 10 250 fresh)
     = Some (Some SocketTimeoutException).
Proof.
  assert (H1 : 10 <> 0) by lia.
  assert (H3 : sslWrite_turns four_accepted 0 10 250 (set_sslError SSL_ERROR_NONE fresh)
               = Some (4, 6, after_four)) by (vm_compute; reflexivity).
  assert (H4 : aliveAndKicking (appData after_four) <> 0) by (vm_compute; discriminate).
  assert (H5 : 0 < 6) by lia.
  destruct (write_timeout_raises_SocketTimeoutException four_accepted
              (timed_out_turn SSL_ERROR_WANT_WRITE) [] false 10 250 fresh 4 6 after_four
              H1 eq_refl H3 H4 H5 eq_refl eq_refl eq_refl) as (_ & C).
  repeat (split; [first [assumption | reflexivity]|]). exact C.
Defined.

(** ** Shutdown *)

Lemma engine_call_poll_timeouts step st :
  poll_timeouts (trace (engine_call step st)) = poll_timeouts (trace st).
Proof.
  unfold engine_call. rewrite concurrent_interrupt_poll_timeouts.
  destruct (step_throws step); reflexivity.
Qed.

Lemma engine_call_pending step st :
  pending st = None ->
  if step_throws step then pending (engine_call step st) <> None
  else pending (engine_call step st) = None.
Proof.
  intro P. unfold engine_call.
  match goal with |- context [concurrent_interrupt ?b ?s] =>
    destruct (concurrent_interrupt_flags b s) as (_ & _ & P2 & _) end.
  destruct (step_throws step); rewrite P2; [discriminate|exact P].
Qed.

(** X8. The shutdown is one step and best effort.  With non-null
    arguments NativeCrypto_SSL_shutdown calls SSL_shutdown at most once
    and never waits for the socket, so a close that is not complete yet
    (result 0) is left at that; it always ends by clearing the session;
    it leaves the waiter count alone; and it raises exactly when the
    descriptor is closed, a callback throws or SSL_shutdown returns
    something other than 0 and 1. *)
Theorem shutdown_is_one_step :
  forall (env : shutdown_env) (af : bool) (ssl : SSL) (st : State),
  pending st = None ->
  (shutdown_steps (snd (NativeCrypto_SSL_shutdown env af (Some ssl) true true st)) <= 1)%nat
  /\ poll_timeouts (trace (fst (NativeCrypto_SSL_shutdown env af (Some ssl) true true st)))
     = poll_timeouts (trace st)
  /\ waitingThreads (appData (fst (NativeCrypto_SSL_shutdown env af (Some ssl) true true st)))
     = waitingThreads (appData st)
  /\ hd_error (trace (fst (NativeCrypto_SSL_shutdown env af (Some ssl) true true st)))
     = Some EvSSL_clear
  /\ (if shutdown_fails env ssl
      then pending (fst (NativeCrypto_SSL_shutdown env af (Some ssl) true true st)) <> None
      else pending (fst (NativeCrypto_SSL_shutdown env af (Some ssl) true true st)) = None).
Proof.
  intros env af ssl st P.
  unfold NativeCrypto_SSL_shutdown, shutdown_fails. cbn [to_SSL negb].
  destruct (app_data ssl); cbn [andb].
  2:{ cbn. repeat split; try lia; exact P. }
  unfold setCallbackState.
  destruct (sd_fd_closed env); cbn [NetFd_isClosed negb orb].
  { cbn. repeat split; try lia; discriminate. }
  set (st1 := set_callbackState true st).
  pose proof (engine_call_poll_timeouts (sd_step env) st1) as T2.
  pose proof (engine_call_waiting (sd_step env) st1) as W2.
  assert (P1 : pending st1 = None) by exact P.
  pose proof (engine_call_pending (sd_step env) st1 P1) as P2.
  set (st2 := engine_call (sd_step env) st1) in *.
  assert (S1 : forall l,
    (shutdown_steps ((if negb (sd_fd env =? -1) then [CallSetBlocking (sd_fd env) true] else [])
                     ++ l) = shutdown_steps l)).
  { intro l. destruct (negb (sd_fd env =? -1)); reflexivity. }
  unfold ExceptionCheck.
  cbn [clearCallbackState set_callbackState set_appData pending].
  destruct (step_throws (sd_step env)); cbn [orb].
  { destruct (pending st2) eqn:P3; [|contradiction].
    cbn [fst snd]. rewrite S1. cbn.
    repeat split; try lia; try assumption. rewrite P3. discriminate. }
  rewrite P2. cbn [fst snd]. rewrite S1.
  split; [cbn; lia|].
  unfold safeSslClear.
  destruct (step_result (sd_step env) =? 0); cbn [orb negb].
  { cbn. repeat split; assumption. }
  destruct (step_result (sd_step env) =? 1); cbn [orb negb].
  { cbn. repeat split; assumption. }
  cbn [log trace hd_error poll_timeouts appData pending].
  split.
  { unfold throwSSLExceptionWithSslErrors.
    destruct af; [exact T2|]. destruct (_ =? SSL_ERROR_SSL); exact T2. }
  split.
  { unfold throwSSLExceptionWithSslErrors.
    destruct af; [exact W2|]. destruct (_ =? SSL_ERROR_SSL); exact W2. }
  split; [reflexivity|].
  apply throwSSLExceptionWithSslErrors_raises. discriminate.
Qed.

Lemma shutdown_is_one_step_witness :
  pending fresh = None
  /\ snd (NativeCrypto_SSL_shutdown shutdown_not_complete false
            (Some (mkSSL true)) true true fresh)
     = [CallSetBlocking 7 true; CallSSL_shutdown 0]
  /\ shutdown_fails shutdown_not_complete (mkSSL true) = false
  /\ pending (fst (NativeCrypto_SSL_shutdown shutdown_not_complete false
                     (Some (mkSSL true)) true true fresh)) = None.
Proof.
  destruct (shutdown_is_one_step shutdown_not_complete false (mkSSL true) fresh eq_refl)
    as (_ & _ & _ & _ & V).
  change (shutdown_fails shutdown_not_complete (mkSSL true)) with false in V. cbv iota in V.
  split; [reflexivity|]. split; [vm_compute; reflexivity|]. split; [reflexivity|exact V].
Defined.

(** ** The emergency pipe *)

Lemma engine_call_pipe_writes step st :
  step_interrupt step = false ->
  pipe_writes (trace (engine_call step st)) = pipe_writes (trace st).
Proof.
  intro I. unfold engine_call. rewrite I. cbn [concurrent_interrupt].
  destruct (step_throws step); reflexivity.
Qed.

Lemma pipe_writes_repeat k tr :
  pipe_writes (repeat EvPipeWrite k ++ tr) = (k + pipe_writes tr)%nat.
Proof. induction k as [|k IH]; [reflexivity|]. cbn. rewrite IH. reflexivity. Qed.

Lemma after_step_pipe_writes it st :
  pipe_writes (trace (after_step it st))
  = (wakeup_writes it st + pipe_writes (trace st))%nat.
Proof.
  unfold after_step, wakeup_writes.
  destruct (step_moved (it_step it) && (waitingThreads (appData st) >? 0)).
  - assert (T : pipe_writes (trace (sslNotify (it_notify it) st))
                = (S (eintr_prefix (it_notify it)) + pipe_writes (trace st))%nat).
    { rewrite sslNotify_trace. apply pipe_writes_repeat. }
    destruct ((sslError (sslNotify (it_notify it) st) =? SSL_ERROR_WANT_READ)
              || (sslError (sslNotify (it_notify it) st) =? SSL_ERROR_WANT_WRITE)); exact T.
  - destruct ((sslError st =? SSL_ERROR_WANT_READ) || (sslError st =? SSL_ERROR_WANT_WRITE));
      reflexivity.
Qed.

Lemma poll_pipe_writes ev t a st :
  pa_interrupt a = false ->
  pipe_writes (trace (poll ev t a st)) = pipe_writes (trace st).
Proof.
  intro I. unfold poll. rewrite I. cbn [concurrent_interrupt].
  destruct (pa_outcome a); reflexivity.
Qed.

Lemma poll_pipe_reads ev t a st :
  pipe_reads (trace (poll ev t a st)) = pipe_reads (trace st).
Proof.
  unfold poll.
  assert (C : forall b s, pipe_reads (trace (concurrent_interrupt b s)) = pipe_reads (trace s)).
  { intros b s. destruct b; [|reflexivity].
    unfold concurrent_interrupt, other_thread.
    cbn [set_errno set_pending set_sslError trace].
    destruct (NativeCrypto_SSL_interrupt_attached [] [] s) as (_ & _ & T).
    fold attached. rewrite T. reflexivity. }
  destruct (pa_outcome a); cbn [set_errno trace]; rewrite C; reflexivity.
Qed.

Lemma sslSelect_poll_pipe_writes attempts : forall type t st r rev st',
  undisturbed_wait attempts = true ->
  sslSelect_poll attempts type t st = Some (r, rev, st') ->
  pipe_writes (trace st') = pipe_writes (trace st).
Proof.
  induction attempts as [|a rest IH]; intros type t st r rev st' U E; [discriminate|].
  cbn [undisturbed_wait forallb] in U. apply andb_true_iff in U as (Ua & Ur).
  apply negb_true_iff in Ua.
  cbn [sslSelect_poll] in E.
  destruct (pa_closed_before a); cbn [NetFd_isClosed] in E.
  { injection E as _ _ <-. reflexivity. }
  match type of E with context [poll ?ev ?tm a st] =>
    pose proof (poll_pipe_writes ev tm a st Ua) as PW; set (st1 := poll ev tm a st) in * end.
  destruct (poll_result (pa_outcome a) =? -1).
  - destruct (pa_closed_after a); cbn [NetFd_isClosed] in E.
    { injection E as _ _ <-. exact PW. }
    destruct (negb (errno st1 =? EINTR)).
    + injection E as _ _ <-. exact PW.
    + rewrite <- PW. eapply IH; eassumption.
  - injection E as _ _ <-. exact PW.
Qed.

Lemma sys_read_pipe_writes o st :
  pipe_writes (trace (sys_read o st)) = pipe_writes (trace st).
Proof. destruct o; reflexivity. Qed.

Lemma drain_pipe_pipe_writes n : forall st,
  pipe_writes (trace (drain_pipe n st)) = pipe_writes (trace st).
Proof.
  induction n as [|n IH]; intro st; cbn [drain_pipe]; [reflexivity|].
  destruct (errno (sys_read ReadOk st) =? EINTR); [rewrite IH|]; reflexivity.
Qed.

Lemma sslSelect_drain_pipe_writes rs : forall st,
  pipe_writes (trace (sslSelect_drain rs st)) = pipe_writes (trace st).
Proof.
  induction rs as [|o rs IH]; intro st; cbn [sslSelect_drain].
  - apply drain_pipe_pipe_writes.
  - destruct (errno (sys_read o st) =? EINTR); [rewrite IH|]; apply sys_read_pipe_writes.
Qed.

Lemma sslSelect_pipe_writes attempts rs type t st r st' :
  undisturbed_wait attempts = true ->
  sslSelect attempts rs type t st = Some (r, st') ->
  pipe_writes (trace st') = pipe_writes (trace st).
Proof.
  unfold sslSelect. intros U E.
  destruct (sslSelect_poll attempts type t st) as [[[r1 rev] st1]|] eqn:EP; [|discriminate].
  injection E as _ <-.
  rewrite <- (sslSelect_poll_pipe_writes _ _ _ _ _ _ _ U EP).
  cbn [set_waiting set_appData trace].
  destruct ((r1 >? 0) && negb (Z.land rev POLLIN =? 0)); [|reflexivity].
  apply sslSelect_drain_pipe_writes.
Qed.

Lemma wait_case_calm {A : Type} (s : A -> State) it t (k : State -> A) st0 st :
  (forall x, s (k x) = x) ->
  undisturbed_wait (it_polls it) = true ->
  pipe_writes (trace st) = pipe_writes (trace st0) ->
  flow_calm s (wait_case it t k st) st0.
Proof.
  intros K U C. unfold wait_case.
  destruct (sslSelect (it_polls it) (it_drain it) (sslError st) t st) as [[r st']|] eqn:E;
    [|exact I].
  pose proof (sslSelect_pipe_writes _ _ _ _ _ _ _ U E) as Q.
  destruct (r =? THROWN_EXCEPTION); [cbn; congruence|].
  destruct (r =? -1); [cbn; congruence|].
  destruct (r =? 0); [cbn; congruence|].
  cbn. rewrite K. congruence.
Qed.

Lemma syscall_case_calm {A : Type} (s : A -> State) result (k : State -> A) st0 st :
  (forall x, s (k x) = x) ->
  pipe_writes (trace st) = pipe_writes (trace st0) ->
  flow_calm s (syscall_case result k st) st0.
Proof.
  intros K C. unfold syscall_case.
  destruct (result =? 0); [exact C|].
  destruct (errno st =? EINTR); [cbn; rewrite K|]; exact C.
Qed.

(** The writes on the pipe up to the switch of a turn that no other
    thread interrupts: none up to the engine's answer, those of the
    wake-up after it. *)
Lemma engine_turn_writes it ev st :
  step_interrupt (it_step it) = false ->
  pipe_writes (trace (clearCallbackState
                 (engine_call (it_step it) (log ev (set_callbackState true (set_errno 0 st))))))
  = pipe_writes (trace (log ev st))
  /\ pipe_writes (trace (stepped it ev st))
     = (wakeup_writes it st + pipe_writes (trace (log ev st)))%nat.
Proof.
  intro Ui. unfold stepped.
  set (st1 := log ev (set_callbackState true (set_errno 0 st))).
  pose proof (engine_call_pipe_writes (it_step it) st1 Ui) as C2.
  pose proof (engine_call_waiting (it_step it) st1) as W2.
  set (st2 := engine_call (it_step it) st1) in *.
  assert (C3 : pipe_writes (trace (clearCallbackState st2)) = pipe_writes (trace (log ev st)))
    by exact C2.
  split; [exact C3|].
  rewrite after_step_pipe_writes.
  set (st4 := OpenSslError_reset (it_step it) (step_result (it_step it))
                (clearCallbackState st2)).
  assert (W4 : waitingThreads (appData st4) = waitingThreads (appData st)).
  { unfold st4, OpenSslError_reset. destruct (_ <=? 0); exact W2. }
  assert (C4 : pipe_writes (trace st4) = pipe_writes (trace (log ev st))).
  { unfold st4, OpenSslError_reset. destruct (_ <=? 0); exact C3. }
  unfold wakeup_writes. rewrite W4, C4. reflexivity.
Qed.

Lemma no_wakeup it st :
  (waitingThreads (appData st) <=? 0) || still it = true -> wakeup_writes it st = O.
Proof.
  unfold wakeup_writes, still. intro H. apply orb_true_iff in H as [H|H].
  - apply Z.leb_le in H.
    replace (waitingThreads (appData st) >? 0) with false
      by (symmetry; rewrite Z.gtb_ltb; apply Z.ltb_ge; exact H).
    rewrite andb_false_r. reflexivity.
  - apply negb_true_iff in H. rewrite H. reflexivity.
Qed.

Lemma sslRead_body_calm it len t st :
  undisturbed it = true ->
  (waitingThreads (appData st) <=? 0) || still it = true ->
  flow_calm (fun s => s) (sslRead_body it len t st) st.
Proof.
  intros U Q. apply no_wakeup in Q. unfold sslRead_body.
  destruct (init_not_finished it); [reflexivity|].
  unfold setCallbackState. destruct (it_fd_closed it); cbn [NetFd_isClosed negb]; [reflexivity|].
  unfold SSL_read.
  unfold undisturbed in U. apply andb_true_iff in U as (Ui & Up).
  apply negb_true_iff in Ui.
  destruct (engine_turn_writes it (EvSSL_read len (step_result (it_step it))) st Ui)
    as (C3 & C5).
  rewrite Q in C5. unfold stepped in C5.
  match type of C3 with pipe_writes (trace ?s) = _ => set (st3 := s) in * end.
  destruct (ExceptionCheck st3); [exact C3|].
  match type of C5 with pipe_writes (trace ?s) = _ => set (st5 := s) in * end.
  destruct (sslError st5 =? SSL_ERROR_NONE); [exact C5|].
  destruct (sslError st5 =? SSL_ERROR_ZERO_RETURN); [exact C5|].
  destruct ((sslError st5 =? SSL_ERROR_WANT_READ) || (sslError st5 =? SSL_ERROR_WANT_WRITE)).
  { apply wait_case_calm; [reflexivity|exact Up|exact C5]. }
  destruct (sslError st5 =? SSL_ERROR_SYSCALL).
  { apply syscall_case_calm; [reflexivity|exact C5]. }
  exact C5.
Qed.

Lemma sslWrite_body_calm it buf len t st :
  undisturbed it = true ->
  (waitingThreads (appData st) <=? 0) || still it = true ->
  flow_calm state_of3 (sslWrite_body it buf len t st) st.
Proof.
  intros U Q. apply no_wakeup in Q. unfold sslWrite_body.
  destruct (init_not_finished it); [reflexivity|].
  unfold setCallbackState. destruct (it_fd_closed it); cbn [NetFd_isClosed negb]; [reflexivity|].
  unfold SSL_write.
  unfold undisturbed in U. apply andb_true_iff in U as (Ui & Up).
  apply negb_true_iff in Ui.
  destruct (engine_turn_writes it (EvSSL_write buf len (step_result (it_step it))) st Ui)
    as (C3 & C5).
  rewrite Q in C5. unfold stepped in C5.
  match type of C3 with pipe_writes (trace ?s) = _ => set (st3 := s) in * end.
  destruct (ExceptionCheck st3); [exact C3|].
  match type of C5 with pipe_writes (trace ?s) = _ => set (st5 := s) in * end.
  destruct (sslError st5 =? SSL_ERROR_NONE); [exact C5|].
  destruct (sslError st5 =? SSL_ERROR_ZERO_RETURN); [exact C5|].
  destruct ((sslError st5 =? SSL_ERROR_WANT_READ) || (sslError st5 =? SSL_ERROR_WANT_WRITE)).
  { apply wait_case_calm; [reflexivity|exact Up|exact C5]. }
  destruct (sslError st5 =? SSL_ERROR_SYSCALL).
  { apply syscall_case_calm; [reflexivity|exact C5]. }
  exact C5.
Qed.

Lemma no_wakeup_tail w it rest :
  (w <=? 0) || forallb still (it :: rest) = true ->
  (w <=? 0) || still it = true /\ (w <=? 0) || forallb still rest = true.
Proof.
  cbn [forallb]. destruct (w <=? 0); cbn [orb]; [split; reflexivity|].
  intro H. apply andb_true_iff in H. exact H.
Qed.

Lemma sslRead_loop_calm script : forall len t st,
  forallb undisturbed script = true ->
  (waitingThreads (appData st) <=? 0) || forallb still script = true ->
  loop_calm (fun s => s) (sslRead_loop script len t st) st.
Proof.
  induction script as [|it rest IH]; intros len t st U Q; cbn [sslRead_loop];
    destruct (negb (aliveAndKicking (appData st) =? 0)); try reflexivity.
  cbn [forallb] in U. apply andb_true_iff in U as (Ui & Ur).
  apply no_wakeup_tail in Q as (Qi & Qr).
  pose proof (sslRead_body_calm it len t st Ui Qi) as B.
  pose proof (sslRead_body_waiting it len t st) as BW.
  destruct (sslRead_body it len t st) as [st'| |]; cbn in B, BW |- *; try assumption.
  unfold waiting_of in BW. rewrite <- BW in Qr.
  specialize (IH len t st' Ur Qr).
  destruct (sslRead_loop rest len t st'); cbn in IH |- *; try exact I; congruence.
Qed.

Lemma sslWrite_loop_calm script : forall buf len t st,
  forallb undisturbed script = true ->
  (waitingThreads (appData st) <=? 0) || forallb still script = true ->
  loop_calm state_of3 (sslWrite_loop script buf len t st) st.
Proof.
  induction script as [|it rest IH]; intros buf len t st U Q; cbn [sslWrite_loop];
    destruct (negb (aliveAndKicking (appData st) =? 0) && (len >? 0)); try reflexivity.
  cbn [forallb] in U. apply andb_true_iff in U as (Ui & Ur).
  apply no_wakeup_tail in Q as (Qi & Qr).
  pose proof (sslWrite_body_calm it buf len t st Ui Qi) as B.
  pose proof (sslWrite_body_waiting it buf len t st) as BW.
  destruct (sslWrite_body it buf len t st) as [[[buf' len'] st']| |]; cbn in B, BW |- *;
    try assumption.
  unfold waiting_of3 in BW. cbn [snd] in BW. rewrite <- BW in Qr.
  specialize (IH buf' len' t st' Ur Qr).
  destruct (sslWrite_loop rest buf' len' t st') as [[[b2 l2] s2]| |]; cbn in IH |- *;
    try exact I; congruence.
Qed.

Lemma throwSSLExceptionWithSslErrors_trace af code st :
  trace (throwSSLExceptionWithSslErrors af code throwSSLExceptionStr st) = trace st.
Proof.
  unfold throwSSLExceptionWithSslErrors.
  destruct af; [reflexivity|]. destruct (code =? SSL_ERROR_SSL); reflexivity.
Qed.

(** The writes on the pipe of a turn that gets to the engine's answer. *)
Lemma sslRead_body_wakeup it len t st :
  undisturbed it = true -> reaches_engine it = true -> pending st = None ->
  match sslRead_body it len t st with
  | Continue s | Return _ s =>
      pipe_writes (trace s) = (wakeup_writes it st + pipe_writes (trace st))%nat
  | Blocked => True
  end.
Proof.
  intros U R P. rewrite (sslRead_body_engine it len t st R P). cbv zeta.
  unfold undisturbed in U. apply andb_true_iff in U as (Ui & Up).
  apply negb_true_iff in Ui.
  destruct (engine_turn_writes it (EvSSL_read len (step_result (it_step it))) st Ui)
    as (_ & C5).
  cbn [log trace pipe_writes] in C5.
  set (st5 := stepped it (EvSSL_read len (step_result (it_step it))) st) in *.
  destruct (reported (it_step it) =? SSL_ERROR_NONE); [exact C5|].
  destruct (reported (it_step it) =? SSL_ERROR_ZERO_RETURN); [exact C5|].
  destruct (wants_io (reported (it_step it))).
  { pose proof (wait_case_calm (fun s : State => s) it t (fun s : State => s) st5 st5
                  (fun x => eq_refl) Up eq_refl) as Wc.
    destruct (wait_case it t (fun s : State => s) st5); cbn in Wc |- *;
      [rewrite Wc; exact C5|rewrite Wc; exact C5|exact I]. }
  destruct (reported (it_step it) =? SSL_ERROR_SYSCALL); [|exact C5].
  pose proof (syscall_case_calm (fun s : State => s) (step_result (it_step it))
                (fun s : State => s) st5 st5 (fun x => eq_refl) eq_refl) as Sc.
  destruct (syscall_case (step_result (it_step it)) (fun s : State => s) st5);
    cbn in Sc |- *; [rewrite Sc; exact C5|rewrite Sc; exact C5|exact I].
Qed.

Lemma sslWrite_body_wakeup it buf len t st :
  undisturbed it = true -> reaches_engine it = true -> pending st = None ->
  match sslWrite_body it buf len t st with
  | Continue (_, _, s) | Return _ s =>
      pipe_writes (trace s) = (wakeup_writes it st + pipe_writes (trace st))%nat
  | Blocked => True
  end.
Proof.
  intros U R P. rewrite (sslWrite_body_engine it buf len t st R P). cbv zeta.
  unfold undisturbed in U. apply andb_true_iff in U as (Ui & Up).
  apply negb_true_iff in Ui.
  destruct (engine_turn_writes it (EvSSL_write buf len (step_result (it_step it))) st Ui)
    as (_ & C5).
  cbn [log trace pipe_writes] in C5.
  set (st5 := stepped it (EvSSL_write buf len (step_result (it_step it))) st) in *.
  destruct (reported (it_step it) =? SSL_ERROR_NONE); [exact C5|].
  destruct (reported (it_step it) =? SSL_ERROR_ZERO_RETURN); [exact C5|].
  destruct (wants_io (reported (it_step it))).
  { pose proof (wait_case_calm state_of3 it t (fun s : State => (buf, len, s)) st5 st5
                  (fun x => eq_refl) Up eq_refl) as Wc.
    destruct (wait_case it t (fun s : State => (buf, len, s)) st5) as [[[b1 l1] s1]| |];
      cbn in Wc |- *; [rewrite Wc; exact C5|rewrite Wc; exact C5|exact I]. }
  destruct (reported (it_step it) =? SSL_ERROR_SYSCALL); [|exact C5].
  pose proof (syscall_case_calm state_of3 (step_result (it_step it))
                (fun s : State => (buf, len, s)) st5 st5 (fun x => eq_refl) eq_refl) as Sc.
  destruct (syscall_case (step_result (it_step it)) (fun s : State => (buf, len, s)) st5)
    as [[[b1 l1] s1]| |]; cbn in Sc |- *; [rewrite Sc; exact C5|rewrite Sc; exact C5|exact I].
Qed.

(** X9. A read or a write wakes another thread only after a step that
    moved data while a thread was counted as waiting.  With no interrupt
    from another thread, NativeCrypto_SSL_read and NativeCrypto_SSL_write
    make no write to the emergency pipe when no thread is counted as
    waiting, and none when no step of theirs moves data, however many
    steps and waits they go through.  And a turn of either loop that gets
    to the engine's answer makes exactly the writes of one sslNotify when
    its step moved data while waitingThreads was positive, and no write
    otherwise. *)
Theorem wakeup_needs_progress_and_a_waiter :
  forall (script : list iteration) (af : bool) (ssl : option SSL) (fdObject shc b : bool)
         (len t : Z) (st : State) (it : iteration) (buf : Z) (st0 : State),
  forallb undisturbed script = true ->
  (waitingThreads (appData st) <=? 0) || forallb still script = true ->
  undisturbed it = true ->
  reaches_engine it = true ->
  pending st0 = None ->
  match NativeCrypto_SSL_read script af ssl fdObject shc b len t st with
  | Some (_, st') => pipe_writes (trace st') = pipe_writes (trace st)
  | None => True
  end
  /\ match NativeCrypto_SSL_write script af ssl fdObject shc b len t st with
     | Some st' => pipe_writes (trace st') = pipe_writes (trace st)
     | None => True
     end
  /\ match sslRead_body it len t st0 with
     | Continue s | Return _ s =>
         pipe_writes (trace s)
         = ((if step_moved (it_step it) && (waitingThreads (appData st0) >? 0)
             then S (eintr_prefix (it_notify it)) else O) + pipe_writes (trace st0))%nat
     | Blocked => True
     end
  /\ match sslWrite_body it buf len t st0 with
     | Continue (_, _, s) | Return _ s =>
         pipe_writes (trace s)
         = ((if step_moved (it_step it) && (waitingThreads (appData st0) >? 0)
             then S (eintr_prefix (it_notify it)) else O) + pipe_writes (trace st0))%nat
     | Blocked => True
     end.
Proof.
  intros script af ssl fdObject shc b len t st it buf st0 U W Ui Ri P0.
  split; [|split; [|split;
    [exact (sslRead_body_wakeup it len t st0 Ui Ri P0)
    |exact (sslWrite_body_wakeup it buf len t st0 Ui Ri P0)]]];
    unfold NativeCrypto_SSL_read, NativeCrypto_SSL_write, check_arguments;
    (destruct ssl as [ssl|]; cbn [to_SSL]; [|reflexivity]);
    (destruct fdObject; cbn [negb]; [|reflexivity]);
    (destruct shc; cbn [negb]; [|reflexivity]);
    (destruct b; cbn [negb]; [|reflexivity]);
    unfold sslRead, sslWrite;
    (destruct (len =? 0); [reflexivity|]);
    (destruct (app_data ssl); cbn [negb];
     [|change (THROW_SSLEXCEPTION =? THROW_SSLEXCEPTION) with true; cbv iota;
       rewrite throwSSLExceptionWithSslErrors_trace; reflexivity]).
  - pose proof (sslRead_loop_calm script len t (set_sslError SSL_ERROR_NONE st) U W) as L.
    destruct (sslRead_loop script len t (set_sslError SSL_ERROR_NONE st)) as [s|r0 s|];
      cbn in L; [exact L| |exact I].
    destruct (r0 =? THROW_SSLEXCEPTION);
      [rewrite throwSSLExceptionWithSslErrors_trace; exact L|].
    destruct (r0 =? THROW_SOCKETTIMEOUTEXCEPTION); [exact L|].
    destruct (r0 =? THROWN_EXCEPTION); exact L.
  - pose proof (sslWrite_loop_calm script 0 len t (set_sslError SSL_ERROR_NONE st) U W) as L.
    destruct (sslWrite_loop script 0 len t (set_sslError SSL_ERROR_NONE st))
      as [[[b1 l1] s]|r0 s|]; cbn in L; [| |exact I].
    + destruct (len =? THROW_SSLEXCEPTION);
        [rewrite throwSSLExceptionWithSslErrors_trace; exact L|].
      destruct (len =? THROW_SOCKETTIMEOUTEXCEPTION); [exact L|].
      destruct (len =? THROWN_EXCEPTION); exact L.
    + destruct (r0 =? THROW_SSLEXCEPTION);
        [rewrite throwSSLExceptionWithSslErrors_trace; exact L|].
      destruct (r0 =? THROW_SOCKETTIMEOUTEXCEPTION); [exact L|].
      destruct (r0 =? THROWN_EXCEPTION); exact L.
Qed.

(** A read that waits twice and meets the end of the stream while
    another thread waits as well moves no data and wakes nobody; a step
    that moves four bytes in the same state wakes the other thread
    once. *)
Lemma wakeup_needs_progress_and_a_waiter_witness :
  forallb undisturbed two_waits = true
  /\ (waitingThreads (appData one_waiter) <=? 0) || forallb still two_waits = true
  /\ undisturbed (turn (moves 4) []) = true
  /\ reaches_engine (turn (moves 4) []) = true
  /\ pending one_waiter = None
  /\ option_map (fun r => (fst r, pipe_writes (trace (snd r))))
       (NativeCrypto_SSL_read two_waits false attached true true true 16 0 one_waiter)
     = Some (-1, O)
  /\ match sslRead_body (turn (moves 4) []) 16 0 one_waiter with
     | Continue s | Return _ s => pipe_writes (trace s) = 1%nat
     | Blocked => False
     end.
Proof.
  destruct (wakeup_needs_progress_and_a_waiter two_waits false attached true true true
              16 0 one_waiter (turn (moves 4) []) 0 one_waiter
              eq_refl eq_refl eq_refl eq_refl eq_refl) as (N & _ & R & _).
  do 5 (split; [reflexivity|]).
  split.
  - destruct (NativeCrypto_SSL_read two_waits false attached true true true 16 0 one_waiter)
      as [[r s]|] eqn:E; [|vm_compute in E; discriminate E].
    cbn [option_map fst snd]. rewrite N.
    assert (Er : option_map fst
                   (NativeCrypto_SSL_read two_waits false attached true true true 16 0
                      one_waiter) = Some (-1)) by (vm_compute; reflexivity).
    rewrite E in Er. injection Er as ->. reflexivity.
  - destruct (sslRead_body (turn (moves 4) []) 16 0 one_waiter) as [s|r s|] eqn:E;
      [exact R|exact R|vm_compute in E; discriminate E].
Defined.

Lemma poll_pipe_tokens ev t a st :
  (fdsEmergency (appData st) <= fdsEmergency (appData (poll ev t a st)))%nat.
Proof.
  unfold poll.
  assert (C : forall b s,
    (fdsEmergency (appData s) <= fdsEmergency (appData (concurrent_interrupt b s)))%nat).
  { intros b s. destruct b; [|apply Nat.le_refl].
    unfold concurrent_interrupt, other_thread.
    cbn [set_errno set_pending set_sslError appData].
    destruct (NativeCrypto_SSL_interrupt_attached [] [] s) as (_ & F & _).
    fold attached. rewrite F. lia. }
  destruct (pa_outcome a); cbn [set_errno appData];
    exact (C (pa_interrupt a) (log (EvPoll ev (Z.lor POLLIN POLLPRI) t) st)).
Qed.

Lemma sslSelect_poll_pipe_reads attempts : forall type t st r rev st',
  sslSelect_poll attempts type t st = Some (r, rev, st') ->
  pipe_reads (trace st') = pipe_reads (trace st)
  /\ (fdsEmergency (appData st) <= fdsEmergency (appData st'))%nat
  /\ (pipe_never_readable attempts = true -> Z.land rev POLLIN = 0).
Proof.
  induction attempts as [|a rest IH]; intros type t st r rev st' E; [discriminate|].
  cbn [sslSelect_poll] in E. cbn [pipe_never_readable forallb].
  destruct (pa_closed_before a); cbn [NetFd_isClosed] in E.
  { injection E as _ <- <-.
    split; [reflexivity|]. split; [apply Nat.le_refl|]. intros _. reflexivity. }
  match type of E with context [poll ?ev ?tm a st] =>
    pose proof (poll_pipe_reads ev tm a st) as PR;
    pose proof (poll_pipe_tokens ev tm a st) as PT;
    set (st1 := poll ev tm a st) in * end.
  assert (N : (Z.land (poll_revents1 (pa_outcome a)) POLLIN =? 0)
              && forallb (fun a0 => Z.land (poll_revents1 (pa_outcome a0)) POLLIN =? 0) rest
              = true -> Z.land (poll_revents1 (pa_outcome a)) POLLIN = 0).
  { intro H. apply andb_true_iff in H as (H & _). apply Z.eqb_eq in H. exact H. }
  destruct (poll_result (pa_outcome a) =? -1).
  - destruct (pa_closed_after a); cbn [NetFd_isClosed] in E.
    { injection E as _ <- <-. repeat split; assumption. }
    destruct (negb (errno st1 =? EINTR)).
    + injection E as _ <- <-. repeat split; assumption.
    + destruct (IH _ _ _ _ _ _ E) as (R & T & V).
      split; [congruence|]. split; [lia|].
      intro H. apply andb_true_iff in H as (_ & H). exact (V H).
  - injection E as _ <- <-. repeat split; assumption.
Qed.

(** X10. sslSelect takes nothing from the wake-up pipe unless poll has
    reported it readable: when the wait ends in a timeout, a failure or a
    closed descriptor (a result of 0 or less), or when no poll of the wait
    reports the pipe readable, sslSelect makes no read on the pipe and no
    token leaves it. *)
Theorem sslSelect_reads_pipe_only_when_woken :
  forall (attempts : list poll_attempt) (rs : list read_outcome) (type t : Z)
         (st : State) (r : Z) (st' : State),
  sslSelect attempts rs type t st = Some (r, st') ->
  (r <=? 0) || pipe_never_readable attempts = true ->
  pipe_reads (trace st') = pipe_reads (trace st)
  /\ (fdsEmergency (appData st) <= fdsEmergency (appData st'))%nat.
Proof.
  intros attempts rs type t st r st' E H. unfold sslSelect in E.
  destruct (sslSelect_poll attempts type t st) as [[[r1 rev] st1]|] eqn:EP; [|discriminate].
  destruct (sslSelect_poll_pipe_reads _ _ _ _ _ _ _ EP) as (R & T & V).
  injection E as -> <-.
  assert (G : (r >? 0) && negb (Z.land rev POLLIN =? 0) = false).
  { apply orb_true_iff in H as [H|H].
    - apply Z.leb_le in H. rewrite Z.gtb_ltb.
      replace (0 <? r) with false by (symmetry; apply Z.ltb_ge; exact H). reflexivity.
    - rewrite (V H). cbn. apply andb_false_r. }
  rewrite G. cbn [set_waiting set_appData trace appData fdsEmergency].
  split; assumption.
Qed.

Lemma sslSelect_reads_pipe_only_when_woken_witness :
  sslSelect eintr_then_timeout [] SSL_ERROR_WANT_READ 250 one_waiter
  = Some (0, eintr_then_timeout_end)
  /\ (0 <=? 0) || pipe_never_readable eintr_then_timeout = true
  /\ pipe_reads (trace eintr_then_timeout_end) = O
  /\ pipe_reads_after (sslSelect [woken_by_interrupt] [] SSL_ERROR_WANT_READ 250 one_waiter)
     = Some 1%nat.
Proof.
  assert (E : sslSelect eintr_then_timeout [] SSL_ERROR_WANT_READ 250 one_waiter
              = Some (0, eintr_then_timeout_end)) by (vm_compute; reflexivity).
  destruct (sslSelect_reads_pipe_only_when_woken eintr_then_timeout [] SSL_ERROR_WANT_READ
              250 one_waiter 0 eintr_then_timeout_end E eq_refl) as (R & _).
  split; [exact E|]. split; [reflexivity|]. split; [exact R|]. vm_compute. reflexivity.
Defined.

(** * Byte arrays and BIGNUM *)

(** A property of all bytes holds when it holds of each of the 256. *)
Lemma byte_cases (test : Z -> bool) :
  forallb (fun n => test (Z.of_nat n)) (seq 0 256) = true ->
  forall b, 0 <= b < 256 -> test b = true.
Proof.
  intros H b B. rewrite forallb_forall in H.
  rewrite <- (Z2Nat.id b) by lia. apply H. apply in_seq. lia.
Qed.

Lemma byte_lxor b : 0 <= b < 256 -> Z.lxor b 255 = 255 - b.
Proof.
  intro B. apply Z.eqb_eq.
  apply (byte_cases (fun b => Z.lxor b 255 =? 255 - b)); [vm_compute; reflexivity|exact B].
Qed.

Lemma byte_sign b : 0 <= b < 256 -> (Z.land b 128 =? 0) = (b <? 128).
Proof.
  intro B. apply Bool.eqb_prop.
  apply (byte_cases (fun b => Bool.eqb (Z.land b 128 =? 0) (b <? 128)));
    [vm_compute; reflexivity|exact B].
Qed.

Lemma byte_lor b : 128 <= b < 256 -> Z.lor b 128 = b.
Proof.
  intro B. apply Z.eqb_eq.
  assert (T : (if b <? 128 then true else Z.lor b 128 =? b) = true).
  { apply (byte_cases (fun b => if b <? 128 then true else Z.lor b 128 =? b));
      [vm_compute; reflexivity|lia]. }
  destruct (Z.ltb_spec b 128); [lia|exact T].
Qed.

Lemma pow256_pos n : 0 < 256 ^ Z.of_nat n.
Proof. apply Z.pow_pos_nonneg; lia. Qed.

Lemma pow256_succ n : 256 ^ Z.of_nat (S n) = 256 * 256 ^ Z.of_nat n.
Proof. rewrite Nat2Z.inj_succ. apply Z.pow_succ_r. lia. Qed.

Lemma BN_bin2bn_range bs :
  bytes_ok bs -> 0 <= BN_bin2bn bs < 256 ^ Z.of_nat (length bs).
Proof.
  induction 1 as [|b rest B _ IH]; cbn [BN_bin2bn length]; [cbn; lia|].
  rewrite pow256_succ. pose proof (pow256_pos (length rest)). nia.
Qed.

Lemma negate_in_place_spec bs :
  bytes_ok bs ->
  bytes_ok (fst (negate_in_place bs))
  /\ length (fst (negate_in_place bs)) = length bs
  /\ snd (negate_in_place bs) = (BN_bin2bn bs =? 0)
  /\ BN_bin2bn (fst (negate_in_place bs))
     = if BN_bin2bn bs =? 0 then 0 else 256 ^ Z.of_nat (length bs) - BN_bin2bn bs.
Proof.
  induction 1 as [|b rest B R IH]; cbn [negate_in_place].
  { cbn. repeat split. constructor. }
  destruct IH as (O' & L' & C' & V').
  pose proof (BN_bin2bn_range rest R) as RR.
  pose proof (pow256_pos (length rest)) as PP.
  destruct (negate_in_place rest) as [rest' carry]. cbn [fst snd] in *.
  rewrite (byte_lxor b B). cbn [BN_bin2bn length]. rewrite pow256_succ.
  subst carry. destruct (Z.eqb_spec (BN_bin2bn rest) 0) as [Z0|NZ].
  - cbn [fst snd BN_bin2bn length]. rewrite L', V', Z0, !Z.add_0_r.
    split; [constructor; [apply Z.mod_pos_bound; lia|exact O']|].
    split; [reflexivity|].
    destruct (Z.eqb_spec b 0) as [->|Nb].
    + cbn. split; reflexivity.
    + replace (255 - b + 1) with (256 - b) by lia.
      rewrite (Z.mod_small (256 - b) 256) by lia.
      split.
      * destruct (Z.eqb_spec (256 - b) 0); destruct (Z.eqb_spec (b * 256 ^ Z.of_nat (length rest)) 0);
          try reflexivity; nia.
      * destruct (Z.eqb_spec (b * 256 ^ Z.of_nat (length rest)) 0); nia.
  - cbn [fst snd BN_bin2bn length]. rewrite L', V'.
    split; [constructor; [lia|exact O']|].
    split; [reflexivity|].
    split.
    + symmetry. apply Z.eqb_neq. nia.
    + destruct (Z.eqb_spec (b * 256 ^ Z.of_nat (length rest) + BN_bin2bn rest) 0); nia.
Qed.

Lemma arrayToBignum_value bs :
  bytes_ok bs ->
  arrayToBignum (Some bs) false false = Done (twos_complement_value bs).
Proof.
  intros B. unfold arrayToBignum, twos_complement_value.
  destruct bs as [|b0 rest]; [reflexivity|].
  assert (B0 : 0 <= b0 < 256) by (inversion B; assumption).
  rewrite (byte_sign b0 B0).
  destruct (negate_in_place_spec _ B) as (_ & _ & _ & V).
  pose proof (BN_bin2bn_range _ B) as R.
  destruct (Z.ltb_spec b0 128) as [Lo|Hi]; cbn [negb].
  - destruct (Z.leb_spec 128 b0); [lia|]. cbn [BN_set_negative]. f_equal. lia.
  - destruct (Z.leb_spec 128 b0); [|lia]. cbn [BN_set_negative]. f_equal.
    rewrite V.
    assert (NZ : BN_bin2bn (b0 :: rest) <> 0).
    { cbn [BN_bin2bn]. inversion B as [|? ? _ Br]; subst.
      pose proof (BN_bin2bn_range rest Br). pose proof (pow256_pos (length rest)). nia. }
    destruct (Z.eqb_spec (BN_bin2bn (b0 :: rest)) 0); [contradiction|]. lia.
Qed.

(** X11. arrayToBignum reads a Java byte array as big-endian two's
    complement: for an array of bytes it yields the integer the array
    denotes, which is negative exactly when the top bit of the first byte
    is set and lies in the range of a two's complement number of that
    many bytes; the empty array is zero. *)
Theorem arrayToBignum_reads_twos_complement :
  forall bs : list Z,
  bytes_ok bs ->
  arrayToBignum (Some bs) false false = Done (twos_complement_value bs)
  /\ match bs with
     | [] => twos_complement_value bs = 0
     | b0 :: rest =>
         - (128 * 256 ^ Z.of_nat (length rest)) <= twos_complement_value bs
           < 128 * 256 ^ Z.of_nat (length rest)
         /\ if Z.land b0 128 =? 0 then 0 <= twos_complement_value bs
            else twos_complement_value bs < 0
     end.
Proof.
  intros bs B. split; [apply arrayToBignum_value; exact B|].
  destruct bs as [|b0 rest]; [reflexivity|].
  inversion B as [|? ? B0 Br]; subst.
  pose proof (BN_bin2bn_range rest Br) as RR.
  pose proof (pow256_pos (length rest)) as PP.
  rewrite (byte_sign b0 B0).
  unfold twos_complement_value. cbn [BN_bin2bn length]. rewrite pow256_succ.
  destruct (Z.leb_spec 128 b0); destruct (Z.ltb_spec b0 128); try lia; split; nia.
Qed.

Lemma arrayToBignum_reads_twos_complement_witness :
  bytes_ok minus_200
  /\ arrayToBignum (Some minus_200) false false = Done (-200)
  /\ arrayToBignum (Some plus_200) false false = Done 200.
Proof.
  assert (B : bytes_ok minus_200) by (repeat constructor; lia).
  destruct (arrayToBignum_reads_twos_complement minus_200 B) as (E & _).
  split; [exact B|]. split.
  - rewrite E. reflexivity.
  - vm_compute. reflexivity.
Defined.

Lemma pow256_as_pow2 n : 256 ^ Z.of_nat n = 2 ^ (8 * Z.of_nat n).
Proof. change 256 with (2 ^ 8). rewrite <- Z.pow_mul_r by lia. reflexivity. Qed.

Lemma big_endian_spec n : forall m,
  0 <= m ->
  bytes_ok (big_endian n m)
  /\ length (big_endian n m) = n
  /\ BN_bin2bn (big_endian n m) = m mod 256 ^ Z.of_nat n.
Proof.
  induction n as [|n IH]; intros m M; cbn [big_endian].
  { cbn. repeat split; [constructor|]. symmetry. apply Z.mod_1_r. }
  destruct (IH m M) as (O' & L' & V').
  split; [constructor; [apply Z.mod_pos_bound; lia|exact O']|].
  split; [cbn [length]; rewrite L'; reflexivity|].
  cbn [BN_bin2bn]. rewrite L', V', pow256_succ.
  pose proof (pow256_pos n) as PP.
  rewrite (Z.mul_comm 256), Z.rem_mul_r by lia. lia.
Qed.

Lemma BN_num_bytes_bound m :
  0 < m ->
  256 ^ (Z.of_nat (BN_num_bytes m) - 1) <= m < 256 ^ Z.of_nat (BN_num_bytes m).
Proof.
  intro M. unfold BN_num_bytes. rewrite (Z.abs_eq m) by lia.
  destruct (Z.eqb_spec m 0); [lia|].
  pose proof (Z.log2_nonneg m) as L0.
  pose proof (Z.log2_spec m M) as (Lo & Hi).
  pose proof (Z.div_mod (Z.log2 m) 8 ltac:(lia)) as DM.
  pose proof (Z.mod_pos_bound (Z.log2 m) 8 ltac:(lia)) as MB.
  assert (D0 : 0 <= Z.log2 m / 8) by (apply Z.div_pos; lia).
  rewrite Z2Nat.id by lia.
  replace (Z.log2 m / 8 + 1 - 1) with (Z.log2 m / 8) by lia.
  change 256 with (2 ^ 8). rewrite <- !Z.pow_mul_r by lia.
  split.
  - eapply Z.le_trans; [|exact Lo]. apply Z.pow_le_mono_r; lia.
  - eapply Z.lt_le_trans; [exact Hi|]. apply Z.pow_le_mono_r; lia.
Qed.

Lemma BN_num_bytes_opp v : BN_num_bytes (- v) = BN_num_bytes v.
Proof. unfold BN_num_bytes. rewrite Z.abs_opp. reflexivity. Qed.

Lemma BN_bn2bin_spec v :
  bytes_ok (BN_bn2bin v)
  /\ length (BN_bn2bin v) = BN_num_bytes v
  /\ BN_bin2bn (BN_bn2bin v) = Z.abs v.
Proof.
  unfold BN_bn2bin.
  destruct (big_endian_spec (BN_num_bytes v) (Z.abs v) (Z.abs_nonneg v)) as (O' & L' & V').
  split; [exact O'|]. split; [exact L'|]. rewrite V'.
  destruct (Z.eq_dec (Z.abs v) 0) as [Z0|NZ].
  - rewrite Z0. apply Z.mod_0_l. pose proof (pow256_pos (BN_num_bytes v)). lia.
  - apply Z.mod_small.
    assert (M : 0 < Z.abs v) by (pose proof (Z.abs_nonneg v); lia).
    pose proof (BN_num_bytes_bound (Z.abs v) M) as (_ & Hi).
    unfold BN_num_bytes in Hi |- *.
    rewrite (Z.abs_eq (Z.abs v)) in Hi by apply Z.abs_nonneg. lia.
Qed.

(** X12. The two conversions are inverse to each other on every integer:
    bignumToArray writes a BIGNUM as BN_num_bytes + 1 bytes, and
    arrayToBignum reads these bytes back as the same number, whatever its
    sign. *)
Theorem bignumToArray_round_trip :
  forall v : Z,
  exists bs : list Z,
    bignumToArray (Some v) false = Done bs
    /\ bytes_ok bs
    /\ length bs = S (BN_num_bytes v)
    /\ arrayToBignum (Some bs) false false = Done v.
Proof.
  intro v. unfold bignumToArray.
  destruct (BN_bn2bin_spec v) as (Ow & Lw & Vw).
  assert (G : (0 <? Z.of_nat (BN_num_bytes v)) && (Z.of_nat (length (BN_bn2bin v)) <=? 0)
              = false).
  { rewrite Lw. destruct (Z.ltb_spec 0 (Z.of_nat (BN_num_bytes v))); [|reflexivity].
    cbn [andb]. apply Z.leb_gt. assumption. }
  rewrite G.
  assert (Ot : bytes_ok (0 :: BN_bn2bin v)) by (constructor; [lia|exact Ow]).
  unfold BN_is_negative. destruct (Z.ltb_spec v 0) as [Neg|Pos].
  - destruct (negate_in_place_spec _ Ot) as (Or & Lr & _ & Vr).
    assert (M : BN_bin2bn (0 :: BN_bn2bin v) = - v) by (cbn [BN_bin2bn]; rewrite Vw; lia).
    rewrite M in Vr. destruct (Z.eqb_spec (- v) 0) as [|_]; [lia|].
    cbn [length] in Lr, Vr. rewrite Lw in Lr, Vr.
    destruct (fst (negate_in_place (0 :: BN_bn2bin v))) as [|b0 rest] eqn:E; [discriminate|].
    cbn [length] in Lr. injection Lr as Lr.
    inversion Or as [|? ? B0 Orest]; subst.
    pose proof (BN_bin2bn_range rest Orest) as RR. rewrite Lr in RR.
    pose proof (pow256_pos (BN_num_bytes v)) as PP.
    pose proof (BN_num_bytes_bound (- v) ltac:(lia)) as (_ & Hi).
    rewrite BN_num_bytes_opp in Hi.
    cbn [BN_bin2bn] in Vr. rewrite Lr, pow256_succ in Vr.
    assert (B255 : 128 <= b0 < 256) by nia.
    rewrite (byte_lor b0 B255).
    exists (b0 :: rest). split; [reflexivity|]. split; [exact Or|].
    split; [cbn [length]; rewrite Lr; reflexivity|].
    rewrite (arrayToBignum_value (b0 :: rest) Or). f_equal.
    unfold twos_complement_value. destruct (Z.leb_spec 128 b0); [|lia].
    cbn [BN_bin2bn length]. rewrite Lr, pow256_succ. lia.
  - exists (0 :: BN_bn2bin v). split; [reflexivity|]. split; [exact Ot|].
    split; [cbn [length]; rewrite Lw; reflexivity|].
    rewrite (arrayToBignum_value _ Ot). f_equal.
    unfold twos_complement_value. cbn [BN_bin2bn]. rewrite Vw.
    change (128 <=? 0) with false. cbv iota. rewrite Z.abs_eq by lia. lia.
Qed.

Lemma skip_leading_zeros_spec bs :
  bytes_ok bs ->
  bytes_ok (skip_leading_zeros bs)
  /\ BN_bin2bn (skip_leading_zeros bs) = BN_bin2bn bs
  /\ match skip_leading_zeros bs with
     | [] => BN_bin2bn bs = 0
     | b :: _ => b <> 0
     end.
Proof.
  induction 1 as [|b rest B R IH]; cbn [skip_leading_zeros].
  { repeat split. constructor. }
  destruct (Z.eqb_spec b 0) as [->|NZ].
  - destruct IH as (O' & V' & H'). split; [exact O'|].
    cbn [BN_bin2bn]. rewrite Z.mul_0_l, Z.add_0_l. split; [exact V'|].
    destruct (skip_leading_zeros rest); assumption.
  - split; [constructor; assumption|]. split; [reflexivity|exact NZ].
Qed.

Lemma BN_num_bytes_of_bytes b rest :
  bytes_ok (b :: rest) -> b <> 0 ->
  BN_num_bytes (BN_bin2bn (b :: rest)) = S (length rest).
Proof.
  intros B NZ. inversion B as [|? ? B0 R]; subst.
  pose proof (BN_bin2bn_range rest R) as RR.
  pose proof (pow256_pos (length rest)) as PP.
  set (v := BN_bin2bn (b :: rest)).
  assert (V : 256 ^ Z.of_nat (length rest) <= v < 256 ^ Z.of_nat (S (length rest))).
  { unfold v. cbn [BN_bin2bn]. rewrite pow256_succ. nia. }
  rewrite !pow256_as_pow2 in V. destruct V as (Lo & Hi).
  assert (P : 0 < v) by (pose proof (Z.pow_pos_nonneg 2 (8 * Z.of_nat (length rest))); lia).
  apply Z.log2_le_pow2 in Lo; [|exact P].
  apply Z.log2_lt_pow2 in Hi; [|exact P].
  unfold BN_num_bytes. rewrite Z.abs_eq by lia.
  destruct (Z.eqb_spec v 0); [lia|].
  assert (D : Z.log2 v / 8 = Z.of_nat (length rest)).
  { symmetry. apply (Z.div_unique_pos _ 8 _ (Z.log2 v - 8 * Z.of_nat (length rest))); lia. }
  rewrite D. lia.
Qed.

(** X13. arrayToBignumSize agrees with arrayToBignum: it refuses exactly
    the arrays that arrayToBignum reads as negative numbers, and for any
    other array the size it reports is the number of bytes of the number
    arrayToBignum reads, leading zero bytes not counted. *)
Theorem arrayToBignumSize_agrees_with_arrayToBignum :
  forall bs : list Z,
  bytes_ok bs ->
  exists v : Z,
    arrayToBignum (Some bs) false false = Done v
    /\ match arrayToBignumSize (Some bs) with
       | Done n => 0 <= v /\ n = BN_num_bytes v
       | Threw e => e = JRuntimeException /\ v < 0
       end.
Proof.
  intros bs B. exists (twos_complement_value bs).
  split; [apply arrayToBignum_value; exact B|].
  unfold arrayToBignumSize, twos_complement_value.
  destruct bs as [|b0 rest]; [split; [lia|reflexivity]|].
  assert (B0 : 0 <= b0 < 256) by (inversion B; assumption).
  rewrite (byte_sign b0 B0).
  pose proof (BN_bin2bn_range _ B) as R.
  destruct (Z.ltb_spec b0 128) as [Lo|Hi]; cbn [negb].
  - destruct (Z.leb_spec 128 b0); [lia|]. rewrite Z.sub_0_r.
    split; [lia|].
    destruct (skip_leading_zeros_spec _ B) as (Os & Vs & Hs).
    destruct (skip_leading_zeros (b0 :: rest)) as [|b r] eqn:E.
    + rewrite Hs. reflexivity.
    + rewrite <- Vs. rewrite (BN_num_bytes_of_bytes b r Os Hs). reflexivity.
  - destruct (Z.leb_spec 128 b0); [|lia]. split; [reflexivity|lia].
Qed.

Lemma arrayToBignumSize_agrees_with_arrayToBignum_witness :
  bytes_ok plus_200
  /\ arrayToBignum (Some plus_200) false false = Done 200
  /\ arrayToBignumSize (Some plus_200) = Done 1%nat
  /\ arrayToBignumSize (Some minus_200) = Threw JRuntimeException.
Proof.
  assert (B : bytes_ok plus_200) by (repeat constructor; lia).
  destruct (arrayToBignumSize_agrees_with_arrayToBignum plus_200 B) as (v & E & _).
  split; [exact B|]. split; [|split; reflexivity].
  rewrite E. f_equal.
  assert (E' : arrayToBignum (Some plus_200) false false = Done 200) by reflexivity.
  rewrite E in E'. injection E' as ->. reflexivity.
Defined.

(** * Digest updates *)

Lemma GetByteArrayRegion_app array start a b :
  0 <= start -> 0 <= a -> 0 <= b ->
  GetByteArrayRegion array start (a + b)
  = GetByteArrayRegion array start a ++ GetByteArrayRegion array (start + a) b.
Proof.
  intros S A B. unfold GetByteArrayRegion.
  rewrite !Z2Nat.inj_add by lia. rewrite firstn_plus, skipn_skipn.
  rewrite (Nat.add_comm (Z.to_nat a)). reflexivity.
Qed.

Lemma GetByteArrayRegion_length array start len :
  0 <= start -> 0 <= len -> start + len <= Z.of_nat (length array) ->
  Z.of_nat (length (GetByteArrayRegion array start len)) = len.
Proof.
  intros S L B. unfold GetByteArrayRegion.
  rewrite length_firstn, length_skipn. lia.
Qed.

Lemma update_func_succeeds buf md :
  updates_succeed md = true ->
  exists md', update_func buf md = (true, md')
              /\ md_fed md' = md_fed md ++ [buf]
              /\ updates_succeed md' = true.
Proof.
  unfold updates_succeed, update_func. intro H.
  destruct (md_answers md) as [|r rest].
  - eexists. repeat split.
  - cbn [forallb] in H. apply andb_true_iff in H as (-> & H).
    eexists. split; [reflexivity|]. split; [reflexivity|exact H].
Qed.

Lemma evpUpdate_stream_spec fuel : forall array buf_size in_offset remaining md,
  0 < buf_size -> 0 <= in_offset -> 0 <= remaining ->
  (Z.to_nat remaining <= fuel)%nat ->
  updates_succeed md = true ->
  exists md' chunks,
    evpUpdate_stream fuel array buf_size in_offset remaining md = Some (true, md')
    /\ md_fed md' = md_fed md ++ chunks
    /\ concat chunks = GetByteArrayRegion array in_offset remaining
    /\ Forall (fun c => Z.of_nat (length c) <= buf_size) chunks
    /\ updates_succeed md' = true.
Proof.
  induction fuel as [|fuel IH]; intros array buf_size in_offset remaining md B O R F U.
  - assert (remaining = 0) by lia. subst remaining. cbn.
    exists md, []. rewrite app_nil_r.
    split; [reflexivity|]. split; [reflexivity|]. split; [reflexivity|].
    split; [constructor|exact U].
  - cbn [evpUpdate_stream].
    destruct (Z.gtb_spec remaining 0) as [Pos|Zero].
    + set (chunk_size := if remaining >=? buf_size then buf_size else remaining).
      assert (C : 0 < chunk_size <= remaining /\ chunk_size <= buf_size).
      { unfold chunk_size. destruct (Z.geb_spec remaining buf_size); lia. }
      destruct (update_func_succeeds (GetByteArrayRegion array in_offset chunk_size) md U)
        as (md1 & E1 & F1 & U1).
      rewrite E1. cbn [negb].
      destruct (IH array buf_size (in_offset + chunk_size) (remaining - chunk_size) md1)
        as (md' & chunks & E & F' & Cc & Fa & U'); try lia; [exact U1|].
      exists md', (GetByteArrayRegion array in_offset chunk_size :: chunks).
      split; [exact E|].
      split; [rewrite F', F1, <- app_assoc; reflexivity|].
      split.
      { cbn [concat]. rewrite Cc.
        rewrite <- GetByteArrayRegion_app by lia. f_equal. lia. }
      split; [|exact U'].
      constructor; [|exact Fa].
      unfold GetByteArrayRegion. rewrite length_firstn. lia.
    + assert (remaining = 0) by lia. subst remaining.
      exists md, []. rewrite app_nil_r.
      split; [reflexivity|]. split; [reflexivity|]. split; [reflexivity|].
      split; [constructor|exact U].
Qed.

Lemma ARRAY_CHUNK_INVALID_false array_len chunk_offset chunk_len :
  ARRAY_CHUNK_INVALID array_len chunk_offset chunk_len = false ->
  0 <= chunk_offset /\ 0 <= chunk_len /\ chunk_offset + chunk_len <= array_len.
Proof.
  unfold ARRAY_CHUNK_INVALID. intro H.
  apply orb_false_iff in H as (H & H4). apply orb_false_iff in H as (H & H3).
  apply orb_false_iff in H as (H1 & H2).
  apply Z.ltb_ge in H1, H3. rewrite Z.gtb_ltb in H2, H4. apply Z.ltb_ge in H2, H4. lia.
Qed.

(** X14. evpUpdate feeds the digest exactly the bytes it was asked to.
    A chunk that does not lie inside the array is refused with an
    ArrayIndexOutOfBoundsException before the digest is touched.
    Otherwise, when no update fails, the buffers handed to update_func,
    taken in order, are the [inLength] bytes of the array from
    [inOffset] on, whichever way the bytes are fetched; and when they are
    copied no buffer is longer than 64 kB. *)
Theorem evpUpdate_feeds_the_chunk :
  forall (array : list Z) (inOffset inLength : Z) (env : evp_env) (md : md_state),
  updates_succeed md = true ->
  chunk_buffer_fails env = false ->
  elements_fail env = false ->
  exists (md' : md_state) (thrown : option jni_exception),
    evpUpdate true (Some array) inOffset inLength env md = Some (md', thrown)
    /\ if ARRAY_CHUNK_INVALID (Z.of_nat (length array)) inOffset inLength
       then thrown = Some JArrayIndexOutOfBoundsException /\ md' = md
       else thrown = None
            /\ Z.of_nat (length (GetByteArrayRegion array inOffset inLength)) = inLength
            /\ exists chunks : list (list Z),
                 md_fed md' = md_fed md ++ chunks
                 /\ concat chunks = GetByteArrayRegion array inOffset inLength
                 /\ if likely_copy env
                    then Forall (fun c => Z.of_nat (length c) <= 65536) chunks
                    else (length chunks <= 1)%nat.
Proof.
  intros array inOffset inLength env md U CB EF.
  unfold evpUpdate. cbn [negb].
  destruct (ARRAY_CHUNK_INVALID (Z.of_nat (length array)) inOffset inLength) eqn:V.
  { exists md, (Some JArrayIndexOutOfBoundsException). repeat split. }
  apply ARRAY_CHUNK_INVALID_false in V. destruct V as (O & L & B).
  pose proof (GetByteArrayRegion_length array inOffset inLength O L B) as GL.
  destruct (Z.eqb_spec inLength 0) as [L0|L0].
  { exists md, None. split; [reflexivity|]. split; [reflexivity|]. split; [exact GL|].
    exists []. rewrite app_nil_r. split; [reflexivity|].
    split; [subst inLength; reflexivity|].
    destruct (likely_copy env); [constructor|cbn; lia]. }
  rewrite CB, EF.
  destruct (update_func_succeeds (GetByteArrayRegion array inOffset inLength) md U)
    as (md1 & E1 & F1 & U1).
  assert (One : exists md' thrown,
    (if negb true then Some (md1, queued env) else Some (md1, None)) = Some (md', thrown)
    /\ thrown = None
    /\ Z.of_nat (length (GetByteArrayRegion array inOffset inLength)) = inLength
    /\ exists chunks, md_fed md' = md_fed md ++ chunks
         /\ concat chunks = GetByteArrayRegion array inOffset inLength
         /\ (length chunks <= 1)%nat
         /\ (inLength <= 1024 -> Forall (fun c => Z.of_nat (length c) <= 65536) chunks)).
  { exists md1, None. split; [reflexivity|]. split; [reflexivity|]. split; [exact GL|].
    exists [GetByteArrayRegion array inOffset inLength].
    split; [exact F1|]. split; [cbn; apply app_nil_r|]. split; [cbn; lia|].
    intro Small. constructor; [lia|constructor]. }
  destruct (likely_copy env).
  - destruct (Z.leb_spec inLength 1024) as [Small|Large].
    + rewrite E1. destruct One as (md' & thrown & E & T & G & chunks & F & C & _ & S).
      exists md', thrown. split; [exact E|]. split; [exact T|]. split; [exact G|].
      exists chunks. split; [exact F|]. split; [exact C|]. exact (S Small).
    + set (buf_size := if inLength >=? 65536 then 65536 else inLength).
      assert (Bs : 0 < buf_size <= 65536).
      { unfold buf_size. destruct (Z.geb_spec inLength 65536); lia. }
      destruct (evpUpdate_stream_spec (Z.to_nat inLength) array buf_size inOffset inLength md)
        as (md' & chunks & E & F & C & Fa & _); try lia; [exact U|].
      rewrite E. cbn [negb].
      exists md', None. split; [reflexivity|]. split; [reflexivity|]. split; [exact GL|].
      exists chunks. split; [exact F|]. split; [exact C|].
      eapply Forall_impl; [|exact Fa]. cbn. intros c Hc. lia.
  - rewrite E1. destruct One as (md' & thrown & E & T & G & chunks & F & C & N & _).
    exists md', thrown. split; [exact E|]. split; [exact T|]. split; [exact G|].
    exists chunks. split; [exact F|]. split; [exact C|exact N].
Qed.

Lemma evpUpdate_feeds_the_chunk_witness :
  updates_succeed empty_md = true
  /\ chunk_buffer_fails copying = false
  /\ elements_fail copying = false
  /\ ARRAY_CHUNK_INVALID (Z.of_nat (length big_array)) 0 70000 = false
  /\ option_map (fun r => map (fun c => Z.of_nat (length c)) (md_fed (fst r)))
       (evpUpdate true (Some big_array) 0 70000 copying empty_md)
     = Some [65536; 4464]
  /\ option_map snd (evpUpdate true (Some big_array) 1 70000 copying empty_md)
     = Some (Some JArrayIndexOutOfBoundsException).
Proof.
  destruct (evpUpdate_feeds_the_chunk big_array 1 70000 copying empty_md
              eq_refl eq_refl eq_refl) as (md' & thrown & E & V).
  assert (I : ARRAY_CHUNK_INVALID (Z.of_nat (length big_array)) 1 70000 = true)
    by (vm_compute; reflexivity).
  rewrite I in V. destruct V as (-> & ->).
  split; [reflexivity|]. split; [reflexivity|]. split; [reflexivity|].
  split; [vm_compute; reflexivity|]. split; [vm_compute; reflexivity|].
  rewrite E. reflexivity.
Defined.

(** * Generalized time *)

Lemma isdigit_plain c :
  isdigit c = true -> isspace c = false /\ (c =? 45) = false /\ (c =? 43) = false.
Proof.
  unfold isdigit, isspace. intro H. apply andb_true_iff in H as (A & B).
  apply Z.leb_le in A, B.
  repeat split.
  - apply orb_false_iff. split; [apply Z.eqb_neq; lia|].
    apply andb_false_iff. right. apply Z.leb_gt. lia.
  - apply Z.eqb_neq; lia.
  - apply Z.eqb_neq; lia.
Qed.

Lemma atoi_digits_field ds : forall rest acc,
  forallb isdigit ds = true ->
  atoi_digits (ds ++ 0 :: rest) acc = fold_left (fun a c => 10 * a + (c - 48)) ds acc.
Proof.
  induction ds as [|d ds IH]; intros rest acc H; [reflexivity|].
  cbn [forallb] in H. apply andb_true_iff in H as (D & H).
  cbn [app atoi_digits fold_left]. rewrite D. apply IH. exact H.
Qed.

Lemma atoi_field d ds rest :
  forallb isdigit (d :: ds) = true ->
  atoi ((d :: ds) ++ 0 :: rest) = decimal (d :: ds).
Proof.
  intro H. pose proof H as H0. cbn [forallb] in H0. apply andb_true_iff in H0 as (D & _).
  destruct (isdigit_plain d D) as (S & M & P).
  change ((d :: ds) ++ 0 :: rest) with (d :: (ds ++ 0 :: rest)).
  cbn [atoi]. rewrite S, M, P.
  change (d :: (ds ++ 0 :: rest)) with ((d :: ds) ++ 0 :: rest).
  apply atoi_digits_field. exact H.
Qed.

Lemma store_middle pre x rest c :
  store (pre ++ x :: rest) (length pre) c = pre ++ c :: rest.
Proof. induction pre as [|p pre IH]; cbn; [reflexivity|]. rewrite IH. reflexivity. Qed.

(** One call of get_ASN1_TIME_data on a pointer that has [fld] before it
    and [c] under it reads [fld] and puts [c] back. *)
Lemma get_ASN1_TIME_data_field pre fld c rest data len :
  data = Z.of_nat (length (pre ++ fld)) ->
  len = Z.of_nat (length fld) ->
  get_ASN1_TIME_data (pre ++ fld ++ c :: rest) data len
  = (pre ++ fld ++ c :: rest, data - len, atoi (fld ++ 0 :: rest)).
Proof.
  intros -> ->. unfold get_ASN1_TIME_data.
  rewrite Nat2Z.id.
  replace (Z.of_nat (length (pre ++ fld)) - Z.of_nat (length fld))
    with (Z.of_nat (length pre)) by (rewrite length_app; lia).
  rewrite Nat2Z.id.
  replace (Z.to_nat (Z.of_nat (length pre) + Z.of_nat (length fld)))
    with (length (pre ++ fld)) by (rewrite length_app; lia).
  rewrite (app_assoc pre fld (c :: rest)).
  rewrite nth_middle, !store_middle.
  rewrite <- (app_assoc pre fld (0 :: rest)).
  rewrite skipn_app, skipn_all, Nat.sub_diag. reflexivity.
Qed.

(** X15. NativeCrypto_ASN1_TIME_to_Calendar leaves the time string as it
    found it, although it overwrites characters with NUL while it reads:
    for a string of at least fourteen characters and one more behind them
    the buffer is the same afterwards.  When the fourteen characters are
    digits, Calendar.set gets the numbers YYYY, MM - 1, DD, hh, mm and ss
    they spell. *)
Theorem ASN1_TIME_to_Calendar_reads_the_fields :
  forall (g : ASN1_GENERALIZEDTIME) (mem : list Z),
  gen_data g = Some mem ->
  14 <= gen_length g ->
  (14 < length mem)%nat ->
  exists set : calendar_set,
    NativeCrypto_ASN1_TIME_to_Calendar true (Some g) = Done (mem, set)
    /\ if forallb isdigit (firstn 14 mem)
       then set = mkSet (decimal (field mem 0 4)) (decimal (field mem 4 2) - 1)
                    (decimal (field mem 6 2)) (decimal (field mem 8 2))
                    (decimal (field mem 10 2)) (decimal (field mem 12 2))
       else True.
Proof.
  intros g mem D L Len.
  unfold NativeCrypto_ASN1_TIME_to_Calendar. cbn [negb]. rewrite D.
  replace (gen_length g <? 14) with false by (symmetry; apply Z.ltb_ge; exact L).
  destruct mem as [|y0 [|y1 [|y2 [|y3 [|m0 [|m1 [|d0 [|d1 [|h0 [|h1 [|n0 [|n1 [|s0 [|s1
    [|c rest]]]]]]]]]]]]]]]; try (cbn in Len; lia).
  cbv zeta.
  pose proof (get_ASN1_TIME_data_field [y0; y1; y2; y3; m0; m1; d0; d1; h0; h1; n0; n1]
                [s0; s1] c rest 14 2 eq_refl eq_refl) as E1.
  pose proof (get_ASN1_TIME_data_field [y0; y1; y2; y3; m0; m1; d0; d1; h0; h1]
                [n0; n1] s0 (s1 :: c :: rest) (14 - 2) 2 eq_refl eq_refl) as E2.
  pose proof (get_ASN1_TIME_data_field [y0; y1; y2; y3; m0; m1; d0; d1]
                [h0; h1] n0 (n1 :: s0 :: s1 :: c :: rest) (14 - 2 - 2) 2
                eq_refl eq_refl) as E3.
  pose proof (get_ASN1_TIME_data_field [y0; y1; y2; y3; m0; m1]
                [d0; d1] h0 (h1 :: n0 :: n1 :: s0 :: s1 :: c :: rest) (14 - 2 - 2 - 2) 2
                eq_refl eq_refl) as E4.
  pose proof (get_ASN1_TIME_data_field [y0; y1; y2; y3]
                [m0; m1] d0 (d1 :: h0 :: h1 :: n0 :: n1 :: s0 :: s1 :: c :: rest)
                (14 - 2 - 2 - 2 - 2) 2 eq_refl eq_refl) as E5.
  pose proof (get_ASN1_TIME_data_field []
                [y0; y1; y2; y3] m0
                (m1 :: d0 :: d1 :: h0 :: h1 :: n0 :: n1 :: s0 :: s1 :: c :: rest)
                (14 - 2 - 2 - 2 - 2 - 2) 4 eq_refl eq_refl) as E6.
  cbn [app] in E1, E2, E3, E4, E5, E6.
  rewrite E1. cbv beta iota. rewrite E2. cbv beta iota. rewrite E3. cbv beta iota.
  rewrite E4. cbv beta iota. rewrite E5. cbv beta iota. rewrite E6. cbv beta iota.
  eexists. split; [reflexivity|].
  match goal with |- if ?b then _ else _ => destruct b eqn:Dg end; [|exact I].
  cbn [firstn forallb] in Dg.
  repeat (apply andb_true_iff in Dg; destruct Dg as (? & Dg)).
  unfold field. cbn [skipn firstn].
  assert (F2 : forall a b r, isdigit a = true -> isdigit b = true ->
               atoi (a :: b :: 0 :: r) = decimal [a; b]).
  { intros a b r Ha Hb. apply (atoi_field a [b] r). cbn [forallb]. rewrite Ha, Hb.
    reflexivity. }
  rewrite !F2 by assumption.
  assert (F4 : forall r, atoi (y0 :: y1 :: y2 :: y3 :: 0 :: r) = decimal [y0; y1; y2; y3]).
  { intro r. apply (atoi_field y0 [y1; y2; y3] r). cbn [forallb].
    repeat match goal with
           | Hd : isdigit ?x = true |- context [isdigit ?x] => rewrite Hd
           end.
    reflexivity. }
  rewrite F4. reflexivity.
Qed.

Lemma ASN1_TIME_to_Calendar_reads_the_fields_witness :
  gen_data (mkGen 15 (Some leap_day)) = Some leap_day
  /\ 14 <= gen_length (mkGen 15 (Some leap_day))
  /\ (14 < length leap_day)%nat
  /\ NativeCrypto_ASN1_TIME_to_Calendar true (Some (mkGen 15 (Some leap_day)))
     = Done (leap_day, mkSet 2024 1 29 23 59 58).
Proof.
  assert (L : 14 <= gen_length (mkGen 15 (Some leap_day))) by (cbn; lia).
  assert (N : (14 < length leap_day)%nat) by (cbn; lia).
  destruct (ASN1_TIME_to_Calendar_reads_the_fields (mkGen 15 (Some leap_day)) leap_day
              eq_refl L N) as (set & E & V).
  change (forallb isdigit (firstn 14 leap_day)) with true in V. cbv iota in V.
  split; [reflexivity|]. split; [exact L|]. split; [exact N|].
  rewrite E, V. reflexivity.
Defined.

(** * Blocking mode *)

(** X16. setBlocking changes the O_NONBLOCK bit of the file status flags
    and no other: when both fcntl calls succeed it returns true, the bit
    is set exactly when non-blocking mode was asked for, and every other
    flag is as before; when a call fails it returns false and the flags
    are untouched. *)
Theorem setBlocking_changes_one_flag :
  forall (getfl_fails setfl_fails blocking : bool) (fd_flags : Z),
  0 <= fd_flags ->
  fst (setBlocking getfl_fails setfl_fails blocking fd_flags)
  = negb (getfl_fails || setfl_fails)
  /\ (if getfl_fails || setfl_fails
      then snd (setBlocking getfl_fails setfl_fails blocking fd_flags) = fd_flags
      else forall i : Z, 0 <= i ->
           Z.testbit (snd (setBlocking getfl_fails setfl_fails blocking fd_flags)) i
           = if i =? 11 then negb blocking else Z.testbit fd_flags i).
Proof.
  intros gf sf blocking fd_flags NN. unfold setBlocking.
  destruct gf; cbn [orb negb]; [split; reflexivity|].
  destruct (Z.eqb_spec fd_flags (-1)) as [|_]; [lia|].
  destruct sf; cbn [orb negb fst snd]; [split; reflexivity|].
  split; [reflexivity|].
  intros i I. change O_NONBLOCK with (2 ^ 11).
  destruct blocking; cbn [negb].
  - rewrite Z.land_spec, Z.lnot_spec, Z.pow2_bits_eqb by lia.
    rewrite (Z.eqb_sym 11 i). destruct (i =? 11); cbn [negb];
      [apply andb_false_r|apply andb_true_r].
  - rewrite Z.lor_spec, Z.pow2_bits_eqb by lia.
    rewrite (Z.eqb_sym 11 i). destruct (i =? 11); [apply orb_true_r|apply orb_false_r].
Qed.

Lemma setBlocking_changes_one_flag_witness :
  0 <= some_flags
  /\ setBlocking false false true some_flags = (true, 1026)
  /\ setBlocking false false false 1026 = (true, some_flags)
  /\ Z.testbit (snd (setBlocking false false true some_flags)) 10 = true.
Proof.
  assert (N : 0 <= some_flags) by (unfold some_flags; lia).
  destruct (setBlocking_changes_one_flag false false true some_flags N) as (_ & B).
  cbn [orb] in B.
  split; [exact N|]. split; [reflexivity|]. split; [reflexivity|].
  rewrite (B 10 ltac:(lia)). reflexivity.
Defined.
